(** * RFP assistant backend: the ingestion and retrieval pipeline

    A shallow embedding of the two revisions of [excelProcessor.js] kept in
    the repository:

    - the revision that talks to the vector store through the SDK client and
      falls back to the direct HTTP gateway ([Module ExcelProcessor] below),
    - the revision that only uses the direct gateway and has the
      [MOCK_MODE] switch ([Module Part000] below).

    The retry executor, the stable identifier generator and the record
    extraction are textually the same in both revisions and are modelled once.

    Conventions.  A JavaScript string is a [string] whose characters are the
    code units 0..255.  A plain object is an association list in insertion
    order ([JsObject]); [console.log] calls are not modelled.  A thrown value
    is an [Error] object carrying a message. *)

From Stdlib Require Import String Ascii List ZArith NArith Bool Lia Arith QArith.
From Stdlib Require Import Permutation Qround.
Import ListNotations.
Local Close Scope Q_scope.
Local Open Scope list_scope.
Local Open Scope string_scope.

Set Implicit Arguments.

(* ===================================================================== *)
(** ** Strings *)
(* ===================================================================== *)

Module JsString.

Definition code (c : ascii) : N := N_of_ascii c.

(** White space as [String.prototype.trim] and the regular expression
    class [\s] see it, among the code units below 256. *)
Definition is_space (c : ascii) : bool :=
  let n := code c in
  ((9 <=? n) && (n <=? 13) || (n =? 32) || (n =? 160))%N.

Fixpoint trimStart (s : string) : string :=
  match s with
  | EmptyString => EmptyString
  | String c t => if is_space c then trimStart t else s
  end.

(** [trimEnd] keeps a character when it is not white space or when
    something is kept after it. *)
Fixpoint trimEnd (s : string) : string :=
  match s with
  | EmptyString => EmptyString
  | String c t =>
      match trimEnd t with
      | EmptyString => if is_space c then EmptyString else String c EmptyString
      | t' => String c t'
      end
  end.

Definition trim (s : string) : string := trimEnd (trimStart s).

(** [s.slice(0, n)] *)
Definition slice0 (n : nat) (s : string) : string := substring 0 n s.

Definition lower_char (c : ascii) : ascii :=
  let n := code c in
  if ((65 <=? n) && (n <=? 90))%N then ascii_of_N (n + 32)
  else if ((192 <=? n) && (n <=? 222) && negb (n =? 215))%N then ascii_of_N (n + 32)
  else c.

Fixpoint toLowerCase (s : string) : string :=
  match s with
  | EmptyString => EmptyString
  | String c t => String (lower_char c) (toLowerCase t)
  end.

(** [hay.includes(needle)] *)
Fixpoint includes (needle hay : string) : bool :=
  prefix needle hay ||
  match hay with
  | EmptyString => false
  | String _ t => includes needle t
  end.

(** [parts.join(sep)] *)
Fixpoint join (sep : string) (parts : list string) : string :=
  match parts with
  | [] => ""
  | [p] => p
  | p :: rest => p ++ sep ++ join sep rest
  end.

(** A string is truthy when it is not empty. *)
Definition truthy (s : string) : bool :=
  match s with EmptyString => false | _ => true end.

Definition newline : string := String (ascii_of_nat 10) EmptyString.
Definition dquote : string := String (ascii_of_nat 34) EmptyString.

(** What a template literal prints for a possibly missing property. *)
Definition template (v : option string) : string :=
  match v with Some s => s | None => "undefined" end.

(** The UTF-8 bytes Node hashes for a string of code units below 256. *)
Fixpoint utf8 (s : string) : list Z :=
  match s with
  | EmptyString => []
  | String c t =>
      let n := Z.of_N (code c) in
      if (n <? 128)%Z then n :: utf8 t
      else Z.lor 192 (Z.shiftr n 6) :: Z.lor 128 (Z.land n 63) :: utf8 t
  end.

End JsString.

(* ===================================================================== *)
(** ** Plain objects *)
(* ===================================================================== *)

Module JsObject.

Definition t (V : Type) := list (string * V).

Section Ops.
Variable V : Type.

Fixpoint get (o : t V) (k : string) : option V :=
  match o with
  | [] => None
  | (k', v) :: rest => if String.eqb k' k then Some v else get rest k
  end.

(** [o[k] = v]: an existing property keeps its place. *)
Fixpoint set (o : t V) (k : string) (v : V) : t V :=
  match o with
  | [] => [(k, v)]
  | (k', v') :: rest =>
      if String.eqb k' k then (k, v) :: rest else (k', v') :: set rest k v
  end.

Definition is_digit (c : ascii) : bool :=
  let n := N_of_ascii c in ((48 <=? n) && (n <=? 57))%N.

Fixpoint digits_value (acc : N) (s : string) : option N :=
  match s with
  | EmptyString => Some acc
  | String c r =>
      if is_digit c then digits_value (10 * acc + (N_of_ascii c - 48))%N r
      else None
  end.

(** The property names the engine treats as array indices: canonical
    decimal numerals up to 2^32 - 2. They are enumerated first, in
    ascending order. *)
Definition array_index (k : string) : option N :=
  match k with
  | EmptyString => None
  | String c r =>
      if (N_of_ascii c =? 48)%N && negb (String.eqb r "") then None
      else if Nat.ltb 10 (String.length k) then None
      else match digits_value 0 k with
           | Some n => if (n <=? 4294967294)%N then Some n else None
           | None => None
           end
  end.

Fixpoint insert_sorted (e : N * (string * V)) (l : list (N * (string * V)))
  : list (N * (string * V)) :=
  match l with
  | [] => [e]
  | e' :: r => if (fst e <=? fst e')%N then e :: l else e' :: insert_sorted e r
  end.

Fixpoint index_entries (o : t V) : list (N * (string * V)) :=
  match o with
  | [] => []
  | (k, v) :: r =>
      match array_index k with
      | Some n => insert_sorted (n, (k, v)) (index_entries r)
      | None => index_entries r
      end
  end.

Fixpoint named_entries (o : t V) : t V :=
  match o with
  | [] => []
  | (k, v) :: r =>
      match array_index k with
      | Some _ => named_entries r
      | None => (k, v) :: named_entries r
      end
  end.

(** [Object.entries(o)] *)
Definition entries (o : t V) : list (string * V) :=
  (map snd (index_entries o) ++ named_entries o)%list.

(** [Object.keys(o)] *)
Definition keys (o : t V) : list string := map fst (entries o).

End Ops.

End JsObject.

(* ===================================================================== *)
(** ** MD5 (RFC 1321), as [crypto.createHash('md5')] computes it *)
(* ===================================================================== *)

Module MD5.
Local Open Scope Z_scope.

Definition w32 (x : Z) : Z := x mod 4294967296.
Definition add32 (x y : Z) : Z := w32 (x + y).
Definition not32 (x : Z) : Z := Z.lxor x 4294967295.
Definition rotl32 (x : Z) (c : Z) : Z :=
  w32 (Z.lor (Z.shiftl x c) (Z.shiftr x (32 - c))).

Definition K : list Z :=
  [ 0xd76aa478; 0xe8c7b756; 0x242070db; 0xc1bdceee; 0xf57c0faf; 0x4787c62a;
    0xa8304613; 0xfd469501; 0x698098d8; 0x8b44f7af; 0xffff5bb1; 0x895cd7be;
    0x6b901122; 0xfd987193; 0xa679438e; 0x49b40821; 0xf61e2562; 0xc040b340;
    0x265e5a51; 0xe9b6c7aa; 0xd62f105d; 0x02441453; 0xd8a1e681; 0xe7d3fbc8;
    0x21e1cde6; 0xc33707d6; 0xf4d50d87; 0x455a14ed; 0xa9e3e905; 0xfcefa3f8;
    0x676f02d9; 0x8d2a4c8a; 0xfffa3942; 0x8771f681; 0x6d9d6122; 0xfde5380c;
    0xa4beea44; 0x4bdecfa9; 0xf6bb4b60; 0xbebfbc70; 0x289b7ec6; 0xeaa127fa;
    0xd4ef3085; 0x04881d05; 0xd9d4d039; 0xe6db99e5; 0x1fa27cf8; 0xc4ac5665;
    0xf4292244; 0x432aff97; 0xab9423a7; 0xfc93a039; 0x655b59c3; 0x8f0ccc92;
    0xffeff47d; 0x85845dd1; 0x6fa87e4f; 0xfe2ce6e0; 0xa3014314; 0x4e0811a1;
    0xf7537e82; 0xbd3af235; 0x2ad7d2bb; 0xeb86d391 ].

Definition shifts : list Z :=
  [ 7; 12; 17; 22; 7; 12; 17; 22; 7; 12; 17; 22; 7; 12; 17; 22;
    5; 9; 14; 20; 5; 9; 14; 20; 5; 9; 14; 20; 5; 9; 14; 20;
    4; 11; 16; 23; 4; 11; 16; 23; 4; 11; 16; 23; 4; 11; 16; 23;
    6; 10; 15; 21; 6; 10; 15; 21; 6; 10; 15; 21; 6; 10; 15; 21 ].

Record digest := { dA : Z; dB : Z; dC : Z; dD : Z }.

Definition init : digest :=
  {| dA := 0x67452301; dB := 0xefcdab89; dC := 0x98badcfe; dD := 0x10325476 |}.

(** One of the 64 operations on the working variables. *)
Definition step (M : list Z) (st : digest) (i : nat) : digest :=
  let '(Build_digest a b c d) := st in
  let f :=
    if Nat.ltb i 16 then Z.lor (Z.land b c) (Z.land (not32 b) d)
    else if Nat.ltb i 32 then Z.lor (Z.land d b) (Z.land (not32 d) c)
    else if Nat.ltb i 48 then Z.lxor b (Z.lxor c d)
    else Z.lxor c (Z.lor b (not32 d)) in
  let g :=
    if Nat.ltb i 16 then i
    else if Nat.ltb i 32 then ((5 * i + 1) mod 16)%nat
    else if Nat.ltb i 48 then ((3 * i + 5) mod 16)%nat
    else ((7 * i) mod 16)%nat in
  let F := add32 (add32 (add32 f a) (nth i K 0)) (nth g M 0) in
  {| dA := d; dB := add32 b (rotl32 F (nth i shifts 0)); dC := b; dD := c |}.

Definition compress (st : digest) (M : list Z) : digest :=
  let r := fold_left (step M) (seq 0 64) st in
  {| dA := add32 (dA st) (dA r); dB := add32 (dB st) (dB r);
     dC := add32 (dC st) (dC r); dD := add32 (dD st) (dD r) |}.

(** Little-endian bytes of a number, [n] of them. *)
Fixpoint le_bytes (n : nat) (x : Z) : list Z :=
  match n with
  | O => []
  | S n' => (x mod 256) :: le_bytes n' (x / 256)
  end.

Fixpoint le_word (bs : list Z) : Z :=
  match bs with
  | [] => 0
  | b :: r => b + 256 * le_word r
  end.

Definition pad (msg : list Z) : list Z :=
  let len := length msg in
  let zeros := ((64 + 55 - len mod 64) mod 64)%nat in
  (msg ++ [128] ++ repeat 0 zeros ++ le_bytes 8 (8 * Z.of_nat len))%list.

(** Cuts a block of 64 bytes into its 16 words. *)
Fixpoint words (n : nat) (bs : list Z) : list Z :=
  match n with
  | O => []
  | S n' => le_word (firstn 4 bs) :: words n' (skipn 4 bs)
  end.

Fixpoint blocks (n : nat) (st : digest) (bs : list Z) : digest :=
  match n with
  | O => st
  | S n' => blocks n' (compress st (words 16 (firstn 64 bs))) (skipn 64 bs)
  end.

Definition hash (msg : list Z) : digest :=
  let p := pad msg in blocks (length p / 64) init p.

Definition hex_digit (n : Z) : ascii :=
  if n <? 10 then ascii_of_N (Z.to_N (48 + n)) else ascii_of_N (Z.to_N (87 + n)).

Fixpoint hex_bytes (bs : list Z) : string :=
  match bs with
  | [] => EmptyString
  | b :: r => String (hex_digit (b / 16)) (String (hex_digit (b mod 16)) (hex_bytes r))
  end.

Definition digest_bytes (d : digest) : list Z :=
  (le_bytes 4 (dA d) ++ le_bytes 4 (dB d) ++ le_bytes 4 (dC d) ++ le_bytes 4 (dD d))%list.

(** [crypto.createHash('md5').update(content).digest('hex')] *)
Definition hexdigest (content : string) : string :=
  hex_bytes (digest_bytes (hash (JsString.utf8 content))).

End MD5.




(* ===================================================================== *)
(** ** Data model *)
(* ===================================================================== *)

(** A row of the sheet, keyed by header. *)
Definition RowData := JsObject.t string.

(** The caller's metadata object; [rfpId] is one of its properties. *)
Definition Metadata := JsObject.t string.

(** The records [processExcelRFP] pushes on [processedData]. *)
Record Item := {
  category : string;
  sheetName : string;
  text : string;
  originalData : RowData
}.

(** An embedding: the numbers are never inspected by the code. *)
Definition Vector := list Q.

Record VectorRecord := {
  id : string;
  values : option Vector;
  metadata : JsObject.t string
}.

Record Stats := {
  totalItems : nat;
  processed : nat;
  skipped : nat;
  errors : nat
}.

Record IngestResult := {
  success : bool;
  stats : Stats;
  sheets : list string;
  ingest_mockMode : option bool
}.

(* ===================================================================== *)
(** ** The stable identifier *)
(* ===================================================================== *)

(** The string that is hashed:
    [`${metadata.rfpId}-${item.sheetName}-${item.category}-${item.text.slice(0, 50)}`] *)
Definition stableContent (md : Metadata) (item : Item) : string :=
  JsString.template (JsObject.get md "rfpId") ++ "-" ++
  sheetName item ++ "-" ++
  category item ++ "-" ++
  JsString.slice0 50 (text item).

Definition generateStableId (md : Metadata) (item : Item) : string :=
  MD5.hexdigest (stableContent md item).

(** The four components the identifier is meant to depend on. *)
Definition idComponents (md : Metadata) (item : Item)
  : option string * string * string * string :=
  (JsObject.get md "rfpId", sheetName item, category item,
   JsString.slice0 50 (text item)).

(* ===================================================================== *)
(** ** Thrown values and outcomes *)
(* ===================================================================== *)

Record JsError := { message : string }.

Inductive JsResult (A : Type) : Type :=
| Ok (a : A)
| Throw (e : JsError).
Arguments Ok {A} a.
Arguments Throw {A} e.

Definition TypeError (what : string) : JsError :=
  {| message := "Cannot read properties of undefined (reading '" ++ what ++ "')" |}.

(* ===================================================================== *)
(** ** The workbook, as the spreadsheet reader hands it over *)
(* ===================================================================== *)

(** The value of a cell: a string, or something else (a number, a date, a
    formula, rich text), of which only the truthiness matters here. *)
Inductive CellValue : Type :=
| VString (s : string)
| VOther (truthy : bool).

(** Only the non-empty cells of a row are visited by [eachCell]; [cell_text]
    is the text the reader renders for the cell. *)
Record Cell := { colNumber : nat; cell_value : CellValue; cell_text : string }.
Record Row := { rowNumber : nat; cells : list Cell }.
Record Worksheet := { ws_name : string; ws_rows : list Row }.
Definition Workbook := list Worksheet.

(** A string cell, whose text is its value. *)
Definition textCell (col : nat) (s : string) : Cell :=
  {| colNumber := col; cell_value := VString s; cell_text := s |}.

Module Extractor.

(** [worksheet.getRow(1)] *)
Definition getRow1 (ws : Worksheet) : list Cell :=
  match find (fun r => Nat.eqb (rowNumber r) 1) (ws_rows ws) with
  | Some r => cells r
  | None => []
  end.

(** [header ? header.trim() : ''], which throws for a truthy value that is
    not a string. *)
Definition trimHeader (v : CellValue) : JsResult string :=
  match v with
  | VString s => Ok (if JsString.truthy s then JsString.trim s else "")
  | VOther true => Throw {| message := "header.trim is not a function" |}
  | VOther false => Ok ""
  end.

(** [worksheet.getRow(1).values.slice(1).map(...)]: the header of each
    column that has a cell in row 1. *)
Fixpoint trimHeaders (row1 : list Cell) : JsResult (list (nat * string)) :=
  match row1 with
  | [] => Ok []
  | c :: rest =>
      match trimHeader (cell_value c) with
      | Throw e => Throw e
      | Ok h =>
          match trimHeaders rest with
          | Throw e => Throw e
          | Ok hs => Ok ((colNumber c, h) :: hs)
          end
      end
  end.

(** [headers[colNumber - 1]]; a column without header counts as ['']. *)
Definition header (headers : list (nat * string)) (col : nat) : string :=
  match find (fun h => Nat.eqb (fst h) col) headers with
  | Some h => snd h
  | None => ""
  end.

(** [rowData[header] = value] on the object literal [{}]: the assignment
    adds or replaces an own property, except under the name [__proto__],
    where it reaches the setter of [Object.prototype], which ignores a
    string: the object is left as it was. *)
Definition assignField (rowData : RowData) (h : string) (value : string) : RowData :=
  if String.eqb h "__proto__" then rowData else JsObject.set rowData h value.

(** The body of [row.eachCell]. *)
Definition addCell (headers : list (nat * string)) (rowData : RowData) (c : Cell)
  : RowData :=
  let h := header headers (colNumber c) in
  if JsString.truthy h
  then assignField rowData h (JsString.trim (cell_text c))
  else rowData.

Definition rowDataOf (headers : list (nat * string)) (r : Row) : RowData :=
  fold_left (addCell headers) (cells r) [].

(** The body of [worksheet.eachRow]: the rows pushed on [jsonData]. *)
Fixpoint jsonData (headers : list (nat * string)) (rows : list Row) : list RowData :=
  match rows with
  | [] => []
  | r :: rest =>
      if Nat.ltb 1 (rowNumber r) then
        let rowData := rowDataOf headers r in
        match JsObject.keys rowData with
        | [] => jsonData headers rest
        | _ => rowData :: jsonData headers rest
        end
      else jsonData headers rest
  end.

(** The key lodash computes for [_.groupBy(rows, 'Category')]: the value
    of the property, turned into a property name. *)
Definition groupKey (item : RowData) : string :=
  JsString.template (JsObject.get item "Category").

Definition addToGroup (g : JsObject.t (list RowData)) (item : RowData)
  : JsObject.t (list RowData) :=
  let k := groupKey item in
  match JsObject.get g k with
  | Some items => JsObject.set g k (items ++ [item])%list
  | None => JsObject.set g k [item]
  end.

Definition groupBy (rows : list RowData) : JsObject.t (list RowData) :=
  fold_left addToGroup rows [].

Definition combinedText (item : RowData) : string :=
  JsString.join JsString.newline
    (map (fun kv => fst kv ++ ": " ++ snd kv)
       (filter (fun kv => JsString.truthy (snd kv)) (JsObject.entries item))).

(** [category || 'uncategorized'] *)
Definition categoryOrDefault (category : string) : string :=
  if JsString.truthy category then category else "uncategorized".

Definition itemsOfGroup (sheet : string) (category : string)
  (items : list RowData) : list Item :=
  flat_map
    (fun item =>
       let txt := combinedText item in
       if JsString.truthy (JsString.trim txt)
       then [ {| category := categoryOrDefault category;
                 sheetName := sheet;
                 text := txt;
                 originalData := item |} ]
       else [])
    items.

(** The records of one worksheet: the body of the loop over the sheets. *)
Definition sheetItems (ws : Worksheet) : JsResult (list Item) :=
  match trimHeaders (getRow1 ws) with
  | Throw e => Throw e
  | Ok headers =>
      Ok (flat_map (fun g => itemsOfGroup (ws_name ws) (fst g) (snd g))
            (JsObject.entries (groupBy (jsonData headers (ws_rows ws)))))
  end.

(** [processedData] after the loop over the worksheets. *)
Fixpoint processedData (wb : Workbook) : JsResult (list Item) :=
  match wb with
  | [] => Ok []
  | ws :: rest =>
      match sheetItems ws with
      | Throw e => Throw e
      | Ok items =>
          match processedData rest with
          | Throw e => Throw e
          | Ok more => Ok (items ++ more)%list
          end
      end
  end.

Definition sheetNames (wb : Workbook) : list string := map ws_name wb.

End Extractor.

(** A sheet with the headers Question and Answer and no Category column. *)
Definition sheet_without_category : Worksheet :=
  {| ws_name := "Security";
     ws_rows :=
       [ {| rowNumber := 1;
            cells := [ textCell 1 "Question";
                       textCell 2 "Answer" ] |};
         {| rowNumber := 2;
            cells := [ textCell 1 "Is data encrypted?";
                       textCell 2 " Yes, AES-256 " ] |} ] |}.

(** A sheet whose Category cell is blank on one row and filled on another. *)
Definition sheet_with_category : Worksheet :=
  {| ws_name := "Pricing";
     ws_rows :=
       [ {| rowNumber := 1;
            cells := [ textCell 1 "Category";
                       textCell 2 "Question" ] |};
         {| rowNumber := 2;
            cells := [ textCell 1 "Licensing";
                       textCell 2 "Per seat?" ] |};
         {| rowNumber := 3;
            cells := [ textCell 1 "   ";
                       textCell 2 "Discounts?" ] |} ] |}.

(* ===================================================================== *)
(** ** What the remote capabilities exchange *)
(* ===================================================================== *)

(** A JSON value, as [JSON.parse] returns it. *)
#[warnings="-register-all"]
Inductive Json : Type :=
| JNull
| JBool (b : bool)
| JNumber (repr : string)
| JString (s : string)
| JArray (items : list Json)
| JObject (props : list (string * Json)).

Inductive FilterValue : Type :=
| FEq (v : string)            (* category: 'x' *)
| FExists (b : bool).         (* category: { $exists: true } *)

Definition FilterConditions := JsObject.t FilterValue.

Record ChatMessage := { role : string; content : string }.

(** The answer of a point fetch: [{ vectors: { id: record } }]. *)
Record FetchResponse := { vectors : option (JsObject.t VectorRecord) }.

(** A metadata value of a stored vector: missing, a string, or something
    else (number, boolean, list) given with its string conversion. *)
Inductive MetaValue : Type :=
| MUndefined
| MString (s : string)
| MOther (repr : string).

Record MatchMetadata := {
  md_text : option string;
  md_originalData : MetaValue;
  md_category : option string;
  md_sheetName : option string
}.

Record Match := { match_metadata : option MatchMetadata; score : Q }.

Record QueryResponse := { matches : option (list Match) }.

Record SourceContext := {
  ctx_text : option string;
  ctx_originalData : Json;
  ctx_category : option string;
  ctx_sheetName : option string;
  similarity : Q
}.

Record QueryResult := {
  answer : string;
  sources : list SourceContext;
  mockMode : option bool;
  error : option string
}.

(** The answer of the connectivity probe: [response.ok], and whether
    [response.json()] can be read. *)
Record ProbeResponse := { probe_ok : bool; probe_json : JsResult unit }.

(** Every call that leaves the process, and every sleep, in the order in
    which they happen. *)
Inductive Event : Type :=
| EEmbed (input : string)
| EChat (messages : list ChatMessage)
| EApiFetch (ids : list string)
| EApiUpsert (records : list VectorRecord)
| EApiQuery (vector : Vector) (topK : Z) (filter : FilterConditions)
| ESdkFetch (ids : list string)
| ESdkUpsert (records : list VectorRecord)
| ESdkQuery (vector : Vector) (topK : Z) (filter : option FilterConditions)
| EProbe
| ECall (label : string)
| ESleep (ms : Z).

(** The collaborators the module is written against. [W] is the state of
    the outside world; a call may answer or throw, and may change it. *)
Class Collaborators (W : Type) : Type := {
  xlsx_load : string -> JsResult Workbook;
  JSON_parse : string -> JsResult Json;
  embeddings_create : string -> W -> JsResult (list (option Vector)) * W;
  chat_completions_create : list ChatMessage -> W -> JsResult (list string) * W;
  pineconeApi_fetch : list string -> W -> JsResult FetchResponse * W;
  pineconeApi_upsert : list VectorRecord -> W -> JsResult unit * W;
  pineconeApi_query :
    Vector -> Z -> FilterConditions -> W -> JsResult QueryResponse * W;
  pineconeIndex_fetch : list string -> W -> JsResult FetchResponse * W;
  pineconeIndex_upsert : list VectorRecord -> W -> JsResult unit * W;
  pineconeIndex_query :
    Vector -> Z -> option FilterConditions -> W -> JsResult QueryResponse * W;
  describe_index_stats : W -> JsResult ProbeResponse * W
}.

(* ===================================================================== *)
(** ** Asynchronous code: state, exceptions and the trace *)
(* ===================================================================== *)

Record St (W : Type) : Type := { world : W; trace : list Event }.

Definition M (W A : Type) : Type := St W -> JsResult A * St W.

Section Effects.
Context {W : Type}.

Definition ret {A} (a : A) : M W A := fun s => (Ok a, s).

Definition bind {A B} (c : M W A) (k : A -> M W B) : M W B :=
  fun s =>
    match c s with
    | (Ok a, s') => k a s'
    | (Throw e, s') => (Throw e, s')
    end.

Definition throw {A} (e : JsError) : M W A := fun s => (Throw e, s).

(** [try { body } catch (error) { handler }] *)
Definition try_catch {A} (body : M W A) (handler : JsError -> M W A) : M W A :=
  fun s =>
    match body s with
    | (Ok a, s') => (Ok a, s')
    | (Throw e, s') => handler e s'
    end.

Definition emit (ev : Event) : M W unit :=
  fun s => (Ok tt, {| world := world s; trace := (trace s ++ [ev])%list |}).

(** A call to a collaborator: it is recorded, then answered. *)
Definition remote {A} (ev : Event) (op : W -> JsResult A * W) : M W A :=
  fun s =>
    let '(r, w') := op (world s) in
    (r, {| world := w'; trace := (trace s ++ [ev])%list |}).

(** [await new Promise(resolve => setTimeout(resolve, ms))] *)
Definition sleep (ms : Z) : M W unit := emit (ESleep ms).

End Effects.

Notation "x <- c ;; k" := (bind c (fun x => k))
  (at level 61, c at next level, right associativity).

Fixpoint total_sleep (tr : list Event) : Z :=
  match tr with
  | [] => 0
  | ESleep ms :: r => ms + total_sleep r
  | _ :: r => total_sleep r
  end%Z.

Definition is_sleep (ev : Event) : bool :=
  match ev with ESleep _ => true | _ => false end.

(** The calls in a trace, the sleeps left out. *)
Definition calls (tr : list Event) : list Event :=
  filter (fun ev => negb (is_sleep ev)) tr.

(* ===================================================================== *)
(** ** The retry executor *)
(* ===================================================================== *)

Section Retry.
Context {W A : Type}.

(** The [for] loop of [withRetry] from index [i] on; [fuel] bounds the
    iterations left. [None] is the [undefined] the function returns when
    the loop ends without a [return]. *)
Fixpoint withRetry_loop (fuel : nat) (operation : M W A)
  (maxRetries i delay : Z) : M W (option A) :=
  match fuel with
  | O => ret None
  | S fuel' =>
      if (i <? maxRetries)%Z then
        try_catch
          (a <- operation ;; ret (Some a))
          (fun error =>
             if (i =? maxRetries - 1)%Z then throw error
             else
               _ <- sleep delay ;;
               withRetry_loop fuel' operation maxRetries (i + 1) (delay * 2))
      else ret None
  end.

Definition withRetry (operation : M W A) (maxRetries delay : Z)
  : M W (option A) :=
  withRetry_loop (Z.to_nat maxRetries) operation maxRetries 0 delay.

(** [withRetry(operation)], with the default parameters. *)
Definition withRetry_default (operation : M W A) : M W (option A) :=
  withRetry operation 3 1000.

End Retry.

(* ===================================================================== *)
(** ** Gateways *)
(* ===================================================================== *)

Section Gateways.
Context {W : Type} {C : Collaborators W}.

(** [getEmbedding]: [response.data[0].embedding] *)
Definition getEmbedding (input : string) : M W (option Vector) :=
  data <- remote (EEmbed input) (embeddings_create input) ;;
  match data with
  | [] => throw (TypeError "embedding")
  | first :: _ => ret first
  end.

Definition api_fetch (ids : list string) : M W FetchResponse :=
  remote (EApiFetch ids) (pineconeApi_fetch ids).

Definition api_upsert (records : list VectorRecord) : M W unit :=
  remote (EApiUpsert records) (pineconeApi_upsert records).

Definition api_query (v : Vector) (topK : Z) (f : FilterConditions)
  : M W QueryResponse :=
  remote (EApiQuery v topK f) (pineconeApi_query v topK f).

Definition sdk_fetch (ids : list string) : M W FetchResponse :=
  remote (ESdkFetch ids) (pineconeIndex_fetch ids).

Definition sdk_upsert (records : list VectorRecord) : M W unit :=
  remote (ESdkUpsert records) (pineconeIndex_upsert records).

Definition sdk_query (v : Vector) (topK : Z) (f : option FilterConditions)
  : M W QueryResponse :=
  remote (ESdkQuery v topK f) (pineconeIndex_query v topK f).

Definition chat (messages : list ChatMessage) : M W (list string) :=
  remote (EChat messages) (chat_completions_create messages).

(** [pineconeApi.testConnectivity] *)
Definition testConnectivity : M W bool :=
  try_catch
    (response <- remote EProbe describe_index_stats ;;
     if probe_ok response then
       match probe_json response with
       | Ok _ => ret true
       | Throw e => throw e
       end
     else ret false)
    (fun _ => ret false).

(** The start-up block: the value [MOCK_MODE] has once the probe is over. *)
Definition startup : M W bool :=
  try_catch
    (isConnected <- testConnectivity ;;
     if negb isConnected then ret true else ret false)
    (fun _ => ret true).

End Gateways.

(* ===================================================================== *)
(** ** The upload loop of [processExcelRFP] *)
(* ===================================================================== *)

Module Json_stringify.

Definition hex4 (n : N) : string :=
  "00" ++ String (MD5.hex_digit (Z.of_N (n / 16))) (String (MD5.hex_digit (Z.of_N (n mod 16))) "").

Definition escape_char (c : ascii) : string :=
  let n := N_of_ascii c in
  if (n =? 34)%N then "\" ++ JsString.dquote
  else if (n =? 92)%N then "\\"
  else if (n =? 8)%N then "\b"
  else if (n =? 12)%N then "\f"
  else if (n =? 10)%N then "\n"
  else if (n =? 13)%N then "\r"
  else if (n =? 9)%N then "\t"
  else if (n <? 32)%N then "\u" ++ hex4 n
  else String c "".

Fixpoint escape (s : string) : string :=
  match s with
  | EmptyString => ""
  | String c t => escape_char c ++ escape t
  end.

Definition quote (s : string) : string :=
  JsString.dquote ++ escape s ++ JsString.dquote.

(** [JSON.stringify(row)] for a row of strings. *)
Definition row (o : RowData) : string :=
  "{" ++ JsString.join ","
           (map (fun kv => quote (fst kv) ++ ":" ++ quote (snd kv))
              (JsObject.entries o)) ++ "}".

End Json_stringify.

(** [_.chunk(array, size)] *)
Fixpoint chunk_from {A} (size : nat) (cur : list A) (room : nat) (l : list A)
  : list (list A) :=
  match l with
  | [] => match cur with [] => [] | _ => [cur] end
  | x :: r =>
      match room with
      | O => cur :: chunk_from size [x] (size - 1) r
      | S room' => chunk_from size (cur ++ [x])%list room' r
      end
  end.

Definition chunk {A} (size : nat) (l : list A) : list (list A) :=
  match size with
  | O => []
  | S _ => chunk_from size [] size l
  end.

Definition BATCH_SIZE : nat := 10.

(** The three counters of a run. *)
Record Counters := { processedRows : nat; skippedRows : nat; errorRows : nat }.

Definition noRows : Counters :=
  {| processedRows := 0; skippedRows := 0; errorRows := 0 |}.

Section Upload.
Context {W : Type} {C : Collaborators W}.

(** The gateway the loop goes through: the SDK index or the direct API. *)
Variable fetchVectors : list string -> M W FetchResponse.
Variable upsertVectors : list VectorRecord -> M W unit.

Fixpoint foldM {A B} (f : B -> A -> M W B) (l : list A) (b : B) : M W B :=
  match l with
  | [] => ret b
  | a :: r => b' <- f b a ;; foldM f r b'
  end.

(** The inner [try]: the vectors found under the id, [{}] when the fetch
    check fails. *)
Definition existingVector (vectorId : string) : M W (JsObject.t VectorRecord) :=
  try_catch
    (fetchResponse <- withRetry_default (fetchVectors [vectorId]) ;;
     match fetchResponse with
     | Some r => ret (match vectors r with Some v => v | None => [] end)
     | None => throw (TypeError "vectors")
     end)
    (fun _ => ret []).

Definition vectorMetadata (md : Metadata) (item : Item) : JsObject.t string :=
  let spread := JsObject.entries md in
  JsObject.set
    (JsObject.set
       (JsObject.set
          (JsObject.set spread "category" (category item))
          "sheetName" (sheetName item))
       "text" (text item))
    "originalData" (Json_stringify.row (originalData item)).

Definition flatten {A} (v : option (option A)) : option A :=
  match v with Some x => x | None => None end.

(** The body of [for (const item of batch)]. *)
Definition prepareItem (md : Metadata)
  (acc : list VectorRecord * Counters) (item : Item)
  : M W (list VectorRecord * Counters) :=
  let '(batchOperations, n) := acc in
  try_catch
    (let vectorId := generateStableId md item in
     existing <- existingVector vectorId ;;
     match JsObject.get existing vectorId with
     | None =>
         embedding <- withRetry_default (getEmbedding (text item)) ;;
         ret ((batchOperations ++
                 [ {| id := vectorId;
                      values := flatten embedding;
                      metadata := vectorMetadata md item |} ])%list,
              {| processedRows := S (processedRows n);
                 skippedRows := skippedRows n;
                 errorRows := errorRows n |})
     | Some _ =>
         ret (batchOperations,
              {| processedRows := processedRows n;
                 skippedRows := S (skippedRows n);
                 errorRows := errorRows n |})
     end)
    (fun _ =>
       ret (batchOperations,
            {| processedRows := processedRows n;
               skippedRows := skippedRows n;
               errorRows := S (errorRows n) |})).

(** The body of [for (const batch of batches)]. *)
Definition uploadBatch (md : Metadata) (n : Counters) (batch : list Item)
  : M W Counters :=
  staged <- foldM (prepareItem md) batch ([], n) ;;
  let '(batchOperations, n') := staged in
  match batchOperations with
  | [] => ret n'
  | _ =>
      try_catch
        (_ <- withRetry_default (upsertVectors batchOperations) ;; ret n')
        (fun _ =>
           ret {| processedRows := processedRows n';
                  skippedRows := skippedRows n';
                  errorRows := errorRows n' + length batchOperations |})
  end.

Definition uploadAll (md : Metadata) (data : list Item) : M W Counters :=
  foldM (uploadBatch md) (chunk BATCH_SIZE data) noRows.

End Upload.

Definition statsOf (data : list Item) (n : Counters) : Stats :=
  {| totalItems := length data;
     processed := processedRows n;
     skipped := skippedRows n;
     errors := errorRows n |}.

(* ===================================================================== *)
(** ** What both revisions of [queryRFPData] share *)
(* ===================================================================== *)

Definition GREETING_ANSWER : string :=
  "Hello! I'm your RFP Assistant. I can help you find information in your RFP documents. How can I assist you today?".

Definition NO_MATCH_ANSWER : string :=
  "I couldn't find any relevant information for your question in the RFP documents. Could you try rephrasing your question or ask about a different aspect of the RFP?".

Definition FALLBACK_ANSWER : string :=
  "I'm here to help with your RFP questions, but I'm having trouble connecting to my database right now. Could you please try again in a moment?".

Definition greetingResult : QueryResult :=
  {| answer := GREETING_ANSWER; sources := []; mockMode := None; error := None |}.

Definition noMatchResult : QueryResult :=
  {| answer := NO_MATCH_ANSWER; sources := []; mockMode := None; error := None |}.

Definition fallbackResult (e : JsError) : QueryResult :=
  {| answer := FALLBACK_ANSWER; sources := []; mockMode := None;
     error := Some (message e) |}.

(** The filter conditions built from the caller's [filters] object. *)
Definition filterConditionsOf (filters : JsObject.t string) : FilterConditions :=
  match JsObject.keys filters with
  | [] => [("category", FExists true)]
  | _ =>
      let c0 : FilterConditions := [] in
      let c1 :=
        match JsObject.get filters "category" with
        | Some v => if JsString.truthy v then JsObject.set c0 "category" (FEq v) else c0
        | None => c0
        end in
      match JsObject.get filters "sheetName" with
      | Some v => if JsString.truthy v then JsObject.set c1 "sheetName" (FEq v) else c1
      | None => c1
      end
  end.

(** The user message: the contexts in ranked order, then the question. *)
Definition userPrompt (contexts : list SourceContext) (question : string) : string :=
  "Context from RFP data:" ++ JsString.newline ++
  JsString.join (JsString.newline ++ JsString.newline)
    (map (fun c =>
            "[Sheet: " ++ JsString.template (ctx_sheetName c) ++
            ", Category: " ++ JsString.template (ctx_category c) ++ "]" ++
            JsString.newline ++ JsString.template (ctx_text c))
       contexts) ++
  JsString.newline ++ JsString.newline ++ "Question: " ++ question.

Section QueryShared.
Context {W : Type} {C : Collaborators W}.

Fixpoint mapM {A B} (f : A -> M W B) (l : list A) : M W (list B) :=
  match l with
  | [] => ret []
  | a :: r => b <- f a ;; bs <- mapM f r ;; ret (b :: bs)
  end.

(** [withRetry(() => getEmbedding(question))], then the read of
    [queryEmbedding.length]. *)
Definition questionEmbedding (question : string) : M W Vector :=
  queryEmbedding <- withRetry_default (getEmbedding question) ;;
  match flatten queryEmbedding with
  | Some v => ret v
  | None => throw (TypeError "length")
  end.

(** The completion call and the read of [choices[0].message.content]. *)
Definition complete (systemPrompt : string) (contexts : list SourceContext)
  (question : string) : M W QueryResult :=
  completion <-
    withRetry_default
      (chat [ {| role := "system"; content := systemPrompt |};
              {| role := "user"; content := userPrompt contexts question |} ]) ;;
  match completion with
  | None => throw (TypeError "choices")
  | Some [] => throw (TypeError "message")
  | Some (first :: _) =>
      ret {| answer := first; sources := contexts;
             mockMode := None; error := None |}
  end.

End QueryShared.

(* ===================================================================== *)
(** ** The revision with [MOCK_MODE] (direct gateway only) *)
(* ===================================================================== *)

Module Part000.

Definition SYSTEM_PROMPT : string :=
  "You are an RFP assistant specialized in analyzing historical RFP data.

For all responses:
- Be extremely concise and to the point
- Use direct language from the knowledge base whenever possible
- Only provide exactly what was asked, nothing more
- Do not offer explanations unless explicitly requested
- Format responses for quick reading and easy scanning

For general queries and greetings:
- Keep introductions minimal - identify as " ++ JsString.dquote ++ "RFP Assistant" ++ JsString.dquote ++ " only when first engaging
- Respond professionally but briefly
- Redirect to RFP topics if query is unrelated

For RFP-specific queries:
- Answer with precise information directly from the provided context
- Use the exact terminology and phrasing from the source documents
- If no clear answer exists in the knowledge base, state " ++ JsString.dquote ++ "I don't have that information" ++ JsString.dquote ++ " - do not attempt to extrapolate
- Never reference where information is coming from (no " ++ JsString.dquote ++ "according to..." ++ JsString.dquote ++ " or " ++ JsString.dquote ++ "as stated in..." ++ JsString.dquote ++ ")
- Highlight only the most critical information requested
- If multiple interpretations of a question are possible, request clarification rather than guessing

Remember: Brevity is priority. Use minimal words to convey exact information.".

Definition mockResult (question : string) : QueryResult :=
  {| answer :=
       "I'm currently operating in demo mode without database access. Your question was: "
       ++ JsString.dquote ++ question ++ JsString.dquote ++
       ". In normal operation, I would search our RFP database and provide relevant information based on the documents you've uploaded.";
     sources := [];
     mockMode := Some true;
     error := None |}.

(** The regular expression [/^(hi|hello|hey|greetings|howdy)[\s\.,!]*$/]. *)
Definition greetingWords : list string :=
  ["hi"; "hello"; "hey"; "greetings"; "howdy"].

Definition is_tail_char (c : ascii) : bool :=
  JsString.is_space c ||
  (let n := N_of_ascii c in (n =? 46) || (n =? 44) || (n =? 33))%N.

Fixpoint all_tail (s : string) : bool :=
  match s with
  | EmptyString => true
  | String c t => is_tail_char c && all_tail t
  end.

(** What is left of [s] after the prefix [p], when [s] starts with it. *)
Fixpoint after_prefix (p s : string) : option string :=
  match p, s with
  | EmptyString, _ => Some s
  | String a p', String b s' =>
      if Ascii.eqb a b then after_prefix p' s' else None
  | String _ _, EmptyString => None
  end.

Definition matchesGreeting (lowered : string) : bool :=
  existsb
    (fun w =>
       match after_prefix w lowered with
       | Some rest => all_tail rest
       | None => false
       end)
    greetingWords.

(** [question.toLowerCase().match(...)] *)
Definition isGreeting (question : string) : bool :=
  matchesGreeting (JsString.toLowerCase question).

(** The callback of [queryResponse.matches.map]. *)
Definition parsedOriginalData {W} {C : Collaborators W} (v : MetaValue) : Json :=
  match v with
  | MString s =>
      if JsString.truthy s then
        match JSON_parse s with
        | Ok j => j
        | Throw _ => JObject []
        end
      else JObject []
  | _ => JObject []
  end.

Definition orDefault (v : option string) (d : string) : string :=
  match v with
  | Some s => if JsString.truthy s then s else d
  | None => d
  end.

Section Code.
Context {W : Type} {C : Collaborators W}.

(** The module variable, as the start-up probe left it. *)
Variable MOCK_MODE : bool.

Definition processExcelRFP (buffer : string) (md : Metadata)
  : M W IngestResult :=
  try_catch
    (match xlsx_load buffer with
     | Throw e => throw e
     | Ok workbook =>
         match Extractor.processedData workbook with
         | Throw e => throw e
         | Ok data =>
             if MOCK_MODE then
               ret {| success := true;
                      stats := {| totalItems := length data;
                                  processed := length data;
                                  skipped := 0;
                                  errors := 0 |};
                      sheets := Extractor.sheetNames workbook;
                      ingest_mockMode := Some true |}
             else
               n <- uploadAll api_fetch api_upsert md data ;;
               ret {| success := true;
                      stats := statsOf data n;
                      sheets := Extractor.sheetNames workbook;
                      ingest_mockMode := None |}
         end
     end)
    (fun error => throw error).

Definition contextOf (m : Match) : M W SourceContext :=
  match match_metadata m with
  | None => throw (TypeError "text")
  | Some md =>
      ret {| ctx_text := Some (orDefault (md_text md) "");
             ctx_originalData := parsedOriginalData (md_originalData md);
             ctx_category := Some (orDefault (md_category md) "unknown");
             ctx_sheetName := Some (orDefault (md_sheetName md) "unknown");
             similarity := score m |}
  end.

(** The [try] block of [queryRFPData]. *)
Definition queryBody (question : string) (filters : JsObject.t string)
  : M W QueryResult :=
  if isGreeting question then ret greetingResult
  else
    queryEmbedding <- questionEmbedding question ;;
    let filterConditions := filterConditionsOf filters in
    if MOCK_MODE then ret (mockResult question)
    else
      queryResponse <-
        withRetry_default (api_query queryEmbedding 5 filterConditions) ;;
      match queryResponse with
      | None => throw (TypeError "matches")
      | Some r =>
          match matches r with
          | None | Some [] => ret noMatchResult
          | Some ms =>
              contexts <- mapM contextOf ms ;;
              complete SYSTEM_PROMPT contexts question
          end
      end.

Definition queryRFPData (question : string) (filters : JsObject.t string)
  : M W QueryResult :=
  try_catch (queryBody question filters)
    (fun error => ret (fallbackResult error)).

End Code.

End Part000.

(* ===================================================================== *)
(** ** The revision with the SDK client ([src/excelProcessor.js]) *)
(* ===================================================================== *)

Module ExcelProcessor.

Definition SYSTEM_PROMPT : string :=
  "You are an RFP assistant specialized in analyzing historical RFP data

For general queries and greetings:
- Respond in a friendly, professional manner
- Introduce yourself as the RFP Assistant
- Be precise with the answers unless asked you to explain.

For RFP-specific queries:
- Provide precise answers based on the provided context
- Include specific details from the data when relevant but not quote from where you are finding the information
- Highlight key information and requirements
- Always maintain a professional yet friendly tone
- If the question is not RFP-related, engage appropriately while gently guiding the conversation toward RFP topics".

(** The test both greeting branches use:
    [includes('hi') || includes('hello') || includes('hey')] on the
    lower-cased question. *)
Definition looksLikeGreeting (question : string) : bool :=
  let q := JsString.toLowerCase question in
  JsString.includes "hi" q || JsString.includes "hello" q ||
  JsString.includes "hey" q.

(** The argument [JSON.parse] receives, converted to a string. *)
Definition parseArgument (v : MetaValue) : string :=
  match v with
  | MUndefined => "undefined"
  | MString s => s
  | MOther repr => repr
  end.

Section Code.
Context {W : Type} {C : Collaborators W}.

(** Whether [pineconeClient.index(...)] succeeded when the module was
    loaded: [false] stands for [pineconeIndex === null]. *)
Variable pineconeIndex : bool.

Definition fetchVectors (ids : list string) : M W FetchResponse :=
  if pineconeIndex then sdk_fetch ids else api_fetch ids.

Definition upsertVectors (records : list VectorRecord) : M W unit :=
  if pineconeIndex then sdk_upsert records else api_upsert records.

Definition processExcelRFP (buffer : string) (md : Metadata)
  : M W IngestResult :=
  try_catch
    (match xlsx_load buffer with
     | Throw e => throw e
     | Ok workbook =>
         match Extractor.processedData workbook with
         | Throw e => throw e
         | Ok data =>
             n <- uploadAll fetchVectors upsertVectors md data ;;
             ret {| success := true;
                    stats := statsOf data n;
                    sheets := Extractor.sheetNames workbook;
                    ingest_mockMode := None |}
         end
     end)
    (fun error => throw error).

Definition contextOf (m : Match) : M W SourceContext :=
  match match_metadata m with
  | None => throw (TypeError "text")
  | Some md =>
      match JSON_parse (parseArgument (md_originalData md)) with
      | Throw e => throw e
      | Ok j =>
          ret {| ctx_text := md_text md;
                 ctx_originalData := j;
                 ctx_category := md_category md;
                 ctx_sheetName := md_sheetName md;
                 similarity := score m |}
      end
  end.

(** The SDK query, with the direct gateway as its fallback. *)
Definition queryStore (queryEmbedding : Vector)
  (filterConditions : FilterConditions) : M W (option QueryResponse) :=
  try_catch
    (if pineconeIndex then
       withRetry_default
         (sdk_query queryEmbedding 5
            (match JsObject.keys filterConditions with
             | [] => None
             | _ => Some filterConditions
             end))
     else throw {| message := "SDK not initialized, using direct API" |})
    (fun _ =>
       withRetry_default (api_query queryEmbedding 5 filterConditions)).

Definition queryBody (question : string) (filters : JsObject.t string)
  : M W QueryResult :=
  queryEmbedding <- questionEmbedding question ;;
  let filterConditions := filterConditionsOf filters in
  queryResponse <- queryStore queryEmbedding filterConditions ;;
  match queryResponse with
  | None => throw (TypeError "matches")
  | Some r =>
      match matches r with
      | None | Some [] =>
          if looksLikeGreeting question then ret greetingResult
          else ret noMatchResult
      | Some ms =>
          contexts <- mapM contextOf ms ;;
          complete SYSTEM_PROMPT contexts question
      end
  end.

Definition queryRFPData (question : string) (filters : JsObject.t string)
  : M W QueryResult :=
  try_catch (queryBody question filters)
    (fun error =>
       if looksLikeGreeting question then ret greetingResult
       else ret (fallbackResult error)).

End Code.

End ExcelProcessor.

(* ===================================================================== *)
(** ** A concrete world to run the code in *)
(* ===================================================================== *)

Module Harness.

(** A reader for the documents [Json_stringify.row] writes: one object
    whose values are strings. Any other text is refused, which is what
    [JSON.parse] does with the texts used below. *)
Module FlatJson.

Fixpoint skip_ws (s : string) : string :=
  match s with
  | String c t =>
      let n := N_of_ascii c in
      if ((n =? 32) || (n =? 9) || (n =? 10) || (n =? 13))%N then skip_ws t else s
  | EmptyString => s
  end.

(** The characters of a string literal after its opening quote. *)
Fixpoint literal (s : string) : option (string * string) :=
  match s with
  | EmptyString => None
  | String c t =>
      let n := N_of_ascii c in
      if (n =? 34)%N then Some ("", t)
      else if (n <? 32)%N then None
      else if (n =? 92)%N then
        match t with
        | String e t' =>
            let m := N_of_ascii e in
            let plain (x : N) :=
              match literal t' with
              | Some (v, rest) => Some (String (ascii_of_N x) v, rest)
              | None => None
              end in
            if (m =? 34)%N then plain 34%N
            else if (m =? 92)%N then plain 92%N
            else if (m =? 47)%N then plain 47%N
            else if (m =? 98)%N then plain 8%N
            else if (m =? 102)%N then plain 12%N
            else if (m =? 110)%N then plain 10%N
            else if (m =? 114)%N then plain 13%N
            else if (m =? 116)%N then plain 9%N
            else None
        | EmptyString => None
        end
      else
        match literal t with
        | Some (v, rest) => Some (String c v, rest)
        | None => None
        end
  end.

Definition quoted (s : string) : option (string * string) :=
  match s with
  | String c t => if (N_of_ascii c =? 34)%N then literal t else None
  | EmptyString => None
  end.

Definition expect (n : N) (s : string) : option string :=
  match s with
  | String c t => if (N_of_ascii c =? n)%N then Some t else None
  | EmptyString => None
  end.

(** The members after the opening brace; [fuel] bounds their number. *)
Fixpoint members (fuel : nat) (s : string) : option (list (string * Json)) :=
  match fuel with
  | O => None
  | S fuel' =>
      match quoted (skip_ws s) with
      | None => None
      | Some (k, r1) =>
          match expect 58 (skip_ws r1) with
          | None => None
          | Some r2 =>
              match quoted (skip_ws r2) with
              | None => None
              | Some (v, r3) =>
                  match skip_ws r3 with
                  | String c r4 =>
                      if (N_of_ascii c =? 44)%N then
                        match members fuel' r4 with
                        | Some ms => Some ((k, JString v) :: ms)
                        | None => None
                        end
                      else if (N_of_ascii c =? 125)%N then
                        match skip_ws r4 with
                        | EmptyString => Some [(k, JString v)]
                        | _ => None
                        end
                      else None
                  | EmptyString => None
                  end
              end
          end
      end
  end.

Definition syntaxError : JsError :=
  {| message := "Unexpected token in JSON" |}.

Definition parse (s : string) : JsResult Json :=
  match expect 123 (skip_ws s) with
  | None => Throw syntaxError
  | Some r =>
      match skip_ws r with
      | String c r' =>
          if (N_of_ascii c =? 125)%N then
            match skip_ws r' with
            | EmptyString => Ok (JObject [])
            | _ => Throw syntaxError
            end
          else
            match members (String.length s) r with
            | Some ms => Ok (JObject ms)
            | None => Throw syntaxError
            end
      | EmptyString => Throw syntaxError
      end
  end.

End FlatJson.

(** The index holds the records upserted so far; the embedding, query and
    completion services answer from a script, and with a default answer
    once the script is used up. *)
Record World := {
  store : list VectorRecord;
  embed_script : list (JsResult (list (option Vector)));
  query_script : list (JsResult QueryResponse);
  chat_script : list (JsResult (list string));
  probe : JsResult ProbeResponse
}.

Definition pop {A} (script : list (JsResult A)) (default : A)
  : JsResult A * list (JsResult A) :=
  match script with
  | [] => (Ok default, [])
  | r :: rest => (r, rest)
  end.

Definition embed (input : string) (w : World) :=
  let '(r, rest) := pop (embed_script w) [Some [(1 # 2)%Q]] in
  (r, {| store := store w; embed_script := rest;
         query_script := query_script w; chat_script := chat_script w;
         probe := probe w |}).

Definition complete (messages : list ChatMessage) (w : World) :=
  let '(r, rest) := pop (chat_script w) ["It is covered in section 4."] in
  (r, {| store := store w; embed_script := embed_script w;
         query_script := query_script w; chat_script := rest;
         probe := probe w |}).

Definition query (w : World) :=
  let '(r, rest) := pop (query_script w) {| matches := Some [] |} in
  (r, {| store := store w; embed_script := embed_script w;
         query_script := rest; chat_script := chat_script w;
         probe := probe w |}).

Fixpoint lookup (vid : string) (records : list VectorRecord) : option VectorRecord :=
  match records with
  | [] => None
  | r :: rest => if String.eqb (id r) vid then Some r else lookup vid rest
  end.

Fixpoint fetched (ids : list string) (records : list VectorRecord)
  : JsObject.t VectorRecord :=
  match ids with
  | [] => []
  | i :: rest =>
      match lookup i records with
      | Some r => (i, r) :: fetched rest records
      | None => fetched rest records
      end
  end.

Definition fetch (ids : list string) (w : World) : JsResult FetchResponse * World :=
  (Ok {| vectors := Some (fetched ids (store w)) |}, w).

Definition upsert (records : list VectorRecord) (w : World) : JsResult unit * World :=
  (Ok tt, {| store := (records ++ store w)%list; embed_script := embed_script w;
             query_script := query_script w; chat_script := chat_script w;
             probe := probe w |}).

(** The files the reader knows; any other buffer is not a workbook. *)
Definition load (files : list (string * Workbook)) (buffer : string)
  : JsResult Workbook :=
  match JsObject.get files buffer with
  | Some wb => Ok wb
  | None => Throw {| message := "Can't find end of central directory : is this a zip file ?" |}
  end.

Definition collaborators (files : list (string * Workbook)) : Collaborators World :=
  {| xlsx_load := load files;
     JSON_parse := FlatJson.parse;
     embeddings_create := embed;
     chat_completions_create := complete;
     pineconeApi_fetch := fetch;
     pineconeApi_upsert := upsert;
     pineconeApi_query := fun _ _ _ => query;
     pineconeIndex_fetch := fetch;
     pineconeIndex_upsert := upsert;
     pineconeIndex_query := fun _ _ _ => query;
     describe_index_stats := fun w => (probe w, w) |}.

Definition emptyWorld : World :=
  {| store := []; embed_script := []; query_script := []; chat_script := [];
     probe := Ok {| probe_ok := true; probe_json := Ok tt |} |}.

Definition start (w : World) : St World := {| world := w; trace := [] |}.

End Harness.



(* ===================================================================== *)
(** ** Vocabulary of the statements *)
(* ===================================================================== *)

Section RetryVocabulary.
Context {W A : Type}.

(** [failures op n w]: the operation, invoked [n] times in a row from the
    world [w], throws every time; the last error and the world it leaves. *)
Fixpoint failures (op : W -> JsResult A * W) (n : nat) (w : W)
  : option (JsError * W) :=
  match n with
  | O => None
  | S n' =>
      match op w with
      | (Throw e, w') =>
          match n' with
          | O => Some (e, w')
          | S _ => failures op n' w'
          end
      | (Ok _, _) => None
      end
  end.

End RetryVocabulary.

(** The events of [n] attempts with the sleeps between them. *)
Fixpoint attempts_trace (label : string) (n : nat) (delay : Z) : list Event :=
  match n with
  | O => []
  | S n' =>
      match n' with
      | O => [ECall label]
      | S _ => ECall label :: ESleep delay :: attempts_trace label n' (delay * 2)
      end
  end.

(** An operation that throws twice and then answers with the number of
    earlier attempts; the world counts the attempts. *)
Definition flaky (w : nat) : JsResult nat * nat :=
  if Nat.ltb w 2 then (Throw {| message := "ECONNRESET" |}, S w) else (Ok w, S w).

(** An operation that throws on every attempt, numbering its errors. *)
Definition hopeless (w : nat) : JsResult nat * nat :=
  (Throw {| message := String (ascii_of_nat (48 + w)) "" |}, S w).

(** A sheet whose second header cell holds the number 2024. *)
Definition sheet_with_numeric_header : Worksheet :=
  {| ws_name := "Budget";
     ws_rows :=
       [ {| rowNumber := 1;
            cells := [ textCell 1 "Item";
                       {| colNumber := 2; cell_value := VOther true; cell_text := "2024" |} ] |};
         {| rowNumber := 2;
            cells := [ textCell 1 "Licences"; textCell 2 "1200" ] |} ] |}.

(** Two ingestion contexts whose identifier components differ and whose
    joined strings are the same. *)
Definition md_2024_Q1 : Metadata := [("rfpId", "2024-Q1")].
Definition md_2024 : Metadata := [("rfpId", "2024")].

Definition item_security : Item :=
  {| category := "Access"; sheetName := "Security";
     text := "Question: Is data encrypted?"; originalData := [] |}.

Definition item_Q1_security : Item :=
  {| category := "Access"; sheetName := "Q1-Security";
     text := "Question: Is data encrypted?"; originalData := [] |}.

(** A question that is, up to case, one of the greeting words followed by
    white space, full stops, commas and exclamation marks only. *)
Definition GreetingMessage (question : string) : Prop :=
  exists word tail,
    In word Part000.greetingWords /\
    JsString.toLowerCase question = word ++ tail /\
    Forall (fun c => Part000.is_tail_char c = true) (list_ascii_of_string tail).

(** The files of the concrete world. *)
Definition files : list (string * Workbook) :=
  [ ("security.xlsx", [sheet_without_category]);
    ("rfp.xlsx", [sheet_without_category; sheet_with_category]);
    ("budget.xlsx", [sheet_with_numeric_header]) ].

#[local] Instance harness : Collaborators Harness.World := Harness.collaborators files.

(** A world whose index cannot be reached when the process starts. *)
Definition unreachableWorld : Harness.World :=
  {| Harness.store := []; Harness.embed_script := [];
     Harness.query_script := []; Harness.chat_script := [];
     Harness.probe := Throw {| message := "connect ECONNREFUSED" |} |}.

Definition timedOut : JsError := {| message := "connect ETIMEDOUT" |}.

(** A world whose embedding service is down for the next three calls. *)
Definition embeddingDownWorld : Harness.World :=
  {| Harness.store := [];
     Harness.embed_script := [Throw timedOut; Throw timedOut; Throw timedOut];
     Harness.query_script := []; Harness.chat_script := [];
     Harness.probe := Ok {| probe_ok := true; probe_json := Ok tt |} |}.

(** A stored match whose [originalData] is not JSON, after a sound one. *)
Definition soundMatch : Match :=
  {| match_metadata :=
       Some {| md_text := Some "Question: Is data encrypted?";
               md_originalData := MString (Json_stringify.row [("Question", "Is data encrypted?")]);
               md_category := Some "Access";
               md_sheetName := Some "Security" |};
     score := (9 # 10)%Q |}.

Definition brokenMatch : Match :=
  {| match_metadata :=
       Some {| md_text := Some "Question: Uptime?";
               md_originalData := MString "not json";
               md_category := Some "SLA";
               md_sheetName := Some "Operations" |};
     score := (8 # 10)%Q |}.

Definition brokenMatchWorld : Harness.World :=
  {| Harness.store := []; Harness.embed_script := [];
     Harness.query_script := [Ok {| matches := Some [soundMatch; brokenMatch] |}];
     Harness.chat_script := [];
     Harness.probe := Ok {| probe_ok := true; probe_json := Ok tt |} |}.

Definition soundMatchWorld : Harness.World :=
  {| Harness.store := []; Harness.embed_script := [];
     Harness.query_script := [Ok {| matches := Some [soundMatch] |}];
     Harness.chat_script := [];
     Harness.probe := Ok {| probe_ok := true; probe_json := Ok tt |} |}.

Definition defaultFilter : FilterConditions := [("category", FExists true)].

(* ===================================================================== *)
(** ** A reachable index *)
(* ===================================================================== *)

(** A point fetch found a vector under the identifier. *)
Definition found (r : FetchResponse) (vid : string) : bool :=
  match vectors r with
  | Some v => match JsObject.get v vid with Some _ => true | None => false end
  | None => false
  end.

Section StoreVocabulary.
Context {W : Type}.
Variable fetch : list string -> W -> JsResult FetchResponse * W.
Variable upsert : list VectorRecord -> W -> JsResult unit * W.
Variable embed : string -> W -> JsResult (list (option Vector)) * W.

(** The identifier is visible in the world [w]: a point fetch answers and
    finds a vector under it. *)
Definition visible (w : W) (vid : string) : Prop :=
  exists r w', fetch [vid] w = (Ok r, w') /\ found r vid = true.

(** A property of the world that no call to the index or to the embedding
    service destroys. *)
Record stable (P : W -> Prop) : Prop := {
  stable_fetch : forall ids w r w', fetch ids w = (r, w') -> P w -> P w';
  stable_upsert : forall records w r w', upsert records w = (r, w') -> P w -> P w';
  stable_embed : forall input w r w', embed input w = (r, w') -> P w -> P w'
}.

(** The upserts are visible to later fetches: what is visible stays
    visible, and an upsert that succeeds makes its records visible. *)
Record UpsertsVisible : Prop := {
  visible_stable : forall vid, stable (fun w => visible w vid);
  upsert_visible :
    forall records w w' vid,
      upsert records w = (Ok tt, w') -> In vid (map id records) -> visible w' vid
}.

End StoreVocabulary.

(** The gateway [src/excelProcessor.js] goes through. *)
Definition storeFetch {W} {C : Collaborators W} (pineconeIndex : bool) :=
  if pineconeIndex then pineconeIndex_fetch else pineconeApi_fetch.

Definition storeUpsert {W} {C : Collaborators W} (pineconeIndex : bool) :=
  if pineconeIndex then pineconeIndex_upsert else pineconeApi_upsert.

Definition is_point_fetch (ev : Event) : bool :=
  match ev with
  | EApiFetch [_] | ESdkFetch [_] => true
  | _ => false
  end.

(** A run from [s] that skips every record: nothing is processed, nothing
    fails, and the only events are the point fetches, one per record. *)
Definition skips_everything {W} (run : M W IngestResult) (s : St W) : Prop :=
  exists result s' fetches,
    run s = (Ok result, s') /\
    success result = true /\
    processed (stats result) = 0 /\
    skipped (stats result) = totalItems (stats result) /\
    errors (stats result) = 0 /\
    trace s' = (trace s ++ fetches)%list /\
    forallb is_point_fetch fetches = true /\
    length fetches = totalItems (stats result).

(** Every row sits in the group named by its own key. *)
Definition grouped_by_key (g : JsObject.t (list RowData)) : Prop :=
  forall k items row, In (k, items) g -> In row items -> Extractor.groupKey row = k.

(** Whatever the outcome, [P] holds of the world after the computation
    when it held before. *)
Definition keeps {W A} (P : W -> Prop) (c : M W A) : Prop :=
  forall s r s', c s = (r, s') -> P (world s) -> P (world s').

(** [k] more records skipped. *)
Definition skipMore (k : nat) (n : Counters) : Counters :=
  {| processedRows := processedRows n;
     skippedRows := k + skippedRows n;
     errorRows := errorRows n |}.

(** The result of a run, when it did not throw. *)
Definition resultOf {W} (run : JsResult IngestResult * St W) : IngestResult :=
  match fst run with
  | Ok r => r
  | Throw _ =>
      {| success := false;
         stats := {| totalItems := 0; processed := 0; skipped := 0; errors := 0 |};
         sheets := []; ingest_mockMode := None |}
  end.

(** The computation only adds events to the trace. *)
Definition extends {W A} (c : M W A) : Prop :=
  forall s r s', c s = (r, s') -> exists evs, trace s' = (trace s ++ evs)%list.

(** The first thing the computation does is the call [ev]. *)
Definition starts_with {W A} (ev : Event) (c : M W A) : Prop :=
  forall s r s', c s = (r, s') -> exists evs, trace s' = (trace s ++ ev :: evs)%list.

(** A lower-case hexadecimal digit. *)
Definition is_hex (c : ascii) : bool :=
  let n := N_of_ascii c in
  ((48 <=? n) && (n <=? 57) || (97 <=? n) && (n <=? 102))%N.

Fixpoint all_hex (s : string) : bool :=
  match s with
  | EmptyString => true
  | String c t => is_hex c && all_hex t
  end.

(* ===================================================================== *)
(** ** Vocabulary of the further properties *)
(* ===================================================================== *)

(** The computation only adds events that satisfy [P]. *)
Definition emits {W A} (P : Event -> Prop) (c : M W A) : Prop :=
  forall s r s',
    c s = (r, s') ->
    exists evs, trace s' = (trace s ++ evs)%list /\ Forall P evs.

(** What a run of [processExcelRFP] reports for the records [data] of the
    workbook: every record is counted once, as processed, skipped or
    failed; the records of a batch whose upload failed are counted in
    [errors] on top of [processed]. *)
Definition every_record_counted (workbook : Workbook) (data : list Item)
  (result : IngestResult) : Prop :=
  success result = true /\
  sheets result = Extractor.sheetNames workbook /\
  totalItems (stats result) = length data /\
  exists failed uploads,
    errors (stats result) = failed + uploads /\
    processed (stats result) + skipped (stats result) + failed = length data /\
    uploads <= processed (stats result).

(** The records [processExcelRFP] extracts from a buffer; none when the
    buffer cannot be read. *)
Definition recordsOf {W} {C : Collaborators W} (buffer : string) : list Item :=
  match xlsx_load buffer with
  | Ok workbook =>
      match Extractor.processedData workbook with
      | Ok data => data
      | Throw _ => []
      end
  | Throw _ => []
  end.

(** A vector made from one of the records [data]: its id is the record's
    stable id and its metadata the record's. *)
Definition record_vector (md : Metadata) (data : list Item) (r : VectorRecord) : Prop :=
  exists item,
    In item data /\
    id r = generateStableId md item /\
    metadata r = vectorMetadata md item.

(** One upload: between one and [BATCH_SIZE] vectors, each made from a
    record. *)
Definition upload_batch (md : Metadata) (data : list Item)
  (records : list VectorRecord) : Prop :=
  1 <= length records <= BATCH_SIZE /\ Forall (record_vector md data) records.

(** A fetch of the stable id of one record, and of nothing else. *)
Definition point_fetch (md : Metadata) (data : list Item) (ids : list string) : Prop :=
  exists item, In item data /\ ids = [generateStableId md item].

(** The waits of [withRetry] with its default parameters. *)
Definition default_backoff (ms : Z) : Prop := ms = 1000%Z \/ ms = 2000%Z.

(** What an ingestion of the records [data] may do: embed the text of a
    record, fetch the id of a record, upload a batch, and wait between
    attempts; through the SDK client when [sdk] holds, through the direct
    gateway otherwise. *)
Definition ingestion_event (sdk : bool) (md : Metadata) (data : list Item)
  (ev : Event) : Prop :=
  match ev with
  | EEmbed input => In input (map text data)
  | EApiFetch ids => sdk = false /\ point_fetch md data ids
  | ESdkFetch ids => sdk = true /\ point_fetch md data ids
  | EApiUpsert records => sdk = false /\ upload_batch md data records
  | ESdkUpsert records => sdk = true /\ upload_batch md data records
  | ESleep ms => default_backoff ms
  | _ => False
  end.

(** Which index a revision of [queryRFPData] can reach: none in degraded
    mode, the direct gateway, or the SDK client with the direct gateway
    behind it. *)
Inductive StoreAccess : Type := Offline | DirectOnly | SdkThenDirect.

(** The filter the SDK query is given: none for an empty object. *)
Definition sdkFilter (filterConditions : FilterConditions) : option FilterConditions :=
  match JsObject.keys filterConditions with
  | [] => None
  | _ => Some filterConditions
  end.

(** The two messages of the completion request. *)
Definition promptMessages (systemPrompt : string) (contexts : list SourceContext)
  (question : string) : list ChatMessage :=
  [ {| role := "system"; content := systemPrompt |};
    {| role := "user"; content := userPrompt contexts question |} ].

(** What a call of [queryRFPData] may do: embed the question, query the
    index for the five nearest vectors under the filter built from
    [filters], ask for a completion with the system prompt and a user
    prompt that ends with the question, and wait between attempts. *)
Definition query_event (access : StoreAccess) (systemPrompt question : string)
  (filters : JsObject.t string) (ev : Event) : Prop :=
  match ev with
  | EEmbed input => input = question
  | EApiQuery _ topK filter =>
      access <> Offline /\ topK = 5%Z /\ filter = filterConditionsOf filters
  | ESdkQuery _ topK filter =>
      access = SdkThenDirect /\ topK = 5%Z /\
      filter = sdkFilter (filterConditionsOf filters)
  | EChat messages =>
      access <> Offline /\
      exists contexts, messages = promptMessages systemPrompt contexts question
  | ESleep ms => default_backoff ms
  | _ => False
  end.

(** One of the answers [queryRFPData] gives without a completion; the
    answer of the degraded mode is given in that mode only. *)
Definition canned (degraded : bool) (question : string) (result : QueryResult) : Prop :=
  result = greetingResult \/
  result = noMatchResult \/
  (degraded = true /\ result = Part000.mockResult question) \/
  exists e, result = fallbackResult e.

(** The result is the answer of a completion that was given exactly the
    sources the result reports, and that completion is the last call made
    before [s']. *)
Definition answered_from_sources {W} {C : Collaborators W}
  (systemPrompt question : string) (result : QueryResult) (s' : St W) : Prop :=
  sources result <> [] /\
  error result = None /\
  mockMode result = None /\
  exists sk rest,
    chat (promptMessages systemPrompt (sources result) question) sk
    = (Ok (answer result :: rest), s').

Section RetryOutcomes.
Context {W A : Type}.

(** [first_success op k w]: the operation, invoked from the world [w],
    throws [k] times in a row and then answers; its answer and the world
    it leaves. *)
Fixpoint first_success (op : W -> JsResult A * W) (k : nat) (w : W)
  : option (A * W) :=
  match op w, k with
  | (Ok a, w'), O => Some (a, w')
  | (Ok _, _), S _ => None
  | (Throw _, _), O => None
  | (Throw _, w'), S k' => first_success op k' w'
  end.

End RetryOutcomes.

(** A row gives a record when its combined text is not blank. *)
Definition givesRecord (row : RowData) : bool :=
  JsString.truthy (JsString.trim (Extractor.combinedText row)).

(** The data rows of a sheet that give a record, in sheet order. *)
Definition dataRows (ws : Worksheet) : list RowData :=
  match Extractor.trimHeaders (Extractor.getRow1 ws) with
  | Ok headers => filter givesRecord (Extractor.jsonData headers (ws_rows ws))
  | Throw _ => []
  end.

(** The rows of a workbook that give a record, each with its sheet. *)
Definition workbookRows (workbook : Workbook) : list (string * RowData) :=
  flat_map (fun ws => map (pair (ws_name ws)) (dataRows ws)) workbook.


(** [filters[k]] is truthy: the property is there and is not the empty
    string. *)
Definition given (filters : JsObject.t string) (k : string) : bool :=
  match JsObject.get filters k with
  | Some v => JsString.truthy v
  | None => false
  end.

(** The operation throws whenever it is called. *)
Definition always_throws {W A} (op : W -> JsResult A * W) : Prop :=
  forall w, exists e w', op w = (Throw e, w').

(** The operation answers whenever it is called. *)
Definition always_answers {W A} (op : W -> JsResult A * W) : Prop :=
  forall w, exists a w', op w = (Ok a, w').

(** The embedding service answers every request with at least one entry in
    [data]. *)
Definition embedding_available {W} {C : Collaborators W} : Prop :=
  forall input w, exists first rest w',
    embeddings_create input w = (Ok (first :: rest), w').

(** A second concrete world: services that are up or down for good. The
    index holds nothing; the world counts the calls it received. *)
Module Faulty.

Record Faults := { fetch_down : bool; embed_down : bool; upsert_down : bool }.

Definition unavailable : JsError := {| message := "503 Service Unavailable" |}.

Definition answer {A} (down : bool) (a : A) (w : nat) : JsResult A * nat :=
  (if down then Throw unavailable else Ok a, S w).

Definition collaborators (f : Faults) : Collaborators nat :=
  {| xlsx_load := Harness.load files;
     JSON_parse := Harness.FlatJson.parse;
     embeddings_create := fun _ => answer (embed_down f) [Some [(1 # 2)%Q]];
     chat_completions_create := fun _ => answer false ["It is covered in section 4."];
     pineconeApi_fetch := fun _ => answer (fetch_down f) {| vectors := Some [] |};
     pineconeApi_upsert := fun _ => answer (upsert_down f) tt;
     pineconeApi_query := fun _ _ _ => answer false {| matches := Some [] |};
     pineconeIndex_fetch := fun _ => answer (fetch_down f) {| vectors := Some [] |};
     pineconeIndex_upsert := fun _ => answer (upsert_down f) tt;
     pineconeIndex_query := fun _ _ _ => answer false {| matches := Some [] |};
     describe_index_stats :=
       answer false {| probe_ok := true; probe_json := Ok tt |} |}.

Definition fetchOutage : Faults :=
  {| fetch_down := true; embed_down := false; upsert_down := false |}.

Definition uploadOutage : Faults :=
  {| fetch_down := false; embed_down := false; upsert_down := true |}.

Definition start : St nat := {| world := O; trace := [] |}.

End Faulty.

(** The entries with an array index each carry the index of their key. *)
Definition indexed {V} (l : list (N * (string * V))) : Prop :=
  forall x, In x l -> JsObject.array_index (fst (snd x)) = Some (fst x).

(** The computation adds at most [maxCalls] calls to the trace, and waits
    at most [maxWait] milliseconds in all. *)
Definition bounded {W A} (maxCalls : nat) (maxWait : Z) (c : M W A) : Prop :=
  forall s r s',
    c s = (r, s') ->
    exists evs,
      trace s' = (trace s ++ evs)%list /\
      length (calls evs) <= maxCalls /\
      (0 <= total_sleep evs <= maxWait)%Z.

(** The number of uploads a run attempts at most: one per batch. *)
Definition batchCount {A} (data : list A) : nat := length (chunk BATCH_SIZE data).

(* ===================================================================== *)
(** ** What the module does with [process.env] when it is loaded *)
(* ===================================================================== *)

Module Environment.

(** [process.env]: the variables that are set, with their values. *)
Definition t : Type := JsObject.t string.

Definition requiredEnvVars : list string :=
  ["PINECONE_API_KEY"; "PINECONE_ENVIRONMENT"; "PINECONE_INDEX_NAME"; "OPENAI_API_KEY"].

(** [requiredEnvVars.filter(varName => !process.env[varName])] *)
Definition missingVars (env : t) : list string :=
  filter (fun varName => negb (given env varName)) requiredEnvVars.

(** The check at the top of the module: loading it throws when a required
    variable is missing. *)
Definition checkEnvironment (env : t) : JsResult unit :=
  match missingVars env with
  | [] => Ok tt
  | _ =>
      Throw {| message := "Missing required environment variables: "
                          ++ JsString.join ", " (missingVars env) |}
  end.

(** The address built from the index name and the environment, the only
    one [src/excelProcessor.js] uses. *)
Definition indexUrl (env : t) : string :=
  "https://" ++ JsString.template (JsObject.get env "PINECONE_INDEX_NAME")
  ++ ".svc." ++ JsString.template (JsObject.get env "PINECONE_ENVIRONMENT")
  ++ ".pinecone.io".

(** [getPineconeBaseUrl] of the revision with [MOCK_MODE]. *)
Definition getPineconeBaseUrl (env : t) : string :=
  match JsObject.get env "PINECONE_HOST" with
  | Some host =>
      if JsString.truthy host then
        if String.prefix "http" host then host else "https://" ++ host
      else indexUrl env
  | None => indexUrl env
  end.

(** A complete environment, with the host given without its scheme. *)
Definition sample : t :=
  [ ("PINECONE_API_KEY", "pc-key"); ("PINECONE_ENVIRONMENT", "us-east-1");
    ("PINECONE_INDEX_NAME", "rfp"); ("OPENAI_API_KEY", "sk-key");
    ("PINECONE_HOST", "rfp-abc123.svc.pinecone.io") ].

End Environment.

(** A field mapping made from the cells [cells0]: no two fields of the same
    name, each named by the non-empty header of the column of a cell and
    holding the trimmed text of that cell. *)
Definition from_cells (headers : list (nat * string)) (cells0 : list Cell)
  (rowData : RowData) : Prop :=
  NoDup (map fst rowData) /\
  forall k v,
    In (k, v) rowData ->
    JsString.truthy k = true /\
    exists c,
      In c cells0 /\ k = Extractor.header headers (colNumber c) /\
      v = JsString.trim (cell_text c).


(** The sources are the matches, one source per match and in the order of
    the matches, each with the score of its match and built from it by the
    callback [contextOf] of the revision. *)
Definition sources_of_matches {W}
  (contextOf : Match -> M W SourceContext)
  (ms : list Match) (sources0 : list SourceContext) : Prop :=
  Forall2
    (fun m c => similarity c = score m /\ forall s, contextOf m s = (Ok c, s))
    ms sources0.

(* ===================================================================== *)
(** ** Vocabulary of the statements on the identifier *)
(* ===================================================================== *)

(** The string contains the separator of the joined string, a hyphen. *)
Fixpoint has_dash (s : string) : bool :=
  match s with
  | EmptyString => false
  | String c t => (N_of_ascii c =? 45)%N || has_dash t
  end.

(** The four components as the template literal prints them: a missing
    [rfpId] is printed [undefined]. *)
Definition printedComponents (md : Metadata) (item : Item)
  : string * string * string * string :=
  (JsString.template (JsObject.get md "rfpId"), sheetName item, category item,
   JsString.slice0 50 (text item)).

(** The first three components hold no hyphen, so that the joined string
    can be cut in one way only. *)
Definition separator_free (md : Metadata) (item : Item) : Prop :=
  has_dash (JsString.template (JsObject.get md "rfpId")) = false /\
  has_dash (sheetName item) = false /\
  has_dash (category item) = false.

(** Two different strings with the same MD5 digest. *)
Definition md5_collision (c c' : string) : Prop :=
  c <> c' /\ MD5.hexdigest c = MD5.hexdigest c'.

(* ===================================================================== *)
(** ** The retry executor on numbers that are not integers *)
(* ===================================================================== *)

Section RetryOnNumbers.
Context {W A : Type}.

(** [withRetry] when [maxRetries] is any finite number, given as a
    fraction. The counter [i] of the loop stays an integer; the two tests
    are those of the source, [i < maxRetries] and [i === maxRetries - 1]. *)
Fixpoint withRetryQ_loop (fuel : nat) (operation : M W A)
  (maxRetries : Q) (i delay : Z) : M W (option A) :=
  match fuel with
  | O => ret None
  | S fuel' =>
      if negb (Qle_bool maxRetries (inject_Z i)) then
        try_catch
          (a <- operation ;; ret (Some a))
          (fun error =>
             if Qeq_bool (inject_Z i) (maxRetries - 1)%Q then throw error
             else
               _ <- sleep delay ;;
               withRetryQ_loop fuel' operation maxRetries (i + 1) (delay * 2))
      else ret None
  end.

(** The loop is entered while [i < maxRetries], that is for the integers
    below the ceiling of [maxRetries]. *)
Definition withRetryQ (operation : M W A) (maxRetries : Q) (delay : Z)
  : M W (option A) :=
  withRetryQ_loop (Z.to_nat (Qceiling maxRetries)) operation maxRetries 0 delay.

End RetryOnNumbers.

(** [maxRetries] is not an integer. *)
Definition fractional (maxRetries : Q) : Prop :=
  forall n : Z, ~ (maxRetries == inject_Z n)%Q.

(** The events of [n] attempts each followed by its wait. *)
Fixpoint attempts_then_waits (label : string) (n : nat) (delay : Z) : list Event :=
  match n with
  | O => []
  | S n' => ECall label :: ESleep delay :: attempts_then_waits label n' (delay * 2)
  end.

(** A sheet with a column headed [__proto__]: its second data row has a
    cell in that column only. *)
Definition sheet_with_proto_header : Worksheet :=
  {| ws_name := "Vendors";
     ws_rows :=
       [ {| rowNumber := 1;
            cells := [ textCell 1 "Question"; textCell 2 "__proto__" ] |};
         {| rowNumber := 2;
            cells := [ textCell 1 "Is data encrypted?"; textCell 2 "yes" ] |};
         {| rowNumber := 3;
            cells := [ textCell 2 "only this cell" ] |} ] |}.

(* ===================================================================== *)
(** ** The ledger of a run of the upload loop *)
(* ===================================================================== *)

(** What happened to one batch: how many records it has, how many vectors
    were staged for its upload, how many of its records were counted as
    skipped and as errors while they were prepared, and whether its upload
    threw after the retries. *)
Record BatchOutcome := {
  batch_size : nat;
  batch_processed : nat;
  batch_skipped : nat;
  batch_failed : nat;
  upload_failed : bool
}.

Section Ledger.
Context {W : Type} {C : Collaborators W}.
Variable fetchVectors : list string -> M W FetchResponse.
Variable upsertVectors : list VectorRecord -> M W unit.
Variable md : Metadata.

(** The upload of the staged vectors throws from the state [s]; nothing is
    uploaded, and nothing fails, when no vector is staged. *)
Definition uploadFails (batchOperations : list VectorRecord) (s : St W) : bool :=
  match batchOperations with
  | [] => false
  | _ =>
      match withRetry_default (upsertVectors batchOperations) s with
      | (Throw _, _) => true
      | (Ok _, _) => false
      end
  end.

(** The batch, watched from the counters [n] and the state [s] it starts
    from. *)
Definition outcomeOf (n : Counters) (batch : list Item) (s : St W) : BatchOutcome :=
  match foldM (prepareItem fetchVectors md) batch ([], n) s with
  | (Ok (batchOperations, n1), s1) =>
      {| batch_size := length batch;
         batch_processed := length batchOperations;
         batch_skipped := skippedRows n1 - skippedRows n;
         batch_failed := errorRows n1 - errorRows n;
         upload_failed := uploadFails batchOperations s1 |}
  | (Throw _, _) =>
      {| batch_size := length batch; batch_processed := 0; batch_skipped := 0;
         batch_failed := 0; upload_failed := false |}
  end.

(** The outcomes of the batches of a run, each batch starting from the
    counters and the state the one before it left. *)
Fixpoint ledger (batches : list (list Item)) (n : Counters) (s : St W)
  : list BatchOutcome :=
  match batches with
  | [] => []
  | batch :: rest =>
      outcomeOf n batch s ::
      match uploadBatch fetchVectors upsertVectors md n batch s with
      | (Ok n', s') => ledger rest n' s'
      | (Throw _, _) => []
      end
  end.

End Ledger.

(** The vectors of a batch that were counted as processed and not stored:
    all those staged, when the upload of the batch failed. *)
Definition lost (o : BatchOutcome) : nat :=
  if upload_failed o then batch_processed o else 0.

(** The stats of a run agree with its ledger: one entry per batch of at
    most ten records, each record of a batch counted once, and the staged
    vectors of every batch whose upload failed counted in [errors] on top
    of [processed]. *)
Definition accounted (l : list BatchOutcome) (data : list Item) (st : Stats) : Prop :=
  map batch_size l = map (@length Item) (chunk BATCH_SIZE data) /\
  Forall (fun o => batch_processed o + batch_skipped o + batch_failed o
                   = batch_size o) l /\
  processed st = list_sum (map batch_processed l) /\
  skipped st = list_sum (map batch_skipped l) /\
  errors st = list_sum (map batch_failed l) + list_sum (map lost l).

(* ===================================================================== *)
(** ** Sanity checks of the model *)
(* ===================================================================== *)

Example md5_empty : MD5.hexdigest "" = "d41d8cd98f00b204e9800998ecf8427e".
Proof. vm_compute. reflexivity. Qed.

Example md5_abc : MD5.hexdigest "abc" = "900150983cd24fb0d6963f7d28e17f72".
Proof. vm_compute. reflexivity. Qed.

Example md5_fox :
  MD5.hexdigest "The quick brown fox jumps over the lazy dog"
  = "9e107d9d372bb6826bd81d3542a419d6".
Proof. vm_compute. reflexivity. Qed.

(** 55 and 56 bytes: the last message that fits one block with its padding,
    and the first that needs a second block. *)
Example md5_padding_boundary :
  MD5.hexdigest "aaaaaaaaaaaaaaaaaaaaaaaaaaaaaaaaaaaaaaaaaaaaaaaaaaaaaaa"
  = "ef1772b6dff9a122358552954ad0df65" /\
  MD5.hexdigest "aaaaaaaaaaaaaaaaaaaaaaaaaaaaaaaaaaaaaaaaaaaaaaaaaaaaaaaa"
  = "3b0c8ac703f828b04c6c197006d17218".
Proof. vm_compute. split; reflexivity. Qed.

(** A code unit above 127 is hashed as its two UTF-8 bytes. *)
Example md5_latin1 :
  MD5.hexdigest ("caf" ++ String (ascii_of_nat 233) "")
  = "07117fe4a1ebd544965dc19573183da2".
Proof. vm_compute. reflexivity. Qed.

Example md5_two_blocks :
  MD5.hexdigest
    "xxxxxxxxxxxxxxxxxxxxxxxxxxxxxxxxxxxxxxxxxxxxxxxxxxxxxxxxxxxxxxxxxxxxxx"
  = "7d56c0f83fd1e320d60ea2f13dfdeedd".
Proof. vm_compute. reflexivity. Qed.

Example flat_json_round_trip :
  Harness.FlatJson.parse
    (Json_stringify.row [("Question", "Is data encrypted?"); ("Answer", "Yes, AES-256")])
  = Ok (JObject [("Question", JString "Is data encrypted?");
                 ("Answer", JString "Yes, AES-256")]).
Proof. vm_compute. reflexivity. Qed.

Example stringify_escapes :
  Json_stringify.row
    [("Note", "say " ++ JsString.dquote ++ "hi" ++ JsString.dquote ++ "\ "
              ++ String (ascii_of_nat 9) " now")]
  = "{" ++ JsString.dquote ++ "Note" ++ JsString.dquote ++ ":" ++ JsString.dquote
    ++ "say \" ++ JsString.dquote ++ "hi\" ++ JsString.dquote ++ "\\ \t now"
    ++ JsString.dquote ++ "}".
Proof. vm_compute. reflexivity. Qed.

Example flat_json_rejects :
  Harness.FlatJson.parse "not json" = Throw Harness.FlatJson.syntaxError.
Proof. reflexivity. Qed.

(* ===================================================================== *)
(** ** The retry executor *)
(* ===================================================================== *)

Lemma total_sleep_app (a b : list Event) :
  total_sleep (a ++ b)%list = (total_sleep a + total_sleep b)%Z.
Proof.
  induction a as [|ev a IH]; simpl; [reflexivity|].
  destruct ev; rewrite IH; lia.
Qed.

Section RetryFacts.
Context {W A : Type}.
Variable operation : M W A.

(** The loop condition, not the fuel, ends the loop: any fuel above the
    number of iterations left gives the same run. *)
Lemma withRetry_loop_fuel (maxRetries : Z) :
  forall fuel i delay s,
    (Z.to_nat (maxRetries - i) <= fuel)%nat ->
    withRetry_loop fuel operation maxRetries i delay s =
    withRetry_loop (Z.to_nat (maxRetries - i)) operation maxRetries i delay s.
Proof.
  induction fuel as [|fuel IH]; intros i delay s Hle.
  - replace (Z.to_nat (maxRetries - i)) with O by lia. reflexivity.
  - destruct (Z.ltb_spec i maxRetries) as [Hlt|Hge].
    + replace (Z.to_nat (maxRetries - i)) with (S (Z.to_nat (maxRetries - (i + 1)))) by lia.
      simpl. destruct (Z.ltb_spec i maxRetries); [|lia].
      unfold try_catch. destruct (bind operation _ s) as [[a|e] s']; [reflexivity|].
      destruct (i =? maxRetries - 1)%Z; [reflexivity|].
      unfold bind. simpl. apply IH. lia.
    + replace (Z.to_nat (maxRetries - i)) with O by lia.
      simpl. destruct (Z.ltb_spec i maxRetries); [lia|reflexivity].
Qed.

(** An operation that answers at once is invoked once. *)
Lemma withRetry_default_first (s s' : St W) (a : A) :
  operation s = (Ok a, s') ->
  withRetry_default operation s = (Ok (Some a), s').
Proof.
  intros H. unfold withRetry_default, withRetry. simpl.
  unfold try_catch, bind. rewrite H. reflexivity.
Qed.

(** With the default parameters a run never ends without a [return]. *)
Lemma withRetry_default_defined (s s' : St W) (r : option A) :
  withRetry_default operation s = (Ok r, s') -> exists a, r = Some a.
Proof.
  unfold withRetry_default, withRetry. simpl. unfold try_catch, bind, sleep, emit, ret, throw.
  destruct (operation s) as [[a|e] s1]; [intros [= <- _]; eauto|]. simpl.
  destruct (operation _) as [[a|e'] s2]; [intros [= <- _]; eauto|]. simpl.
  destruct (operation _) as [[a|e''] s3]; [intros [= <- _]; eauto|]. simpl.
  discriminate.
Qed.

(** What holds of the world before a run and is kept by every attempt
    holds after the run. *)
Lemma withRetry_loop_keeps (P : W -> Prop) (maxRetries : Z) :
  (forall s r s', operation s = (r, s') -> P (world s) -> P (world s')) ->
  forall fuel i delay s r s',
    withRetry_loop fuel operation maxRetries i delay s = (r, s') ->
    P (world s) -> P (world s').
Proof.
  intros Hop. induction fuel as [|fuel IH]; intros i delay s r s' Hrun HP.
  - inversion Hrun; subst; assumption.
  - simpl in Hrun. destruct (i <? maxRetries)%Z.
    + unfold try_catch, bind in Hrun.
      destruct (operation s) as [[a|e] s1] eqn:E; simpl in Hrun.
      * inversion Hrun; subst. eapply Hop; eauto.
      * assert (P (world s1)) by (eapply Hop; eauto).
        destruct (i =? maxRetries - 1)%Z.
        -- inversion Hrun; subst; assumption.
        -- eapply IH in Hrun; eauto.
    + inversion Hrun; subst; assumption.
Qed.

Lemma withRetry_default_keeps (P : W -> Prop) :
  (forall s r s', operation s = (r, s') -> P (world s) -> P (world s')) ->
  forall s r s',
    withRetry_default operation s = (r, s') -> P (world s) -> P (world s').
Proof.
  intros Hop s r s'. unfold withRetry_default, withRetry.
  apply withRetry_loop_keeps; assumption.
Qed.

End RetryFacts.

Lemma withRetry_loop_S {W A : Type} (operation : M W A) fuel maxRetries i delay s :
  withRetry_loop (S fuel) operation maxRetries i delay s =
  if (i <? maxRetries)%Z then
    try_catch
      (a <- operation ;; ret (Some a))
      (fun error =>
         if (i =? maxRetries - 1)%Z then throw error
         else
           _ <- sleep delay ;;
           withRetry_loop fuel operation maxRetries (i + 1) (delay * 2))
      s
  else (Ok None, s).
Proof. simpl. destruct (i <? maxRetries)%Z; reflexivity. Qed.

Section RetryCounting.
Context {W A : Type}.
Variable op : W -> JsResult A * W.
Variable label : string.

(** A run of attempts that all fail: the last error comes out as it was
    thrown, after exactly that many calls. *)
Lemma withRetry_loop_exhausted (maxRetries : Z) :
  forall n i delay w tr e w',
    (i + Z.of_nat (S n) = maxRetries)%Z ->
    failures op (S n) w = Some (e, w') ->
    withRetry_loop (S n) (remote (ECall label) op) maxRetries i delay
      {| world := w; trace := tr |}
    = (Throw e, {| world := w';
                   trace := (tr ++ attempts_trace label (S n) delay)%list |}).
Proof.
  induction n as [|n IH]; intros i delay w tr e w' Hi Hf.
  - simpl in Hf. destruct (op w) as [[a|e0] w0] eqn:E; [discriminate|].
    injection Hf as -> ->.
    simpl. destruct (Z.ltb_spec i maxRetries); [|lia].
    unfold try_catch, bind, remote. simpl. rewrite E. simpl.
    destruct (Z.eqb_spec i (maxRetries - 1)); [reflexivity|lia].
  - change (failures op (S (S n)) w) with
      (match op w with
       | (Throw e, w') => failures op (S n) w'
       | (Ok _, _) => None
       end) in Hf.
    destruct (op w) as [[a|e0] w0] eqn:E; [discriminate|].
    rewrite withRetry_loop_S.
    destruct (Z.ltb_spec i maxRetries); [|lia].
    unfold try_catch, bind at 1, remote at 1. simpl. rewrite E. simpl.
    destruct (Z.eqb_spec i (maxRetries - 1)); [lia|].
    unfold bind, sleep, emit. simpl.
    rewrite (IH (i + 1)%Z (delay * 2)%Z w0 _ e w') by (assumption || lia).
    change (attempts_trace label (S (S n)) delay)
      with (ECall label :: ESleep delay :: attempts_trace label (S n) (delay * 2)).
    rewrite <- !app_assoc. reflexivity.
Qed.

End RetryCounting.

(** C9. An operation that fails on its first two invocations and succeeds
    on the third: [withRetry] with three attempts returns the third result
    after exactly three calls, having slept [initialDelay] and then twice
    that, [initialDelay + 2 * initialDelay] in all, before the last call.
    An operation that fails on every one of the [maxRetries] attempts: the
    error of the last attempt comes out unchanged. *)
Theorem withRetry_backoff_and_final_error :
  forall (W A : Type) (op : W -> JsResult A * W) (label : string)
         (initialDelay : Z) (tr : list Event)
         (w0 w1 w2 w3 : W) (e1 e2 : JsError) (v : A)
         (n : nat) (wa wb : W) (e : JsError),
    (op w0 = (Throw e1, w1) -> op w1 = (Throw e2, w2) -> op w2 = (Ok v, w3) ->
     let run := withRetry (remote (ECall label) op) 3 initialDelay
                  {| world := w0; trace := tr |} in
     fst run = Ok (Some v) /\
     world (snd run) = w3 /\
     trace (snd run) =
       (tr ++ [ECall label; ESleep initialDelay; ECall label;
               ESleep (initialDelay * 2); ECall label])%list /\
     (total_sleep (trace (snd run)) - total_sleep tr
      = initialDelay + 2 * initialDelay)%Z)
    /\
    (failures op (S n) wa = Some (e, wb) ->
     withRetry (remote (ECall label) op) (Z.of_nat (S n)) initialDelay
       {| world := wa; trace := tr |}
     = (Throw e, {| world := wb;
                    trace := (tr ++ attempts_trace label (S n) initialDelay)%list |})).
Proof.
  intros W A op label d tr w0 w1 w2 w3 e1 e2 v n wa wb e. split.
  - intros H0 H1 H2. cbv zeta.
    remember (d + 2 * d)%Z as total eqn:Htotal.
    unfold withRetry. simpl.
    unfold try_catch, bind, remote, sleep, emit, ret. simpl.
    rewrite H0. simpl. rewrite H1. simpl. rewrite H2. simpl.
    rewrite <- !app_assoc. simpl.
    repeat split; try reflexivity.
    rewrite total_sleep_app. cbn [total_sleep]. lia.
  - intros Hf. unfold withRetry. rewrite Nat2Z.id.
    apply withRetry_loop_exhausted; [lia|assumption].
Qed.

Lemma withRetry_backoff_and_final_error_witness :
  (let run := withRetry (remote (ECall "flaky") flaky) 3 1000
                {| world := O; trace := [] |} in
   fst run = Ok (Some 2%nat) /\
   world (snd run) = 3%nat /\
   trace (snd run) =
     [ECall "flaky"; ESleep 1000; ECall "flaky"; ESleep (1000 * 2); ECall "flaky"] /\
   (total_sleep (trace (snd run)) - total_sleep [] = 1000 + 2 * 1000)%Z)
  /\
  withRetry (remote (ECall "flaky") hopeless) (Z.of_nat 3) 1000
    {| world := O; trace := [] |}
  = (Throw {| message := "2" |},
     {| world := 3%nat;
        trace := ([] ++ attempts_trace "flaky" 3 1000)%list |}).
Proof.
  destruct (withRetry_backoff_and_final_error
              flaky "flaky" 1000 []
              0%nat 1%nat 2%nat 3%nat
              {| message := "ECONNRESET" |} {| message := "ECONNRESET" |} 2%nat
              2%nat 0%nat 3%nat {| message := "2" |}) as [H1 H2].
  split.
  - apply H1; reflexivity.
  - destruct (withRetry_backoff_and_final_error
              hopeless "flaky" 1000 []
              0%nat 1%nat 2%nat 3%nat
              {| message := "0" |} {| message := "1" |} 2%nat
              2%nat 0%nat 3%nat {| message := "2" |}) as [_ H3].
    apply H3. reflexivity.
Defined.

(** C10. With [maxRetries <= 0] the loop body is never entered: the call
    resolves to [undefined], the operation is not invoked (the state is the
    one before the call, whatever the operation would have done to it) and
    nothing is thrown. *)
Theorem withRetry_without_attempts :
  forall (W A : Type) (operation : M W A) (maxRetries delay : Z) (s : St W),
    (maxRetries <= 0)%Z ->
    withRetry operation maxRetries delay s = (Ok None, s) /\
    (forall fuel, withRetry_loop fuel operation maxRetries 0 delay s = (Ok None, s)).
Proof.
  intros W A operation maxRetries delay s Hle. split.
  - unfold withRetry. replace (Z.to_nat maxRetries) with O by lia. reflexivity.
  - intros [|fuel]; [reflexivity|]. simpl.
    destruct (Z.ltb_spec 0 maxRetries); [lia|reflexivity].
Qed.

Lemma withRetry_without_attempts_witness :
  withRetry (remote (ECall "flaky") flaky) 0 1000 {| world := O; trace := [] |}
  = (Ok None, {| world := O; trace := [] |}).
Proof.
  apply (@withRetry_without_attempts nat nat (remote (ECall "flaky") flaky)
           0%Z 1000%Z {| world := O; trace := [] |}).
  lia.
Defined.

(* ===================================================================== *)
(** ** The stable identifier *)
(* ===================================================================== *)

Lemma le_bytes_length (n : nat) (x : Z) : length (MD5.le_bytes n x) = n.
Proof. revert x; induction n as [|n IH]; intros x; simpl; [reflexivity|now rewrite IH]. Qed.

Lemma hex_bytes_length (bs : list Z) :
  String.length (MD5.hex_bytes bs) = (2 * length bs)%nat.
Proof. induction bs as [|b bs IH]; simpl; [reflexivity|rewrite IH; lia]. Qed.

Lemma hexdigest_length (content : string) : String.length (MD5.hexdigest content) = 32%nat.
Proof.
  unfold MD5.hexdigest, MD5.digest_bytes.
  rewrite hex_bytes_length, !length_app, !le_bytes_length. reflexivity.
Qed.

Lemma hex_digit_is_hex (d : Z) : (0 <= d < 16)%Z -> is_hex (MD5.hex_digit d) = true.
Proof.
  intros H.
  assert (E : (d = 0 \/ d = 1 \/ d = 2 \/ d = 3 \/ d = 4 \/ d = 5 \/ d = 6 \/ d = 7 \/
               d = 8 \/ d = 9 \/ d = 10 \/ d = 11 \/ d = 12 \/ d = 13 \/ d = 14 \/
               d = 15)%Z) by lia.
  repeat (destruct E as [->|E]; [reflexivity|]). subst d. reflexivity.
Qed.

Lemma le_bytes_range (n : nat) (x : Z) :
  Forall (fun b => 0 <= b < 256)%Z (MD5.le_bytes n x).
Proof.
  revert x. induction n as [|n IH]; intros x; simpl; constructor.
  - apply Z.mod_pos_bound. lia.
  - apply IH.
Qed.

Lemma hex_bytes_all_hex (bs : list Z) :
  Forall (fun b => 0 <= b < 256)%Z bs -> all_hex (MD5.hex_bytes bs) = true.
Proof.
  induction 1 as [|b bs Hb _ IH]; simpl; [reflexivity|].
  rewrite IH, !hex_digit_is_hex; [reflexivity| |].
  - apply Z.mod_pos_bound. lia.
  - split; [apply Z.div_pos; lia|apply Z.div_lt_upper_bound; lia].
Qed.

Lemma hexdigest_all_hex (content : string) : all_hex (MD5.hexdigest content) = true.
Proof.
  unfold MD5.hexdigest, MD5.digest_bytes. apply hex_bytes_all_hex.
  repeat (apply Forall_app; split); apply le_bytes_range.
Qed.

Lemma stableContent_of_components md item md' item' :
  idComponents md item = idComponents md' item' ->
  stableContent md item = stableContent md' item'.
Proof.
  unfold idComponents, stableContent. intros [= -> -> -> ->]. reflexivity.
Qed.

(** A joined string whose first part holds no hyphen is cut at its first
    hyphen. *)
Lemma cut_at_first_dash :
  forall a a' x x',
    has_dash a = false -> has_dash a' = false ->
    a ++ "-" ++ x = a' ++ "-" ++ x' -> a = a' /\ x = x'.
Proof.
  induction a as [|c a IH]; intros [|c' a'] x x' Ha Ha' H; simpl in *.
  - injection H as ->. split; reflexivity.
  - injection H as <- _. discriminate.
  - injection H as -> _. discriminate.
  - injection H as -> H. apply orb_false_iff in Ha, Ha'.
    destruct (IH a' x x' (proj2 Ha) (proj2 Ha') H) as [-> ->]. split; reflexivity.
Qed.

(** Without hyphens in the first three components, the joined string
    determines the four components. *)
Lemma stableContent_injective md item md' item' :
  separator_free md item -> separator_free md' item' ->
  stableContent md item = stableContent md' item' ->
  printedComponents md item = printedComponents md' item'.
Proof.
  intros [H1 [H2 H3]] [H1' [H2' H3']] H. unfold stableContent in H.
  apply cut_at_first_dash in H; [|assumption|assumption]. destruct H as [E1 H].
  apply cut_at_first_dash in H; [|assumption|assumption]. destruct H as [E2 H].
  apply cut_at_first_dash in H; [|assumption|assumption]. destruct H as [E3 E4].
  unfold printedComponents. now rewrite E1, E2, E3, E4.
Qed.

(** MD5 itself is not injective: two texts of 72 letters and digits that
    differ in one letter and have the same digest. *)
Example md5_collision_example :
  md5_collision
    "TEXTCOLLBYfGiJUETHQ4hAcKSMd5zYpgqf1YRDhkmxHkhPWptrkoyz28wnI9V0aHeAuaKnak"
    "TEXTCOLLBYfGiJUETHQ4hEcKSMd5zYpgqf1YRDhkmxHkhPWptrkoyz28wnI9V0aHeAuaKnak".
Proof. split; [discriminate|vm_compute; reflexivity]. Qed.

(** C2 on the code. The identifier is the MD5 digest, 32 hexadecimal
    digits, of the joined string [rfpId-sheetName-category-text[0:50]], so
    calls that agree on the four components get the same identifier. The
    second half of the claim holds where the joined string can be cut in
    one way only: when the first three components hold no hyphen, calls
    that differ in a component are given different joined strings, and
    their identifiers differ unless MD5 maps these two strings to the same
    digest. It fails where a hyphen can move from one component to the
    next: the RFP 2024-Q1 with the sheet Security and the RFP 2024 with the
    sheet Q1-Security differ in two components and get the same
    identifier. *)
Theorem generateStableId_unique_up_to_separator :
  (forall (md md' : Metadata) (item item' : Item),
      (idComponents md item = idComponents md' item' ->
       generateStableId md item = generateStableId md' item') /\
      String.length (generateStableId md item) = 32%nat /\
      all_hex (generateStableId md item) = true)
  /\
  (forall (md md' : Metadata) (item item' : Item),
      separator_free md item -> separator_free md' item' ->
      printedComponents md item <> printedComponents md' item' ->
      stableContent md item <> stableContent md' item' /\
      (generateStableId md item <> generateStableId md' item' \/
       md5_collision (stableContent md item) (stableContent md' item')))
  /\
  (idComponents md_2024_Q1 item_security <> idComponents md_2024 item_Q1_security /\
   printedComponents md_2024_Q1 item_security
   <> printedComponents md_2024 item_Q1_security /\
   generateStableId md_2024_Q1 item_security
   = generateStableId md_2024 item_Q1_security).
Proof.
  split; [|split].
  - intros md md' item item'. unfold generateStableId. split; [|split].
    + intros H. now rewrite (stableContent_of_components H).
    + apply hexdigest_length.
    + apply hexdigest_all_hex.
  - intros md md' item item' Hs Hs' Hne.
    assert (Hc : stableContent md item <> stableContent md' item').
    { intros H. apply Hne. now apply stableContent_injective. }
    split; [assumption|]. unfold generateStableId, md5_collision.
    destruct (string_dec (MD5.hexdigest (stableContent md item))
                (MD5.hexdigest (stableContent md' item'))) as [E|E].
    + right. now split.
    + left. assumption.
  - split; [discriminate|]. split; [discriminate|].
    unfold generateStableId. f_equal.
Qed.

Lemma generateStableId_unique_up_to_separator_witness :
  stableContent md_2024 item_security
  <> stableContent [("rfpId", "2025")] item_security /\
  (generateStableId md_2024 item_security
   <> generateStableId [("rfpId", "2025")] item_security \/
   md5_collision (stableContent md_2024 item_security)
     (stableContent [("rfpId", "2025")] item_security)).
Proof.
  apply (proj1 (proj2 generateStableId_unique_up_to_separator)
           md_2024 [("rfpId", "2025")] item_security item_security).
  - repeat split.
  - repeat split.
  - discriminate.
Defined.

Example generateStableId_value :
  generateStableId md_2024_Q1 item_security = "eca2dca7068258581f572de5f33b1387".
Proof. vm_compute. reflexivity. Qed.

(* ===================================================================== *)
(** ** Plain objects and the grouping by category *)
(* ===================================================================== *)

Section ObjectFacts.
Variable V : Type.

Lemma get_In (o : JsObject.t V) (k : string) (v : V) :
  JsObject.get o k = Some v -> In (k, v) o.
Proof.
  induction o as [|[k' v'] o IH]; simpl; [discriminate|].
  destruct (String.eqb_spec k' k) as [->|_].
  - intros [= ->]. now left.
  - intros H. right. now apply IH.
Qed.

Lemma set_In (o : JsObject.t V) (k : string) (v : V) (kv : string * V) :
  In kv (JsObject.set o k v) -> kv = (k, v) \/ In kv o.
Proof.
  induction o as [|[k' v'] o IH]; simpl.
  - intros [H|[]]. now left.
  - destruct (String.eqb k' k); simpl.
    + intros [H|H]; [now left|now right; right].
    + intros [H|H]; [now right; left|].
      destruct (IH H); [now left|now right; right].
Qed.

Lemma insert_sorted_In (e x : N * (string * V)) l :
  In x (JsObject.insert_sorted e l) -> x = e \/ In x l.
Proof.
  induction l as [|e' l IH]; simpl.
  - intros [H|[]]. now left.
  - destruct (fst e <=? fst e')%N; simpl.
    + intros [H|H]; [now left|now right].
    + intros [H|H]; [now right; left|].
      destruct (IH H); [now left|now right; right].
Qed.

Lemma index_entries_In (o : JsObject.t V) (x : N * (string * V)) :
  In x (JsObject.index_entries o) -> In (snd x) o.
Proof.
  induction o as [|[k v] o IH]; simpl; [tauto|].
  destruct (JsObject.array_index k).
  - intros H. apply insert_sorted_In in H. destruct H as [->|H]; [now left|].
    right. now apply IH.
  - intros H. right. now apply IH.
Qed.

Lemma named_entries_In (o : JsObject.t V) (kv : string * V) :
  In kv (JsObject.named_entries o) -> In kv o.
Proof.
  induction o as [|[k v] o IH]; simpl; [tauto|].
  destruct (JsObject.array_index k); simpl.
  - intros H. right. now apply IH.
  - intros [H|H]; [now left|right; now apply IH].
Qed.

(** [Object.entries] reorders the properties and invents none. *)
Lemma entries_In (o : JsObject.t V) (kv : string * V) :
  In kv (JsObject.entries o) -> In kv o.
Proof.
  unfold JsObject.entries. intros H. apply in_app_or in H. destruct H as [H|H].
  - apply in_map_iff in H. destruct H as [x [<- H]]. now apply index_entries_In.
  - now apply named_entries_In.
Qed.

End ObjectFacts.


Lemma addToGroup_grouped g row :
  grouped_by_key g -> grouped_by_key (Extractor.addToGroup g row).
Proof.
  intros Hg k items r Hin Hr. unfold Extractor.addToGroup in Hin.
  destruct (JsObject.get g (Extractor.groupKey row)) as [old|] eqn:E.
  - apply set_In in Hin. destruct Hin as [[= -> ->]|Hin]; [|eauto].
    apply in_app_or in Hr. destruct Hr as [Hr|[->|[]]]; [|reflexivity].
    apply get_In in E. eauto.
  - apply set_In in Hin. destruct Hin as [[= -> ->]|Hin]; [|eauto].
    destruct Hr as [->|[]]. reflexivity.
Qed.

Lemma groupBy_grouped rows : grouped_by_key (Extractor.groupBy rows).
Proof.
  unfold Extractor.groupBy.
  assert (H : forall g, grouped_by_key g -> grouped_by_key (fold_left Extractor.addToGroup rows g)).
  { induction rows as [|r rows IH]; simpl; intros g Hg; [assumption|].
    apply IH. now apply addToGroup_grouped. }
  apply H. intros k items row [].
Qed.

(** The category of an extracted record is read off the key of its group. *)
Lemma sheetItems_category ws items item :
  Extractor.sheetItems ws = Ok items ->
  In item items ->
  sheetName item = ws_name ws /\
  category item = Extractor.categoryOrDefault (Extractor.groupKey (originalData item)).
Proof.
  unfold Extractor.sheetItems.
  destruct (Extractor.trimHeaders _) as [headers|e]; [|discriminate].
  intros [= <-] H.
  apply in_flat_map in H. destruct H as [[k items] [Hg H]].
  apply entries_In in Hg. simpl in H.
  unfold Extractor.itemsOfGroup in H. apply in_flat_map in H.
  destruct H as [row [Hrow H]].
  destruct (JsString.truthy _); [|destruct H].
  destruct H as [<-|[]]. simpl. split; [reflexivity|].
  now rewrite (groupBy_grouped _ _ _ _ Hg Hrow).
Qed.

(** Whatever is extracted comes from one of the sheets. *)
Lemma processedData_In workbook data item :
  Extractor.processedData workbook = Ok data ->
  In item data ->
  exists ws items, In ws workbook /\ Extractor.sheetItems ws = Ok items /\ In item items.
Proof.
  revert data. induction workbook as [|ws workbook IH]; simpl; intros data.
  - intros [= <-] [].
  - destruct (Extractor.sheetItems ws) as [items|e] eqn:E; [|discriminate].
    destruct (Extractor.processedData workbook) as [more|e]; [|discriminate].
    intros [= <-] Hin. apply in_app_or in Hin. destruct Hin as [Hin|Hin].
    + exists ws, items. auto.
    + destruct (IH more eq_refl Hin) as [ws' [items' [H1 [H2 H3]]]].
      exists ws', items'. auto.
Qed.

Example extraction_example :
  Extractor.processedData [sheet_without_category; sheet_with_category] =
  Ok [ {| category := "undefined"; sheetName := "Security";
       text := "Question: Is data encrypted?" ++ JsString.newline ++ "Answer: Yes, AES-256";
       originalData := [("Question", "Is data encrypted?"); ("Answer", "Yes, AES-256")] |};
    {| category := "Licensing"; sheetName := "Pricing";
       text := "Category: Licensing" ++ JsString.newline ++ "Question: Per seat?";
       originalData := [("Category", "Licensing"); ("Question", "Per seat?")] |};
    {| category := "uncategorized"; sheetName := "Pricing";
       text := "Question: Discounts?";
       originalData := [("Category", ""); ("Question", "Discounts?")] |} ].
Proof. vm_compute. reflexivity. Qed.

Example extraction_numeric_header :
  Extractor.processedData [sheet_without_category; sheet_with_numeric_header] =
  Throw {| message := "header.trim is not a function" |}.
Proof. reflexivity. Qed.

(** C8 on the code. A row whose field mapping has no [Category] key is
    grouped under the property name [undefined], which is not empty, so the
    default of [category || 'uncategorized'] is not taken: the record's
    category is the string "undefined", never "uncategorized". *)
Theorem row_without_Category_is_undefined :
  forall (workbook : Workbook) (data : list Item) (item : Item),
    Extractor.processedData workbook = Ok data ->
    In item data ->
    JsObject.get (originalData item) "Category" = None ->
    category item = "undefined" /\ category item <> "uncategorized".
Proof.
  intros workbook data item Hdata Hin Hno.
  destruct (@processedData_In workbook data item Hdata Hin) as [ws [items [_ [Hs Hi]]]].
  destruct (@sheetItems_category ws items item Hs Hi) as [_ Hc]. unfold Extractor.groupKey in Hc. rewrite Hno in Hc.
  simpl in Hc. rewrite Hc. split; [reflexivity|discriminate].
Qed.

Lemma row_without_Category_is_undefined_witness :
  category
    {| category := "undefined"; sheetName := "Security";
       text := "Question: Is data encrypted?" ++ JsString.newline ++ "Answer: Yes, AES-256";
       originalData := [("Question", "Is data encrypted?"); ("Answer", "Yes, AES-256")] |}
  = "undefined" /\
  category
    {| category := "undefined"; sheetName := "Security";
       text := "Question: Is data encrypted?" ++ JsString.newline ++ "Answer: Yes, AES-256";
       originalData := [("Question", "Is data encrypted?"); ("Answer", "Yes, AES-256")] |}
  <> "uncategorized".
Proof.
  apply (@row_without_Category_is_undefined [sheet_without_category]
           [ {| category := "undefined"; sheetName := "Security";
                text := "Question: Is data encrypted?" ++ JsString.newline ++ "Answer: Yes, AES-256";
                originalData := [("Question", "Is data encrypted?"); ("Answer", "Yes, AES-256")] |} ]).
  - vm_compute. reflexivity.
  - left. reflexivity.
  - reflexivity.
Defined.

(** The default is only taken for a row that has a [Category] cell whose
    trimmed text is empty. *)
Lemma uncategorized_only_for_blank_Category workbook data item :
  Extractor.processedData workbook = Ok data ->
  In item data ->
  category item = "uncategorized" ->
  JsObject.get (originalData item) "Category" = Some "" \/
  JsObject.get (originalData item) "Category" = Some "uncategorized".
Proof.
  intros Hdata Hin Hc.
  destruct (@processedData_In workbook data item Hdata Hin) as [ws [items [_ [Hs Hi]]]].
  destruct (@sheetItems_category ws items item Hs Hi) as [_ Hk]. rewrite Hc in Hk. unfold Extractor.groupKey in Hk.
  destruct (JsObject.get (originalData item) "Category") as [c|]; simpl in Hk.
  - unfold Extractor.categoryOrDefault in Hk. destruct c; simpl in Hk.
    + now left.
    + right. now rewrite Hk.
  - discriminate.
Qed.

Lemma uncategorized_only_for_blank_Category_witness :
  JsObject.get [("Category", ""); ("Question", "Discounts?")] "Category" = Some "" \/
  JsObject.get [("Category", ""); ("Question", "Discounts?")] "Category"
  = Some "uncategorized".
Proof.
  apply (@uncategorized_only_for_blank_Category [sheet_with_category]
           (match Extractor.processedData [sheet_with_category] with
            | Ok data => data
            | Throw _ => []
            end)
           {| category := "uncategorized"; sheetName := "Pricing";
              text := "Question: Discounts?";
              originalData := [("Category", ""); ("Question", "Discounts?")] |}).
  - vm_compute. reflexivity.
  - vm_compute. right. left. reflexivity.
  - reflexivity.
Defined.

(* ===================================================================== *)
(** ** Degraded mode *)
(* ===================================================================== *)

Section Degraded.
Context {W : Type} {C : Collaborators W}.

(** The probe never throws. *)
Lemma testConnectivity_total (s : St W) :
  exists b s', testConnectivity s = (Ok b, s').
Proof.
  unfold testConnectivity, try_catch, bind, remote, ret, throw.
  destruct (describe_index_stats (world s)) as [[r|e] w']; simpl; eauto.
  destruct (probe_ok r); eauto. destruct (probe_json r); eauto.
Qed.

(** [MOCK_MODE] is set exactly when the probe does not report a
    connection. *)
Lemma startup_sets_MOCK_MODE (s s' : St W) (isConnected : bool) :
  testConnectivity s = (Ok isConnected, s') ->
  startup s = (Ok (negb isConnected), s').
Proof.
  intros H. unfold startup, try_catch, bind. rewrite H.
  destruct isConnected; reflexivity.
Qed.

End Degraded.

(** C4, amended. When the start-up probe has failed, [MOCK_MODE] is set, and
    [processExcelRFP] on a spreadsheet from which [n] records are extracted
    returns [success = true], [mockMode = true] and the stats [n, n, 0, 0];
    the world is left as it was and the trace gains no event: no fetch, no
    embedding, no upsert. *)
Theorem processExcelRFP_in_degraded_mode :
  forall (W : Type) (C : Collaborators W) (s0 s1 : St W)
         (buffer : string) (md : Metadata) (workbook : Workbook)
         (data : list Item) (s : St W),
    testConnectivity s0 = (Ok false, s1) ->
    xlsx_load buffer = Ok workbook ->
    Extractor.processedData workbook = Ok data ->
    exists MOCK_MODE,
      startup s0 = (Ok MOCK_MODE, s1) /\
      MOCK_MODE = true /\
      Part000.processExcelRFP MOCK_MODE buffer md s =
      (Ok {| success := true;
             stats := {| totalItems := length data;
                         processed := length data;
                         skipped := 0;
                         errors := 0 |};
             sheets := Extractor.sheetNames workbook;
             ingest_mockMode := Some true |},
       s).
Proof.
  intros W C s0 s1 buffer md workbook data s Hprobe Hload Hdata.
  exists true. split; [|split; [reflexivity|]].
  - apply (startup_sets_MOCK_MODE _ Hprobe).
  - unfold Part000.processExcelRFP, try_catch. rewrite Hload, Hdata. reflexivity.
Qed.

Lemma processExcelRFP_in_degraded_mode_witness :
  exists MOCK_MODE,
    startup (Harness.start unreachableWorld)
    = (Ok MOCK_MODE, {| world := unreachableWorld; trace := [EProbe] |}) /\
    MOCK_MODE = true /\
    Part000.processExcelRFP MOCK_MODE "rfp.xlsx" md_2024_Q1
      {| world := unreachableWorld; trace := [EProbe] |} =
    (Ok {| success := true;
           stats := {| totalItems := 3; processed := 3; skipped := 0; errors := 0 |};
           sheets := ["Security"; "Pricing"];
           ingest_mockMode := Some true |},
     {| world := unreachableWorld; trace := [EProbe] |}).
Proof.
  apply (@processExcelRFP_in_degraded_mode Harness.World harness
           (Harness.start unreachableWorld)
           {| world := unreachableWorld; trace := [EProbe] |}
           "rfp.xlsx" md_2024_Q1 [sheet_without_category; sheet_with_category]
           (match Extractor.processedData [sheet_without_category; sheet_with_category] with
            | Ok data => data
            | Throw _ => []
            end)
           {| world := unreachableWorld; trace := [EProbe] |}).
  - reflexivity.
  - reflexivity.
  - vm_compute. reflexivity.
Defined.

(** C4, as stated, fails. The workbook of [budget.xlsx] is one the reader
    loads; the second cell of its header row holds the number 2024. With
    the probe failed and [MOCK_MODE] set, [processExcelRFP] on it does not
    return the synthetic success: the extraction, which comes before the
    test of [MOCK_MODE], throws, and the call throws that error. *)
Lemma processExcelRFP_degraded_numeric_header :
  startup (Harness.start unreachableWorld)
  = (Ok true, {| world := unreachableWorld; trace := [EProbe] |}) /\
  xlsx_load (W := Harness.World) "budget.xlsx" = Ok [sheet_with_numeric_header] /\
  Part000.processExcelRFP true "budget.xlsx" md_2024_Q1
    {| world := unreachableWorld; trace := [EProbe] |}
  = (Throw {| message := "header.trim is not a function" |},
     {| world := unreachableWorld; trace := [EProbe] |}) /\
  ~ (exists result s',
        Part000.processExcelRFP true "budget.xlsx" md_2024_Q1
          {| world := unreachableWorld; trace := [EProbe] |} = (Ok result, s') /\
        success result = true).
Proof.
  split; [reflexivity|]. split; [reflexivity|]. split; [reflexivity|].
  intros [result [s' [H _]]]. discriminate H.
Qed.



(* ===================================================================== *)
(** ** [queryRFPData], the revision with [MOCK_MODE] *)
(* ===================================================================== *)

Lemma after_prefix_app (w tail : string) :
  Part000.after_prefix w (w ++ tail) = Some tail.
Proof.
  induction w as [|c w IH]; simpl; [now destruct tail|].
  now rewrite Ascii.eqb_refl.
Qed.

Lemma after_prefix_inv (w s rest : string) :
  Part000.after_prefix w s = Some rest -> s = w ++ rest.
Proof.
  revert s. induction w as [|c w IH]; intros s; simpl.
  - destruct s; intros [= <-]; reflexivity.
  - destruct s as [|b s]; [discriminate|].
    destruct (Ascii.eqb_spec c b) as [->|_]; [|discriminate].
    intros H. now rewrite (IH _ H).
Qed.

Lemma all_tail_Forall (tail : string) :
  Part000.all_tail tail = true <->
  Forall (fun c => Part000.is_tail_char c = true) (list_ascii_of_string tail).
Proof.
  induction tail as [|c tail IH]; simpl.
  - split; [constructor|reflexivity].
  - rewrite andb_true_iff, IH. split.
    + intros [H1 H2]. now constructor.
    + intros H. inversion H; subst. now split.
Qed.

(** The regular expression accepts exactly the greeting messages. *)
Lemma isGreeting_spec (question : string) :
  Part000.isGreeting question = true <-> GreetingMessage question.
Proof.
  unfold Part000.isGreeting, Part000.matchesGreeting, GreetingMessage.
  rewrite existsb_exists. split.
  - intros [w [Hw H]].
    destruct (Part000.after_prefix w _) as [rest|] eqn:E; [|discriminate].
    exists w, rest. repeat split; [assumption|now apply after_prefix_inv|].
    now apply all_tail_Forall.
  - intros [w [tail [Hw [Heq Ht]]]]. exists w. split; [assumption|].
    rewrite Heq, after_prefix_app. now apply all_tail_Forall.
Qed.

Example greeting_hi : GreetingMessage "hi".
Proof. apply isGreeting_spec. reflexivity. Qed.

Example greeting_Hello : GreetingMessage "Hello!".
Proof. apply isGreeting_spec. reflexivity. Qed.

Example greeting_hey : GreetingMessage "hey,".
Proof. apply isGreeting_spec. reflexivity. Qed.

Example no_greeting_which : ~ GreetingMessage "Which vendors are certified?".
Proof. rewrite <- isGreeting_spec. discriminate. Qed.

Section Part000Query.
Context {W : Type} {C : Collaborators W}.
Variable MOCK_MODE : bool.

(** A greeting is answered before anything is sent out: the state after
    the call is the state before it. *)
Lemma Part000_greeting_short_circuit question filters (s : St W) :
  GreetingMessage question ->
  Part000.queryRFPData MOCK_MODE question filters s = (Ok greetingResult, s).
Proof.
  intros H. apply isGreeting_spec in H.
  unfold Part000.queryRFPData, Part000.queryBody, try_catch. now rewrite H.
Qed.

(** The call returns whatever the [try] block returns, and the fallback
    with the error's message when the block throws: it never throws. *)
Lemma Part000_query_never_raises question filters (s : St W) :
  exists result s',
    Part000.queryRFPData MOCK_MODE question filters s = (Ok result, s') /\
    (forall e s1,
        Part000.queryBody MOCK_MODE question filters s = (Throw e, s1) ->
        result = fallbackResult e /\ s' = s1) /\
    (forall r s1,
        Part000.queryBody MOCK_MODE question filters s = (Ok r, s1) ->
        result = r /\ s' = s1).
Proof.
  unfold Part000.queryRFPData, try_catch.
  destruct (Part000.queryBody MOCK_MODE question filters s) as [[r|e] s1].
  - exists r, s1. repeat split; try discriminate; congruence.
  - exists (fallbackResult e), s1. unfold ret.
    repeat split; try discriminate; congruence.
Qed.

End Part000Query.

Section Part000Retrieval.
Context {W : Type} {C : Collaborators W}.

Lemma Part000_contextOf_pure m (s : St W) r s' :
  Part000.contextOf m s = (r, s') -> s' = s.
Proof.
  unfold Part000.contextOf. destruct (match_metadata m); intros [= _ <-]; reflexivity.
Qed.

(** Every match that carries metadata gets its context, whatever its
    [originalData] holds. *)
Lemma Part000_contexts_total ms (s : St W) :
  Forall (fun m => match_metadata m <> None) ms ->
  exists contexts,
    mapM Part000.contextOf ms s = (Ok contexts, s) /\
    Forall2 (fun m c => Part000.contextOf m s = (Ok c, s)) ms contexts.
Proof.
  induction 1 as [|m ms Hm _ IH].
  - exists []. split; [reflexivity|constructor].
  - destruct IH as [cs [Hcs Hall]].
    destruct (match_metadata m) as [md|] eqn:E; [|congruence].
    eexists (_ :: cs). split.
    + simpl. unfold bind. unfold Part000.contextOf at 1. rewrite E.
      unfold ret at 1. rewrite Hcs. reflexivity.
    + constructor; [|assumption]. unfold Part000.contextOf. rewrite E. reflexivity.
Qed.

(** A stored string that is not JSON gives the empty mapping. *)
Lemma Part000_unparsable_originalData m md bad e (s : St W) :
  match_metadata m = Some md ->
  md_originalData md = MString bad ->
  JSON_parse bad = Throw e ->
  exists c, Part000.contextOf m s = (Ok c, s) /\ ctx_originalData c = JObject [].
Proof.
  intros Hm Hd Hp. unfold Part000.contextOf. rewrite Hm.
  eexists. split; [reflexivity|]. simpl. rewrite Hd. simpl.
  destruct (JsString.truthy bad); [now rewrite Hp|reflexivity].
Qed.

(** A stored match whose [originalData] is not JSON does not disturb the
    retrieval: all the contexts are built, in ranked order, the one of that
    match with the empty mapping, and the answer of the completion is
    returned with this full list as its sources. *)
Lemma Part000_unparsable_match_is_kept
  question filters (s s1 s2 : St W) v ms m md bad e :
  Part000.isGreeting question = false ->
  questionEmbedding question s = (Ok v, s1) ->
  withRetry_default (api_query v 5 (filterConditionsOf filters)) s1
  = (Ok (Some {| matches := Some ms |}), s2) ->
  Forall (fun m => match_metadata m <> None) ms ->
  In m ms ->
  match_metadata m = Some md ->
  md_originalData md = MString bad ->
  JSON_parse bad = Throw e ->
  exists contexts c,
    Forall2 (fun m c => Part000.contextOf m s2 = (Ok c, s2)) ms contexts /\
    Part000.contextOf m s2 = (Ok c, s2) /\ In c contexts /\
    ctx_originalData c = JObject [] /\
    forall result s3,
      complete Part000.SYSTEM_PROMPT contexts question s2 = (Ok result, s3) ->
      Part000.queryRFPData false question filters s = (Ok result, s3) /\
      sources result = contexts /\ error result = None.
Proof.
  intros Hg He Hq Hall Hin Hm Hd Hp.
  destruct (Part000_contexts_total s2 Hall) as [contexts [Hmap Hf2]].
  destruct (@Part000_unparsable_originalData m md bad e s2 Hm Hd Hp) as [c [Hc Hempty]].
  exists contexts, c. split; [assumption|]. split; [assumption|]. split.
  { clear - Hf2 Hin Hc. induction Hf2 as [|m' c' ms cs H1 _ IH]; [destruct Hin|].
    destruct Hin as [->|Hin]; [left; congruence|right; now apply IH]. }
  split; [assumption|].
  intros result s3 Hcomp.
  assert (Hms : ms <> []) by (intros ->; destruct Hin).
  assert (Hrun : Part000.queryRFPData false question filters s = (Ok result, s3)).
  { unfold Part000.queryRFPData, Part000.queryBody, try_catch. rewrite Hg.
    unfold bind at 1. rewrite He. unfold bind at 1. rewrite Hq. simpl.
    destruct ms as [|m0 ms0]; [congruence|].
    unfold bind at 1. rewrite Hmap. rewrite Hcomp. reflexivity. }
  split; [assumption|].
  unfold complete, bind in Hcomp.
  destruct (withRetry_default _ s2) as [[[[|a l]|]|e0] s4]; try discriminate.
  unfold ret in Hcomp. injection Hcomp as <- _. split; reflexivity.
Qed.

(** No match: the canned answer, and the state is the one the similarity
    query left, so the completion service is not called. *)
Lemma Part000_no_match question filters (s s1 s2 : St W) v r :
  Part000.isGreeting question = false ->
  questionEmbedding question s = (Ok v, s1) ->
  withRetry_default (api_query v 5 (filterConditionsOf filters)) s1
  = (Ok (Some r), s2) ->
  matches r = None \/ matches r = Some [] ->
  Part000.queryRFPData false question filters s = (Ok noMatchResult, s2).
Proof.
  intros Hg He Hq Hm.
  unfold Part000.queryRFPData, Part000.queryBody, try_catch. rewrite Hg.
  unfold bind at 1. rewrite He. unfold bind at 1. rewrite Hq. simpl.
  destruct Hm as [-> | ->]; reflexivity.
Qed.

End Part000Retrieval.

Example Part000_unparsable_match_run :
  let run := Part000.queryRFPData false "What is the uptime?" []
               (Harness.start brokenMatchWorld) in
  match fst run with
  | Ok result =>
      answer result = "It is covered in section 4." /\
      map ctx_originalData (sources result)
      = [JObject [("Question", JString "Is data encrypted?")]; JObject []] /\
      error result = None
  | Throw _ => False
  end.
Proof. vm_compute. repeat split. Qed.

(* ===================================================================== *)
(** ** [queryRFPData], the revision with the SDK client *)
(* ===================================================================== *)

Section ExcelProcessorQuery.
Context {W : Type} {C : Collaborators W}.
Variable pineconeIndex : bool.

(** This revision does not throw either. *)
Lemma ExcelProcessor_query_never_raises question filters (s : St W) :
  exists result s',
    ExcelProcessor.queryRFPData pineconeIndex question filters s = (Ok result, s').
Proof.
  unfold ExcelProcessor.queryRFPData, try_catch.
  destruct (ExcelProcessor.queryBody pineconeIndex question filters s) as [[r|e] s1].
  - eauto.
  - destruct (ExcelProcessor.looksLikeGreeting question); unfold ret; eauto.
Qed.

(** What the [catch] block answers. *)
Lemma ExcelProcessor_query_on_error question filters (s s1 : St W) e :
  ExcelProcessor.queryBody pineconeIndex question filters s = (Throw e, s1) ->
  ExcelProcessor.queryRFPData pineconeIndex question filters s =
  (Ok (if ExcelProcessor.looksLikeGreeting question
       then greetingResult else fallbackResult e), s1).
Proof.
  intros H. unfold ExcelProcessor.queryRFPData, try_catch. rewrite H.
  destruct (ExcelProcessor.looksLikeGreeting question); reflexivity.
Qed.

End ExcelProcessorQuery.

(* ===================================================================== *)
(** ** What a computation keeps *)
(* ===================================================================== *)

Section Keeps.
Context {W : Type}.
Variable P : W -> Prop.


Lemma keeps_ret {A} (a : A) : keeps P (ret a).
Proof. intros s r s' [= _ <-] H. exact H. Qed.

Lemma keeps_throw {A} (e : JsError) : keeps P (@throw W A e).
Proof. intros s r s' [= _ <-] H. exact H. Qed.

Lemma keeps_bind {A B} (c : M W A) (k : A -> M W B) :
  keeps P c -> (forall a, keeps P (k a)) -> keeps P (bind c k).
Proof.
  intros Hc Hk s r s' Hrun HP. unfold bind in Hrun.
  destruct (c s) as [[a|e] s1] eqn:E.
  - eapply Hk; eauto.
  - injection Hrun as _ <-. eauto.
Qed.

Lemma keeps_try_catch {A} (c : M W A) (h : JsError -> M W A) :
  keeps P c -> (forall e, keeps P (h e)) -> keeps P (try_catch c h).
Proof.
  intros Hc Hh s r s' Hrun HP. unfold try_catch in Hrun.
  destruct (c s) as [[a|e] s1] eqn:E.
  - injection Hrun as _ <-. eauto.
  - eapply Hh; eauto.
Qed.

Lemma keeps_sleep (ms : Z) : keeps P (sleep ms).
Proof. intros s r s' [= _ <-] H. exact H. Qed.

Lemma keeps_remote {A} (ev : Event) (op : W -> JsResult A * W) :
  (forall w r w', op w = (r, w') -> P w -> P w') -> keeps P (remote ev op).
Proof.
  intros Hop s r s' Hrun HP. unfold remote in Hrun.
  destruct (op (world s)) as [r0 w'] eqn:E. injection Hrun as _ <-. simpl. eauto.
Qed.

Lemma keeps_withRetry_default {A} (c : M W A) :
  keeps P c -> keeps P (withRetry_default c).
Proof. intros Hc s r s'. now apply withRetry_default_keeps. Qed.

Lemma keeps_foldM {A B} (f : B -> A -> M W B) (l : list A) :
  (forall b a, keeps P (f b a)) -> forall b, keeps P (foldM f l b).
Proof.
  intros Hf. induction l as [|a l IH]; intros b; simpl.
  - apply keeps_ret.
  - apply keeps_bind; [apply Hf|assumption].
Qed.

End Keeps.

(** The attempt that made a run of [withRetry] succeed. *)
Lemma withRetry_loop_success {W A} (operation : M W A) maxRetries :
  forall fuel i delay s a s',
    withRetry_loop fuel operation maxRetries i delay s = (Ok (Some a), s') ->
    exists sk, operation sk = (Ok a, s').
Proof.
  induction fuel as [|fuel IH]; intros i delay s a s' Hrun; [discriminate|].
  rewrite withRetry_loop_S in Hrun.
  destruct (i <? maxRetries)%Z; [|discriminate].
  unfold try_catch, bind in Hrun.
  destruct (operation s) as [[a0|e] s1] eqn:E.
  - injection Hrun as <- <-. eauto.
  - destruct (i =? maxRetries - 1)%Z; [discriminate|].
    simpl in Hrun. eapply IH; eauto.
Qed.

Lemma concat_chunk_from {A} (size : nat) :
  forall (l cur : list A) room,
    concat (chunk_from size cur room l) = (cur ++ l)%list.
Proof.
  induction l as [|x l IH]; intros cur room; simpl.
  - destruct cur; simpl; [reflexivity|now rewrite app_nil_r].
  - destruct room; simpl.
    + now rewrite IH.
    + now rewrite IH, <- app_assoc.
Qed.

(** The batches, put end to end, are the records in their order. *)
Lemma concat_chunk {A} (l : list A) : concat (chunk BATCH_SIZE l) = l.
Proof. unfold chunk, BATCH_SIZE. now rewrite concat_chunk_from. Qed.

(* ===================================================================== *)
(** ** The upload loop against an index whose upserts are visible *)
(* ===================================================================== *)

Lemma foldM_cons {W A B} (f : B -> A -> M W B) a l b (s : St W) :
  foldM f (a :: l) b s =
  match f b a s with
  | (Ok b', s') => foldM f l b' s'
  | (Throw e, s') => (Throw e, s')
  end.
Proof. reflexivity. Qed.

Section UploadFacts.
Context {W : Type} {C : Collaborators W}.
Variable fetch : list string -> W -> JsResult FetchResponse * W.
Variable upsert : list VectorRecord -> W -> JsResult unit * W.
Variable fetchEvent : list string -> Event.
Variable upsertEvent : list VectorRecord -> Event.
Variable md : Metadata.

Hypothesis Hvis : UpsertsVisible fetch upsert embeddings_create.

Let fetchVectors (ids : list string) : M W FetchResponse :=
  remote (fetchEvent ids) (fetch ids).
Let upsertVectors (records : list VectorRecord) : M W unit :=
  remote (upsertEvent records) (upsert records).
Let vis := visible fetch.
Let gid := generateStableId md.

Section Stable.
Variable P : W -> Prop.
Hypothesis HP : stable fetch upsert embeddings_create P.

Lemma keeps_fetchVectors ids : keeps P (fetchVectors ids).
Proof. apply keeps_remote. intros w r w'. apply (stable_fetch HP). Qed.

Lemma keeps_upsertVectors records : keeps P (upsertVectors records).
Proof. apply keeps_remote. intros w r w'. apply (stable_upsert HP). Qed.

Lemma keeps_getEmbedding input : keeps P (getEmbedding input).
Proof.
  unfold getEmbedding. apply keeps_bind.
  - apply keeps_remote. intros w r w'. apply (stable_embed HP).
  - intros [|first rest]; [apply keeps_throw|apply keeps_ret].
Qed.

Lemma keeps_existingVector vid : keeps P (existingVector fetchVectors vid).
Proof.
  unfold existingVector. apply keeps_try_catch.
  - apply keeps_bind.
    + apply keeps_withRetry_default, keeps_fetchVectors.
    + intros [r|]; [apply keeps_ret|apply keeps_throw].
  - intros e. apply keeps_ret.
Qed.

Lemma keeps_prepareItem acc item : keeps P (prepareItem fetchVectors md acc item).
Proof.
  destruct acc as [ops n]. unfold prepareItem. apply keeps_try_catch.
  - apply keeps_bind; [apply keeps_existingVector|].
    intros existing. destruct (JsObject.get existing _).
    + apply keeps_ret.
    + apply keeps_bind.
      * apply keeps_withRetry_default, keeps_getEmbedding.
      * intros embedding. apply keeps_ret.
  - intros e. apply keeps_ret.
Qed.

Lemma keeps_uploadBatch n batch :
  keeps P (uploadBatch fetchVectors upsertVectors md n batch).
Proof.
  unfold uploadBatch. apply keeps_bind.
  - apply keeps_foldM. intros b a. apply keeps_prepareItem.
  - intros [ops n']. destruct ops as [|op ops]; [apply keeps_ret|].
    apply keeps_try_catch.
    + apply keeps_bind.
      * apply keeps_withRetry_default, keeps_upsertVectors.
      * intros _. apply keeps_ret.
    + intros e. apply keeps_ret.
Qed.

End Stable.

Lemma stable_vis vid : stable fetch upsert embeddings_create (fun w => vis w vid).
Proof. apply (visible_stable Hvis). Qed.

(** A property that is a conjunction of visibilities is stable. *)
Lemma stable_all_visible (ids : list string) :
  stable fetch upsert embeddings_create (fun w => forall i, In i ids -> vis w i).
Proof.
  split; intros ? w r w' Hcall Hall i Hi.
  - eapply (stable_fetch (stable_vis i)); eauto.
  - eapply (stable_upsert (stable_vis i)); eauto.
  - eapply (stable_embed (stable_vis i)); eauto.
Qed.

(** The fetch check never throws, and what it finds is visible. *)
Lemma existingVector_outcome vid (s : St W) :
  exists existing s1,
    existingVector fetchVectors vid s = (Ok existing, s1) /\
    (forall x, JsObject.get existing vid = Some x -> vis (world s1) vid).
Proof.
  unfold existingVector, try_catch, bind.
  destruct (withRetry_default (fetchVectors [vid]) s) as [[[r|]|e] s1] eqn:E.
  - eexists _, s1. split; [reflexivity|]. intros x Hx.
    unfold withRetry_default, withRetry in E.
    apply withRetry_loop_success in E. destruct E as [sk Hk].
    unfold fetchVectors, remote in Hk.
    destruct (fetch [vid] (world sk)) as [r0 w'] eqn:Ef.
    injection Hk as -> <-. simpl.
    eapply (stable_fetch (stable_vis vid)); [exact Ef|].
    exists r, w'. split; [assumption|]. unfold found.
    destruct (vectors r); [now rewrite Hx|discriminate].
  - simpl. exists [], s1. split; [reflexivity|]. discriminate.
  - exists [], s1. split; [reflexivity|]. discriminate.
Qed.

(** The three ways an item leaves the loop body. *)
Lemma prepareItem_outcome ops n item (s : St W) r s' :
  prepareItem fetchVectors md (ops, n) item s = (r, s') ->
  (r = Ok (ops, skipMore 1 n) /\ vis (world s') (gid item)) \/
  (exists v,
      r = Ok ((ops ++ [ {| id := gid item; values := v;
                           metadata := vectorMetadata md item |} ])%list,
              {| processedRows := S (processedRows n);
                 skippedRows := skippedRows n;
                 errorRows := errorRows n |})) \/
  r = Ok (ops, {| processedRows := processedRows n;
                  skippedRows := skippedRows n;
                  errorRows := S (errorRows n) |}).
Proof.
  unfold prepareItem, try_catch. unfold bind at 1.
  destruct (existingVector_outcome (generateStableId md item) s)
    as [existing [s1 [He Hfound]]].
  rewrite He.
  destruct (JsObject.get existing (generateStableId md item)) as [x|] eqn:Eg.
  - unfold ret. intros [= <- <-]. left. split; [reflexivity|].
    eapply Hfound; eauto.
  - unfold bind.
    destruct (withRetry_default (getEmbedding (text item)) s1) as [[emb|e] s2].
    + unfold ret. intros [= <- <-]. right. left. eauto.
    + intros [= <- <-]. right. right. reflexivity.
Qed.

(** After the items of a batch: either an error was counted, or every
    item is visible or staged. *)
Lemma stage_batch_outcome :
  forall batch ops n (s : St W) r s',
    foldM (prepareItem fetchVectors md) batch (ops, n) s = (r, s') ->
    exists ops' n',
      r = Ok (ops', n') /\
      errorRows n <= errorRows n' /\
      incl (map id ops) (map id ops') /\
      (errorRows n' = errorRows n ->
       forall item, In item batch ->
                    vis (world s') (gid item) \/ In (gid item) (map id ops')).
Proof.
  induction batch as [|item batch IH]; intros ops n s r s' Hrun.
  - injection Hrun as <- <-. exists ops, n.
    repeat split; [lia|apply incl_refl|intros _ item []].
  - rewrite foldM_cons in Hrun.
    destruct (prepareItem fetchVectors md (ops, n) item s) as [r1 s1] eqn:E1.
    pose proof (@prepareItem_outcome ops n item s r1 s1 E1) as Hout.
    assert (Hrest : forall ops1 n1,
               r1 = Ok (ops1, n1) ->
               foldM (prepareItem fetchVectors md) batch (ops1, n1) s1 = (r, s')).
    { intros ops1 n1 ->. exact Hrun. }
    destruct Hout as [[-> Hv] | [[v ->] | ->]].
    + specialize (Hrest _ _ eq_refl).
      destruct (IH _ _ _ _ _ Hrest) as [ops' [n' [-> [Hle [Hincl Hall]]]]].
      exists ops', n'. simpl in Hle. repeat split; [lia|assumption|].
      intros Heq item' [<-|Hin].
      * left.
        eapply (keeps_foldM (P := fun w => vis w (gid item))); [|exact Hrest|exact Hv].
        intros b a. apply keeps_prepareItem, stable_vis.
      * apply Hall; [simpl; lia|assumption].
    + specialize (Hrest _ _ eq_refl).
      destruct (IH _ _ _ _ _ Hrest) as [ops' [n' [-> [Hle [Hincl Hall]]]]].
      exists ops', n'. simpl in Hle. repeat split; [lia| |].
      * intros x Hx. apply Hincl. rewrite map_app. apply in_or_app. now left.
      * intros Heq item' [<-|Hin].
        -- right. apply Hincl. rewrite map_app. apply in_or_app. right. now left.
        -- apply Hall; [simpl; lia|assumption].
    + specialize (Hrest _ _ eq_refl).
      destruct (IH _ _ _ _ _ Hrest) as [ops' [n' [-> [Hle [Hincl Hall]]]]].
      exists ops', n'. simpl in Hle. repeat split; [lia|assumption|].
      intros Heq. lia.
Qed.

(** After a batch: either an error was counted, or every item of the
    batch is visible. *)
Lemma uploadBatch_outcome n batch (s : St W) r s' :
  uploadBatch fetchVectors upsertVectors md n batch s = (r, s') ->
  exists n',
    r = Ok n' /\
    errorRows n <= errorRows n' /\
    (errorRows n' = errorRows n ->
     forall item, In item batch -> vis (world s') (gid item)).
Proof.
  unfold uploadBatch. unfold bind at 1.
  destruct (foldM (prepareItem fetchVectors md) batch ([], n) s) as [r1 s1] eqn:E1.
  destruct (@stage_batch_outcome batch [] n s r1 s1 E1) as [ops [n1 [-> [Hle [_ Hall]]]]].
  destruct ops as [|op ops].
  - unfold ret. intros [= <- <-]. exists n1. repeat split; [assumption|].
    intros Heq item Hin. destruct (Hall Heq item Hin) as [H|[]]. exact H.
  - unfold try_catch, bind.
    destruct (withRetry_default (upsertVectors (op :: ops)) s1) as [[u|e] s2] eqn:E2.
    + unfold ret. intros [= <- <-]. exists n1. repeat split; [assumption|].
      intros Heq item Hin.
      destruct (@withRetry_default_defined _ _ _ _ _ _ E2) as [[] ->].
      pose proof E2 as Hkeep.
      unfold withRetry_default, withRetry in E2.
      apply withRetry_loop_success in E2. destruct E2 as [sk Hk].
      unfold upsertVectors, remote in Hk.
      destruct (upsert (op :: ops) (world sk)) as [r0 w'] eqn:Eu.
      injection Hk as -> <-. simpl.
      destruct (Hall Heq item Hin) as [H|H].
      * change w' with (world {| world := w'; trace := (trace sk ++ [upsertEvent (op :: ops)])%list |}).
        eapply (keeps_withRetry_default (P := fun w => vis w (gid item)));
          [|exact Hkeep|exact H].
        apply keeps_upsertVectors, stable_vis.
      * eapply (upsert_visible Hvis); eauto.
    + unfold ret. intros [= <- <-]. eexists. split; [reflexivity|].
      simpl. split; [lia|]. intros Heq. lia.
Qed.

(** After all the batches: either an error was counted, or every record
    is visible. *)
Lemma upload_batches_outcome :
  forall batches n (s : St W) r s',
    foldM (uploadBatch fetchVectors upsertVectors md) batches n s = (r, s') ->
    exists n',
      r = Ok n' /\
      errorRows n <= errorRows n' /\
      (errorRows n' = errorRows n ->
       forall item, In item (concat batches) -> vis (world s') (gid item)).
Proof.
  induction batches as [|batch batches IH]; intros n s r s' Hrun.
  - injection Hrun as <- <-. exists n. repeat split; [lia|intros _ item []].
  - rewrite foldM_cons in Hrun.
    destruct (uploadBatch fetchVectors upsertVectors md n batch s) as [r1 s1] eqn:E1.
    destruct (@uploadBatch_outcome n batch s r1 s1 E1) as [n1 [-> [Hle1 Hall1]]].
    destruct (IH _ _ _ _ Hrun) as [n' [-> [Hle Hall]]].
    exists n'. repeat split; [lia|].
    intros Heq item Hin. simpl in Hin. apply in_app_or in Hin.
    destruct Hin as [Hin|Hin].
    + eapply (keeps_foldM (P := fun w => vis w (gid item))); [|exact Hrun|].
      * intros b a. apply keeps_uploadBatch, stable_vis.
      * apply Hall1; [lia|assumption].
    + apply Hall; [lia|assumption].
Qed.

(** A visible item is skipped after one point fetch. *)
Lemma prepareItem_visible ops n item (s : St W) :
  vis (world s) (gid item) ->
  exists w',
    prepareItem fetchVectors md (ops, n) item s =
    (Ok (ops, skipMore 1 n),
     {| world := w'; trace := (trace s ++ [fetchEvent [gid item]])%list |}).
Proof.
  intros [r [w' [Hf Hfound]]]. exists w'.
  unfold prepareItem, try_catch. unfold bind at 1.
  assert (He : existingVector fetchVectors (generateStableId md item) s =
               (Ok (match vectors r with Some v => v | None => [] end),
                {| world := w'; trace := (trace s ++ [fetchEvent [gid item]])%list |})).
  { unfold existingVector, try_catch, bind.
    rewrite (@withRetry_default_first _ _ (fetchVectors [generateStableId md item]) s
               {| world := w'; trace := (trace s ++ [fetchEvent [gid item]])%list |} r).
    - reflexivity.
    - unfold fetchVectors, remote. unfold gid in Hf. rewrite Hf. reflexivity. }
  rewrite He. unfold found, gid in Hfound.
  destruct (vectors r) as [v|]; [|discriminate].
  destruct (JsObject.get v (generateStableId md item)); [reflexivity|discriminate].
Qed.

(** A batch of visible items: all skipped, nothing staged, one point
    fetch each. *)
Lemma stage_batch_visible (ids : list string) :
  forall batch ops n (s : St W),
    (forall i, In i ids -> vis (world s) i) ->
    (forall item, In item batch -> In (gid item) ids) ->
    exists w',
      foldM (prepareItem fetchVectors md) batch (ops, n) s =
      (Ok (ops, skipMore (length batch) n),
       {| world := w';
          trace := (trace s ++ map (fun item => fetchEvent [gid item]) batch)%list |}) /\
      (forall i, In i ids -> vis w' i).
Proof.
  induction batch as [|item batch IH]; intros ops n s Hall Hsub.
  - exists (world s). simpl. rewrite app_nil_r. destruct s, n. split; [reflexivity|assumption].
  - destruct (@prepareItem_visible ops n item s) as [w1 E1].
    { apply Hall, Hsub. now left. }
    assert (Hall1 : forall i, In i ids -> vis w1 i).
    { change w1 with (world {| world := w1; trace := (trace s ++ [fetchEvent [gid item]])%list |}).
      eapply (keeps_prepareItem (stable_all_visible ids)); eauto. }
    destruct (IH ops (skipMore 1 n)
                {| world := w1; trace := (trace s ++ [fetchEvent [gid item]])%list |}
                Hall1) as [w' [E2 Hall2]].
    { intros it Hin. apply Hsub. now right. }
    exists w'. split; [|assumption].
    rewrite foldM_cons, E1, E2. simpl.
    rewrite <- app_assoc. simpl. unfold skipMore. simpl.
    repeat (f_equal; try lia).
Qed.

Lemma uploadBatch_visible (ids : list string) n batch (s : St W) :
  (forall i, In i ids -> vis (world s) i) ->
  (forall item, In item batch -> In (gid item) ids) ->
  exists w',
    uploadBatch fetchVectors upsertVectors md n batch s =
    (Ok (skipMore (length batch) n),
     {| world := w';
        trace := (trace s ++ map (fun item => fetchEvent [gid item]) batch)%list |}) /\
    (forall i, In i ids -> vis w' i).
Proof.
  intros Hall Hsub.
  destruct (@stage_batch_visible ids batch [] n s Hall Hsub) as [w' [E Hall']].
  exists w'. split; [|assumption].
  unfold uploadBatch, bind. rewrite E. reflexivity.
Qed.

Lemma upload_batches_visible (ids : list string) :
  forall batches n (s : St W),
    (forall i, In i ids -> vis (world s) i) ->
    (forall item, In item (concat batches) -> In (gid item) ids) ->
    exists w',
      foldM (uploadBatch fetchVectors upsertVectors md) batches n s =
      (Ok (skipMore (length (concat batches)) n),
       {| world := w';
          trace := (trace s ++
                    map (fun item => fetchEvent [gid item]) (concat batches))%list |}) /\
      (forall i, In i ids -> vis w' i).
Proof.
  induction batches as [|batch batches IH]; intros n s Hall Hsub.
  - exists (world s). simpl. rewrite app_nil_r. destruct s, n. split; [reflexivity|assumption].
  - destruct (@uploadBatch_visible ids n batch s Hall) as [w1 [E1 Hall1]].
    { intros it Hin. apply Hsub. simpl. apply in_or_app. now left. }
    destruct (IH (skipMore (length batch) n)
                {| world := w1;
                   trace := (trace s ++ map (fun item => fetchEvent [gid item]) batch)%list |}
                Hall1) as [w' [E2 Hall2]].
    { intros it Hin. apply Hsub. simpl. apply in_or_app. now right. }
    exists w'. split; [|assumption].
    rewrite foldM_cons, E1, E2. simpl.
    rewrite <- app_assoc, <- map_app, length_app. unfold skipMore. simpl.
    repeat (f_equal; try lia).
Qed.

(** A first run that counts no error leaves every record visible; a run
    that starts with every record visible skips them all. *)
Lemma uploadAll_then_again data (s0 s1 : St W) n1 :
  uploadAll fetchVectors upsertVectors md data s0 = (Ok n1, s1) ->
  errorRows n1 = 0 ->
  exists w2,
    uploadAll fetchVectors upsertVectors md data s1 =
    (Ok {| processedRows := 0; skippedRows := length data; errorRows := 0 |},
     {| world := w2;
        trace := (trace s1 ++ map (fun item => fetchEvent [gid item]) data)%list |}).
Proof.
  intros Hrun Herr. unfold uploadAll in *.
  destruct (@upload_batches_outcome (chunk BATCH_SIZE data) noRows s0 (Ok n1) s1 Hrun) as [n' [Hn [_ Hall]]].
  injection Hn as <-.
  specialize (Hall Herr). rewrite concat_chunk in Hall.
  destruct (@upload_batches_visible (map gid data) (chunk BATCH_SIZE data) noRows s1)
    as [w2 [E _]].
  - intros i Hi. apply in_map_iff in Hi. destruct Hi as [item [<- Hin]]. now apply Hall.
  - rewrite concat_chunk. intros item Hin. now apply in_map.
  - exists w2. rewrite E, concat_chunk. unfold skipMore, noRows. simpl.
    now rewrite Nat.add_0_r.
Qed.

End UploadFacts.

(* ===================================================================== *)
(** ** Ingesting the same spreadsheet twice *)
(* ===================================================================== *)

Lemma point_fetches_only {A} (ev : list string -> Event) (f : A -> string) (l : list A) :
  (forall i, is_point_fetch (ev [i]) = true) ->
  forallb is_point_fetch (map (fun a => ev [f a]) l) = true.
Proof.
  intros H. induction l as [|a l IH]; simpl; [reflexivity|]. now rewrite H, IH.
Qed.

Section Reingestion.
Context {W : Type} {C : Collaborators W}.
Variable fetch : list string -> W -> JsResult FetchResponse * W.
Variable upsert : list VectorRecord -> W -> JsResult unit * W.
Variable fetchEvent : list string -> Event.
Variable upsertEvent : list VectorRecord -> Event.
Hypothesis Hvis : UpsertsVisible fetch upsert embeddings_create.
Hypothesis Hev : forall i, is_point_fetch (fetchEvent [i]) = true.

(** The part of [processExcelRFP] after the extraction, for a gateway. *)
Lemma upload_twice md data (s0 s1 : St W) n1 sheetsOf :
  let run s :=
    match
      uploadAll (fun ids => remote (fetchEvent ids) (fetch ids))
        (fun records => remote (upsertEvent records) (upsert records))
        md data s
    with
    | (Ok n, s') =>
        (Ok {| success := true;
               stats := statsOf data n;
               sheets := sheetsOf;
               ingest_mockMode := None |}, s')
    | (Throw e, s') => (Throw e, s')
    end in
  uploadAll (fun ids => remote (fetchEvent ids) (fetch ids))
    (fun records => remote (upsertEvent records) (upsert records))
    md data s0 = (Ok n1, s1) ->
  errorRows n1 = 0 ->
  skips_everything run s1.
Proof.
  intros run Hrun Herr.
  destruct (@uploadAll_then_again W C fetch upsert fetchEvent upsertEvent md Hvis
              data s0 s1 n1 Hrun Herr) as [w2 E].
  unfold skips_everything, run. rewrite E.
  eexists _, _, _. split; [reflexivity|]. simpl.
  repeat split.
  - now apply point_fetches_only.
  - now rewrite length_map.
Qed.

End Reingestion.

(** C1, as the code has it. With an index whose upserts are visible to
    later fetches, a first run of [processExcelRFP] that reports no error,
    followed by a second run on the same buffer and metadata: the second run
    finds every identifier with its point fetch and reports [processed = 0]
    and [skipped = totalItems]; it embeds nothing and upserts nothing. Both
    revisions, through either gateway. *)
Theorem reingestion_skips_everything :
  forall (W : Type) (C : Collaborators W) (pineconeIndex : bool)
         (buffer : string) (md : Metadata) (s0 s1 : St W) (first : IngestResult),
    errors (stats first) = 0 ->
    (UpsertsVisible pineconeApi_fetch pineconeApi_upsert embeddings_create ->
     Part000.processExcelRFP false buffer md s0 = (Ok first, s1) ->
     skips_everything (Part000.processExcelRFP false buffer md) s1)
    /\
    (UpsertsVisible (storeFetch pineconeIndex) (storeUpsert pineconeIndex)
       embeddings_create ->
     ExcelProcessor.processExcelRFP pineconeIndex buffer md s0 = (Ok first, s1) ->
     skips_everything (ExcelProcessor.processExcelRFP pineconeIndex buffer md) s1).
Proof.
  intros W C pineconeIndex buffer md s0 s1 first Herr. split.
  - intros Hvis Hrun.
    unfold Part000.processExcelRFP, try_catch in Hrun.
    destruct (xlsx_load buffer) as [workbook|e] eqn:El; [|discriminate].
    destruct (Extractor.processedData workbook) as [data|e] eqn:Ed; [|discriminate].
    unfold bind in Hrun.
    destruct (uploadAll api_fetch api_upsert md data s0)
      as [[n1|e] s'] eqn:Eu; [|discriminate].
    unfold ret in Hrun. injection Hrun as <- <-. simpl in Herr.
    pose proof (@upload_twice W C pineconeApi_fetch pineconeApi_upsert
                  EApiFetch EApiUpsert Hvis (fun _ => eq_refl)
                  md data s0 s' n1 (Extractor.sheetNames workbook) Eu Herr) as H.
    unfold skips_everything in *. unfold Part000.processExcelRFP, try_catch.
    rewrite El, Ed. unfold bind, ret.
    destruct H as [result [s2 [fetches [H1 H2]]]].
    exists result, s2, fetches. split; [|exact H2].
    rewrite <- H1. unfold api_fetch, api_upsert.
    destruct (uploadAll _ _ md data s') as [[n|e] s3]; reflexivity.
  - intros Hvis Hrun.
    unfold ExcelProcessor.processExcelRFP, try_catch in Hrun.
    destruct (xlsx_load buffer) as [workbook|e] eqn:El; [|discriminate].
    destruct (Extractor.processedData workbook) as [data|e] eqn:Ed; [|discriminate].
    unfold bind in Hrun.
    destruct (uploadAll (ExcelProcessor.fetchVectors pineconeIndex)
                (ExcelProcessor.upsertVectors pineconeIndex) md data s0)
      as [[n1|e] s'] eqn:Eu; [|discriminate].
    unfold ret in Hrun. injection Hrun as <- <-. simpl in Herr.
    assert (H : skips_everything
                  (fun s =>
                     match
                       uploadAll (ExcelProcessor.fetchVectors pineconeIndex)
                         (ExcelProcessor.upsertVectors pineconeIndex) md data s
                     with
                     | (Ok n, s2) =>
                         (Ok {| success := true;
                                stats := statsOf data n;
                                sheets := Extractor.sheetNames workbook;
                                ingest_mockMode := None |}, s2)
                     | (Throw e, s2) => (Throw e, s2)
                     end) s').
    { destruct pineconeIndex.
      - exact (@upload_twice W C pineconeIndex_fetch pineconeIndex_upsert
                 ESdkFetch ESdkUpsert Hvis (fun _ => eq_refl)
                 md data s0 s' n1 (Extractor.sheetNames workbook) Eu Herr).
      - exact (@upload_twice W C pineconeApi_fetch pineconeApi_upsert
                 EApiFetch EApiUpsert Hvis (fun _ => eq_refl)
                 md data s0 s' n1 (Extractor.sheetNames workbook) Eu Herr). }
    unfold skips_everything in *. unfold ExcelProcessor.processExcelRFP, try_catch.
    rewrite El, Ed. unfold bind, ret.
    destruct H as [result [s2 [fetches [H1 H2]]]].
    exists result, s2, fetches. split; [|exact H2].
    rewrite <- H1.
    destruct (uploadAll _ _ md data s') as [[n|e] s3]; reflexivity.
Qed.

(** The index of the concrete world keeps what is upserted. *)
Lemma harness_lookup_app vid records rest :
  Harness.lookup vid (records ++ rest)%list =
  match Harness.lookup vid records with
  | Some r => Some r
  | None => Harness.lookup vid rest
  end.
Proof.
  induction records as [|r records IH]; simpl; [reflexivity|].
  destruct (String.eqb (id r) vid); [reflexivity|exact IH].
Qed.

Lemma harness_lookup_In vid records :
  In vid (map id records) -> exists r, Harness.lookup vid records = Some r.
Proof.
  induction records as [|r records IH]; simpl; [tauto|].
  intros [<-|H].
  - rewrite String.eqb_refl. eauto.
  - destruct (String.eqb (id r) vid); eauto.
Qed.

Lemma harness_visible (w : Harness.World) vid :
  visible Harness.fetch w vid <-> exists r, Harness.lookup vid (Harness.store w) = Some r.
Proof.
  unfold visible, Harness.fetch, found. simpl. split.
  - intros [r [w' [[= <- <-] H]]]. simpl in H.
    destruct (Harness.lookup vid (Harness.store w)); [eauto|discriminate].
  - intros [r H]. eexists _, _. split; [reflexivity|]. simpl. rewrite H. simpl.
    now rewrite String.eqb_refl.
Qed.

Lemma harness_upserts_visible :
  UpsertsVisible Harness.fetch Harness.upsert Harness.embed.
Proof.
  split.
  - intros vid. split.
    + intros ids w r w' [= _ <-] H. exact H.
    + intros records w r w' [= _ <-]. rewrite !harness_visible. simpl.
      intros [x H]. rewrite harness_lookup_app, H.
      destruct (Harness.lookup vid records); eauto.
    + intros input w r w'. unfold Harness.embed.
      destruct (Harness.pop _ _) as [r0 rest]. intros [= _ <-].
      rewrite !harness_visible. simpl. tauto.
  - intros records w w' vid [= <-] Hin. rewrite harness_visible. simpl.
    rewrite harness_lookup_app.
    destruct (harness_lookup_In _ _ Hin) as [r ->]. eauto.
Qed.

Lemma reingestion_skips_everything_witness :
  skips_everything (Part000.processExcelRFP false "rfp.xlsx" md_2024_Q1)
    (snd (Part000.processExcelRFP false "rfp.xlsx" md_2024_Q1
            (Harness.start Harness.emptyWorld))).
Proof.
  destruct (@reingestion_skips_everything Harness.World harness false
              "rfp.xlsx" md_2024_Q1 (Harness.start Harness.emptyWorld)
              (snd (Part000.processExcelRFP false "rfp.xlsx" md_2024_Q1
                      (Harness.start Harness.emptyWorld)))
              (resultOf (Part000.processExcelRFP false "rfp.xlsx" md_2024_Q1
                           (Harness.start Harness.emptyWorld))))
    as [H _].
  - vm_compute. reflexivity.
  - apply H.
    + exact harness_upserts_visible.
    + vm_compute. reflexivity.
Defined.

Example first_and_second_run :
  let run1 := Part000.processExcelRFP false "rfp.xlsx" md_2024_Q1
                (Harness.start Harness.emptyWorld) in
  let run2 := Part000.processExcelRFP false "rfp.xlsx" md_2024_Q1 (snd run1) in
  stats (resultOf run1)
  = {| totalItems := 3; processed := 3; skipped := 0; errors := 0 |} /\
  stats (resultOf run2)
  = {| totalItems := 3; processed := 0; skipped := 3; errors := 0 |} /\
  length (calls (trace (snd run1))) = 7%nat /\
  length (calls (trace (snd run2))) = 10%nat.
Proof. vm_compute. repeat split. Qed.

(** C1, as stated, fails. The index is reachable and keeps its upserts,
    but the embedding service is down during the first run: the record is
    counted as an error and never upserted, so the second run, on the same
    buffer and metadata, processes it instead of skipping it. *)
Lemma reingestion_after_embedding_outage :
  UpsertsVisible Harness.fetch Harness.upsert Harness.embed /\
  let run1 := Part000.processExcelRFP false "security.xlsx" md_2024_Q1
                (Harness.start embeddingDownWorld) in
  let run2 := Part000.processExcelRFP false "security.xlsx" md_2024_Q1 (snd run1) in
  fst run1 = Ok (resultOf run1) /\
  fst run2 = Ok (resultOf run2) /\
  stats (resultOf run1)
  = {| totalItems := 1; processed := 0; skipped := 0; errors := 1 |} /\
  stats (resultOf run2)
  = {| totalItems := 1; processed := 1; skipped := 0; errors := 0 |} /\
  processed (stats (resultOf run2)) <> 0 /\
  skipped (stats (resultOf run2)) <> totalItems (stats (resultOf run2)).
Proof.
  split; [exact harness_upserts_visible|]. vm_compute.
  repeat split; discriminate.
Qed.

(* ===================================================================== *)
(** ** The order of the calls *)
(* ===================================================================== *)

Section Traces.
Context {W : Type}.

Lemma extends_ret {A} (a : A) : extends (@ret W A a).
Proof. intros s r s' [= _ <-]. exists []. now rewrite app_nil_r. Qed.

Lemma extends_throw {A} (e : JsError) : extends (@throw W A e).
Proof. intros s r s' [= _ <-]. exists []. now rewrite app_nil_r. Qed.

Lemma extends_remote {A} ev (op : W -> JsResult A * W) : extends (remote ev op).
Proof.
  intros s r s'. unfold remote. destruct (op (world s)) as [r0 w'].
  intros [= _ <-]. now exists [ev].
Qed.

Lemma extends_sleep ms : extends (@sleep W ms).
Proof. intros s r s' [= _ <-]. now exists [ESleep ms]. Qed.

Lemma extends_bind {A B} (c : M W A) (k : A -> M W B) :
  extends c -> (forall a, extends (k a)) -> extends (bind c k).
Proof.
  intros Hc Hk s r s'. unfold bind.
  destruct (c s) as [[a|e] s1] eqn:E.
  - intros H. destruct (Hc _ _ _ E) as [e1 H1]. destruct (Hk _ _ _ _ H) as [e2 H2].
    exists (e1 ++ e2)%list. now rewrite H2, H1, app_assoc.
  - intros [= _ <-]. eapply Hc; eauto.
Qed.

Lemma extends_try_catch {A} (c : M W A) (h : JsError -> M W A) :
  extends c -> (forall e, extends (h e)) -> extends (try_catch c h).
Proof.
  intros Hc Hh s r s'. unfold try_catch.
  destruct (c s) as [[a|e] s1] eqn:E.
  - intros [= _ <-]. eapply Hc; eauto.
  - intros H. destruct (Hc _ _ _ E) as [e1 H1]. destruct (Hh _ _ _ _ H) as [e2 H2].
    exists (e1 ++ e2)%list. now rewrite H2, H1, app_assoc.
Qed.

Lemma extends_withRetry_loop {A} (c : M W A) maxRetries :
  extends c -> forall fuel i delay, extends (withRetry_loop fuel c maxRetries i delay).
Proof.
  intros Hc. induction fuel as [|fuel IH]; intros i delay; [apply extends_ret|].
  simpl. destruct (i <? maxRetries)%Z; [|apply extends_ret].
  apply extends_try_catch.
  - apply extends_bind; [assumption|intros a; apply extends_ret].
  - intros e. destruct (i =? maxRetries - 1)%Z; [apply extends_throw|].
    apply extends_bind; [apply extends_sleep|intros _; apply IH].
Qed.

Lemma starts_with_remote {A} ev (op : W -> JsResult A * W) :
  starts_with ev (remote ev op).
Proof.
  intros s r s'. unfold remote. destruct (op (world s)) as [r0 w'].
  intros [= _ <-]. now exists [].
Qed.

Lemma starts_with_bind {A B} ev (c : M W A) (k : A -> M W B) :
  starts_with ev c -> (forall a, extends (k a)) -> starts_with ev (bind c k).
Proof.
  intros Hc Hk s r s'. unfold bind.
  destruct (c s) as [[a|e] s1] eqn:E.
  - intros H. destruct (Hc _ _ _ E) as [e1 H1]. destruct (Hk _ _ _ _ H) as [e2 H2].
    exists (e1 ++ e2)%list. now rewrite H2, H1, <- app_assoc.
  - intros [= _ <-]. eapply Hc; eauto.
Qed.

Lemma starts_with_try_catch {A} ev (c : M W A) (h : JsError -> M W A) :
  starts_with ev c -> (forall e, extends (h e)) -> starts_with ev (try_catch c h).
Proof.
  intros Hc Hh s r s'. unfold try_catch.
  destruct (c s) as [[a|e] s1] eqn:E.
  - intros [= _ <-]. eapply Hc; eauto.
  - intros H. destruct (Hc _ _ _ E) as [e1 H1]. destruct (Hh _ _ _ _ H) as [e2 H2].
    exists (e1 ++ e2)%list. now rewrite H2, H1, <- app_assoc.
Qed.

Lemma starts_with_withRetry_default {A} ev (c : M W A) :
  starts_with ev c -> extends c -> starts_with ev (withRetry_default c).
Proof.
  intros Hs Hc s r s' H.
  unfold withRetry_default, withRetry in H. change (Z.to_nat 3) with 3%nat in H.
  rewrite withRetry_loop_S in H. change (0 <? 3)%Z with true in H. cbv iota in H.
  match type of H with
  | ?c0 s = _ => assert (Hsw : starts_with ev c0)
  end.
  { apply starts_with_try_catch.
    - apply starts_with_bind; [assumption|intros a; apply extends_ret].
    - intros e. change (0 =? 3 - 1)%Z with false. cbv iota.
      apply extends_bind; [apply extends_sleep|].
      intros _. apply extends_withRetry_loop. assumption. }
  exact (Hsw s r s' H).
Qed.

Lemma extends_mapM {A B} (f : A -> M W B) (l : list A) :
  (forall a, extends (f a)) -> extends (mapM f l).
Proof.
  intros Hf. induction l as [|a l IH]; simpl; [apply extends_ret|].
  apply extends_bind; [apply Hf|]. intros b.
  apply extends_bind; [apply IH|]. intros bs. apply extends_ret.
Qed.

End Traces.

Create HintDb trace.
#[local] Hint Resolve extends_ret extends_throw extends_remote extends_sleep
  extends_bind extends_try_catch extends_withRetry_loop extends_mapM : trace.

Section ExcelProcessorOrder.
Context {W : Type} {C : Collaborators W}.
Variable pineconeIndex : bool.

Lemma extends_getEmbedding input : extends (getEmbedding (W := W) input).
Proof.
  unfold getEmbedding. apply extends_bind; [auto with trace|].
  intros [|first rest]; auto with trace.
Qed.

Lemma starts_with_questionEmbedding question :
  starts_with (EEmbed question) (questionEmbedding (W := W) question).
Proof.
  unfold questionEmbedding. apply starts_with_bind.
  - apply starts_with_withRetry_default; [|apply extends_getEmbedding].
    unfold getEmbedding. apply starts_with_bind; [apply starts_with_remote|].
    intros [|first rest]; [apply extends_throw|apply extends_ret].
  - intros emb. destruct (flatten emb); [apply extends_ret|apply extends_throw].
Qed.

Lemma extends_complete prompt contexts question :
  extends (complete (W := W) prompt contexts question).
Proof.
  unfold complete, withRetry_default, withRetry, chat. apply extends_bind.
  - auto with trace.
  - intros [[|first rest]|]; auto with trace.
Qed.

Lemma extends_queryStore v f : extends (ExcelProcessor.queryStore pineconeIndex v f).
Proof.
  unfold ExcelProcessor.queryStore, withRetry_default, withRetry, sdk_query, api_query.
  destruct pineconeIndex; auto with trace.
Qed.

Lemma extends_ExcelProcessor_contextOf m : extends (ExcelProcessor.contextOf (W := W) m).
Proof.
  unfold ExcelProcessor.contextOf. destruct (match_metadata m) as [md|]; [|auto with trace].
  destruct (JSON_parse _); auto with trace.
Qed.

(** In this revision every question, a greeting or not, is first sent to
    the embedding service. *)
Lemma ExcelProcessor_embeds_first question filters (s : St W) :
  exists result s' later,
    ExcelProcessor.queryRFPData pineconeIndex question filters s = (Ok result, s') /\
    trace s' = (trace s ++ EEmbed question :: later)%list.
Proof.
  destruct (ExcelProcessor_query_never_raises pineconeIndex question filters s)
    as [result [s' Hrun]].
  exists result, s'.
  assert (H : starts_with (EEmbed question)
                (ExcelProcessor.queryRFPData pineconeIndex question filters)).
  { unfold ExcelProcessor.queryRFPData. apply starts_with_try_catch.
    - unfold ExcelProcessor.queryBody. apply starts_with_bind.
      + apply starts_with_questionEmbedding.
      + intros v. apply extends_bind; [apply extends_queryStore|].
        intros [r|]; [|apply extends_throw].
        destruct (matches r) as [[|m ms]|].
        * destruct (ExcelProcessor.looksLikeGreeting question); apply extends_ret.
        * apply extends_bind.
          -- apply extends_mapM. intros m'. apply extends_ExcelProcessor_contextOf.
          -- intros contexts. apply extends_complete.
        * destruct (ExcelProcessor.looksLikeGreeting question); apply extends_ret.
    - intros e. destruct (ExcelProcessor.looksLikeGreeting question); apply extends_ret. }
  destruct (H _ _ _ Hrun) as [later Hl]. exists later. split; assumption.
Qed.

(** With no match, the answer depends on the letters of the question. *)
Lemma ExcelProcessor_no_match question filters (s s1 s2 : St W) v r :
  questionEmbedding question s = (Ok v, s1) ->
  ExcelProcessor.queryStore pineconeIndex v (filterConditionsOf filters) s1
  = (Ok (Some r), s2) ->
  matches r = None \/ matches r = Some [] ->
  ExcelProcessor.queryRFPData pineconeIndex question filters s =
  (Ok (if ExcelProcessor.looksLikeGreeting question
       then greetingResult else noMatchResult), s2).
Proof.
  intros He Hq Hm.
  unfold ExcelProcessor.queryRFPData, ExcelProcessor.queryBody, try_catch.
  unfold bind at 1. rewrite He. unfold bind at 1. rewrite Hq.
  destruct Hm as [-> | ->];
    destruct (ExcelProcessor.looksLikeGreeting question); reflexivity.
Qed.

End ExcelProcessorOrder.

(* ===================================================================== *)
(** ** [queryRFPData]: the two revisions side by side *)
(* ===================================================================== *)

(** C3. Neither revision throws. In the revision with [MOCK_MODE] an
    exception caught at the boundary gives the fallback answer, with the
    message of the exception in [error] and no sources. In
    [src/excelProcessor.js] the [catch] block first looks for the letters
    "hi", "hello" or "hey" in the question: with the embedding service
    down, "Which vendors are certified?" is answered with the greeting,
    without the [error] field. *)
Theorem queryRFPData_on_exception :
  (forall (W : Type) (C : Collaborators W) (MOCK_MODE : bool)
          (question : string) (filters : JsObject.t string) (s : St W),
      exists result s',
        Part000.queryRFPData MOCK_MODE question filters s = (Ok result, s') /\
        (forall e s1,
            Part000.queryBody MOCK_MODE question filters s = (Throw e, s1) ->
            result = fallbackResult e /\ s' = s1) /\
        (forall r s1,
            Part000.queryBody MOCK_MODE question filters s = (Ok r, s1) ->
            result = r /\ s' = s1))
  /\
  (forall (W : Type) (C : Collaborators W) (pineconeIndex : bool)
          (question : string) (filters : JsObject.t string) (s : St W),
      exists result s',
        ExcelProcessor.queryRFPData pineconeIndex question filters s = (Ok result, s') /\
        (forall e s1,
            ExcelProcessor.queryBody pineconeIndex question filters s = (Throw e, s1) ->
            result = (if ExcelProcessor.looksLikeGreeting question
                      then greetingResult else fallbackResult e) /\ s' = s1))
  /\
  (~ GreetingMessage "Which vendors are certified?" /\
   let s := Harness.start embeddingDownWorld in
   let run := ExcelProcessor.queryRFPData false "Which vendors are certified?" [] s in
   ExcelProcessor.queryBody false "Which vendors are certified?" [] s
   = (Throw timedOut, snd run) /\
   fst run = Ok greetingResult /\
   error greetingResult = None /\
   fst run <> Ok (fallbackResult timedOut)).
Proof.
  split; [|split].
  - intros W C MOCK_MODE question filters s.
    apply Part000_query_never_raises.
  - intros W C pineconeIndex question filters s.
    destruct (ExcelProcessor.queryBody pineconeIndex question filters s)
      as [[r|e] s1] eqn:E.
    + exists r, s1. split.
      * unfold ExcelProcessor.queryRFPData, try_catch. now rewrite E.
      * intros e s2 [=].
    + eexists _, s1. split.
      * apply ExcelProcessor_query_on_error. exact E.
      * intros e' s2 [= <- <-]. split; reflexivity.
  - split; [exact no_greeting_which|]. vm_compute.
    repeat split; discriminate.
Qed.

(** C5. In the revision with [MOCK_MODE] a greeting is answered before
    anything is sent out: the canned answer, no sources, and the state after
    the call is the state before it. In [src/excelProcessor.js] every
    question is first sent to the embedding service: "hi" is embedded and
    looked up in the index, and with matches in the index the answer is the
    completion's, not the canned greeting. *)
Theorem queryRFPData_greeting :
  (forall (W : Type) (C : Collaborators W) (MOCK_MODE : bool)
          (question : string) (filters : JsObject.t string) (s : St W),
      GreetingMessage question ->
      Part000.queryRFPData MOCK_MODE question filters s = (Ok greetingResult, s))
  /\
  (forall (W : Type) (C : Collaborators W) (pineconeIndex : bool)
          (question : string) (filters : JsObject.t string) (s : St W),
      exists result s' later,
        ExcelProcessor.queryRFPData pineconeIndex question filters s = (Ok result, s') /\
        trace s' = (trace s ++ EEmbed question :: later)%list)
  /\
  (GreetingMessage "hi" /\
   (let run := ExcelProcessor.queryRFPData true "hi" []
                 (Harness.start Harness.emptyWorld) in
    fst run = Ok greetingResult /\
    trace (snd run) = [EEmbed "hi"; ESdkQuery [(1 # 2)%Q] 5 (Some defaultFilter)]) /\
   (let run := ExcelProcessor.queryRFPData false "hi" []
                 (Harness.start Harness.emptyWorld) in
    fst run = Ok greetingResult /\
    trace (snd run) = [EEmbed "hi"; EApiQuery [(1 # 2)%Q] 5 defaultFilter]) /\
   (let run := ExcelProcessor.queryRFPData true "hi" []
                 (Harness.start soundMatchWorld) in
    match fst run with
    | Ok result => answer result = "It is covered in section 4." /\
                   length (sources result) = 1%nat
    | Throw _ => False
    end /\
    calls (trace (snd run)) <> [])).
Proof.
  split; [|split].
  - intros W C MOCK_MODE question filters s. apply Part000_greeting_short_circuit.
  - intros W C pineconeIndex question filters s. apply ExcelProcessor_embeds_first.
  - split; [exact greeting_hi|]. vm_compute.
    repeat split; discriminate.
Qed.

Lemma queryRFPData_greeting_witness :
  Part000.queryRFPData false "Hello!" [] (Harness.start Harness.emptyWorld)
  = (Ok greetingResult, Harness.start Harness.emptyWorld).
Proof.
  apply (proj1 queryRFPData_greeting Harness.World harness false "Hello!" []
           (Harness.start Harness.emptyWorld)).
  apply isGreeting_spec. reflexivity.
Defined.

(** C6. In the revision with [MOCK_MODE] a stored match whose
    [originalData] is a string that is not JSON does not disturb the
    retrieval: every match gets its context, in ranked order, the one of
    that match with the empty mapping, and the answer of the completion is
    returned with this full list as its sources. In [src/excelProcessor.js]
    [JSON.parse] is called unguarded inside the [map]: one such match makes
    the whole query end in the fallback answer, with no sources, and the
    completion service is never asked. *)
Theorem queryRFPData_unparsable_originalData :
  (forall (W : Type) (C : Collaborators W)
          (question : string) (filters : JsObject.t string) (s s1 s2 : St W)
          (v : Vector) (ms : list Match) (m : Match) (md : MatchMetadata)
          (bad : string) (e : JsError),
      Part000.isGreeting question = false ->
      questionEmbedding question s = (Ok v, s1) ->
      withRetry_default (api_query v 5 (filterConditionsOf filters)) s1
      = (Ok (Some {| matches := Some ms |}), s2) ->
      Forall (fun m => match_metadata m <> None) ms ->
      In m ms ->
      match_metadata m = Some md ->
      md_originalData md = MString bad ->
      JSON_parse bad = Throw e ->
      exists contexts c,
        Forall2 (fun m c => Part000.contextOf m s2 = (Ok c, s2)) ms contexts /\
        Part000.contextOf m s2 = (Ok c, s2) /\ In c contexts /\
        ctx_originalData c = JObject [] /\
        forall result s3,
          complete Part000.SYSTEM_PROMPT contexts question s2 = (Ok result, s3) ->
          Part000.queryRFPData false question filters s = (Ok result, s3) /\
          sources result = contexts /\ error result = None)
  /\
  (JSON_parse "not json" = Throw Harness.FlatJson.syntaxError /\
   let run := ExcelProcessor.queryRFPData true "What is the uptime?" []
                (Harness.start brokenMatchWorld) in
   fst run = Ok (fallbackResult Harness.FlatJson.syntaxError) /\
   trace (snd run)
   = [EEmbed "What is the uptime?"; ESdkQuery [(1 # 2)%Q] 5 (Some defaultFilter)]).
Proof.
  split.
  - intros W C question filters s s1 s2 v ms m md bad e.
    apply Part000_unparsable_match_is_kept.
  - vm_compute. repeat split.
Qed.

Lemma queryRFPData_unparsable_originalData_witness :
  exists contexts c,
    Forall2
      (fun m c =>
         Part000.contextOf m
           {| world := Harness.emptyWorld;
              trace := [EEmbed "What is the uptime?";
                        EApiQuery [(1 # 2)%Q] 5 defaultFilter] |}
         = (Ok c, {| world := Harness.emptyWorld;
                     trace := [EEmbed "What is the uptime?";
                               EApiQuery [(1 # 2)%Q] 5 defaultFilter] |}))
      [soundMatch; brokenMatch] contexts /\
    Part000.contextOf brokenMatch
      {| world := Harness.emptyWorld;
         trace := [EEmbed "What is the uptime?";
                   EApiQuery [(1 # 2)%Q] 5 defaultFilter] |}
    = (Ok c, {| world := Harness.emptyWorld;
                trace := [EEmbed "What is the uptime?";
                          EApiQuery [(1 # 2)%Q] 5 defaultFilter] |}) /\
    In c contexts /\
    ctx_originalData c = JObject [] /\
    forall result s3,
      complete Part000.SYSTEM_PROMPT contexts "What is the uptime?"
        {| world := Harness.emptyWorld;
           trace := [EEmbed "What is the uptime?";
                     EApiQuery [(1 # 2)%Q] 5 defaultFilter] |}
      = (Ok result, s3) ->
      Part000.queryRFPData false "What is the uptime?" []
        (Harness.start brokenMatchWorld) = (Ok result, s3) /\
      sources result = contexts /\ error result = None.
Proof.
  apply (proj1 queryRFPData_unparsable_originalData Harness.World harness
           "What is the uptime?" []
           (Harness.start brokenMatchWorld)
           {| world := brokenMatchWorld; trace := [EEmbed "What is the uptime?"] |}
           {| world := Harness.emptyWorld;
              trace := [EEmbed "What is the uptime?";
                        EApiQuery [(1 # 2)%Q] 5 defaultFilter] |}
           [(1 # 2)%Q] [soundMatch; brokenMatch] brokenMatch
           {| md_text := Some "Question: Uptime?";
              md_originalData := MString "not json";
              md_category := Some "SLA";
              md_sheetName := Some "Operations" |}
           "not json" Harness.FlatJson.syntaxError).
  - reflexivity.
  - reflexivity.
  - reflexivity.
  - repeat constructor; discriminate.
  - right. left. reflexivity.
  - reflexivity.
  - reflexivity.
  - reflexivity.
Defined.

(** C7. In the revision with [MOCK_MODE], outside mock mode, a question
    that is not a greeting and for which the similarity query answers with
    no match gets the canned "no relevant information" answer with no
    sources, and the state is the one the query left: the completion service
    is not called. In [src/excelProcessor.js] the answer then depends on the
    letters of the question: "Which vendors are certified?" contains "hi"
    and is answered with the greeting. *)
Theorem queryRFPData_no_match :
  (forall (W : Type) (C : Collaborators W)
          (question : string) (filters : JsObject.t string) (s s1 s2 : St W)
          (v : Vector) (r : QueryResponse),
      Part000.isGreeting question = false ->
      questionEmbedding question s = (Ok v, s1) ->
      withRetry_default (api_query v 5 (filterConditionsOf filters)) s1
      = (Ok (Some r), s2) ->
      matches r = None \/ matches r = Some [] ->
      Part000.queryRFPData false question filters s = (Ok noMatchResult, s2))
  /\
  (forall (W : Type) (C : Collaborators W) (pineconeIndex : bool)
          (question : string) (filters : JsObject.t string) (s s1 s2 : St W)
          (v : Vector) (r : QueryResponse),
      questionEmbedding question s = (Ok v, s1) ->
      ExcelProcessor.queryStore pineconeIndex v (filterConditionsOf filters) s1
      = (Ok (Some r), s2) ->
      matches r = None \/ matches r = Some [] ->
      ExcelProcessor.queryRFPData pineconeIndex question filters s =
      (Ok (if ExcelProcessor.looksLikeGreeting question
           then greetingResult else noMatchResult), s2))
  /\
  (~ GreetingMessage "Which vendors are certified?" /\
   let run := ExcelProcessor.queryRFPData true "Which vendors are certified?" []
                (Harness.start Harness.emptyWorld) in
   fst run = Ok greetingResult /\
   fst run <> Ok noMatchResult /\
   trace (snd run)
   = [EEmbed "Which vendors are certified?";
      ESdkQuery [(1 # 2)%Q] 5 (Some defaultFilter)]).
Proof.
  split; [|split].
  - intros W C question filters s s1 s2 v r. apply Part000_no_match.
  - intros W C pineconeIndex question filters s s1 s2 v r.
    apply ExcelProcessor_no_match.
  - split; [exact no_greeting_which|]. vm_compute.
    repeat split; discriminate.
Qed.

Lemma queryRFPData_no_match_witness :
  Part000.queryRFPData false "Which vendors are certified?" []
    (Harness.start Harness.emptyWorld)
  = (Ok noMatchResult,
     {| world := Harness.emptyWorld;
        trace := [EEmbed "Which vendors are certified?";
                  EApiQuery [(1 # 2)%Q] 5 defaultFilter] |}).
Proof.
  apply (proj1 queryRFPData_no_match Harness.World harness
           "Which vendors are certified?" []
           (Harness.start Harness.emptyWorld)
           {| world := Harness.emptyWorld;
              trace := [EEmbed "Which vendors are certified?"] |}
           {| world := Harness.emptyWorld;
              trace := [EEmbed "Which vendors are certified?";
                        EApiQuery [(1 # 2)%Q] 5 defaultFilter] |}
           [(1 # 2)%Q] {| matches := Some [] |}).
  - reflexivity.
  - reflexivity.
  - reflexivity.
  - right. reflexivity.
Defined.

(* ===================================================================== *)
(** ** Every record is accounted for *)
(* ===================================================================== *)

Section UploadAccounting.
Context {W : Type} {C : Collaborators W}.
Variable fetchVectors : list string -> M W FetchResponse.
Variable upsertVectors : list VectorRecord -> M W unit.
Variable md : Metadata.

(** The fetch check never throws, whatever the gateway does. *)
Lemma existingVector_total vid (s : St W) :
  exists existing s1, existingVector fetchVectors vid s = (Ok existing, s1).
Proof.
  unfold existingVector, try_catch, bind.
  destruct (withRetry_default (fetchVectors [vid]) s) as [[[r|]|e] s1];
    simpl; eexists _, _; reflexivity.
Qed.

(** The loop body never throws: the item is skipped, staged or counted as
    an error. *)
Lemma prepareItem_cases ops n item (s : St W) :
  exists ops' n' s',
    prepareItem fetchVectors md (ops, n) item s = (Ok (ops', n'), s') /\
    ((ops' = ops /\ n' = skipMore 1 n) \/
     (exists v,
         ops' = (ops ++ [ {| id := generateStableId md item; values := v;
                             metadata := vectorMetadata md item |} ])%list /\
         n' = {| processedRows := S (processedRows n);
                 skippedRows := skippedRows n;
                 errorRows := errorRows n |}) \/
     (ops' = ops /\
      n' = {| processedRows := processedRows n;
              skippedRows := skippedRows n;
              errorRows := S (errorRows n) |})).
Proof.
  unfold prepareItem, try_catch. unfold bind at 1.
  destruct (existingVector_total (generateStableId md item) s) as [existing [s1 He]].
  rewrite He.
  destruct (JsObject.get existing (generateStableId md item)) as [x|].
  - eexists _, _, _. split; [reflexivity|]. left. split; reflexivity.
  - unfold bind.
    destruct (withRetry_default (getEmbedding (text item)) s1) as [[emb|e] s2].
    + eexists _, _, _. split; [reflexivity|]. right. left. eauto.
    + eexists _, _, _. split; [reflexivity|]. right. right. split; reflexivity.
Qed.

Lemma stage_batch_counts :
  forall batch ops n (s : St W),
    exists ops' n' s' a b c,
      foldM (prepareItem fetchVectors md) batch (ops, n) s = (Ok (ops', n'), s') /\
      a + b + c = length batch /\
      processedRows n' = processedRows n + a /\
      skippedRows n' = skippedRows n + b /\
      errorRows n' = errorRows n + c /\
      length ops' = length ops + a.
Proof.
  induction batch as [|item batch IH]; intros ops n s.
  - exists ops, n, s, 0, 0, 0. simpl. repeat split; lia.
  - destruct (prepareItem_cases ops n item s) as [ops1 [n1 [s1 [E1 Hc]]]].
    destruct (IH ops1 n1 s1) as [ops' [n' [s' [a [b [c [E2 [Hs [Hp [Hk [He Hl]]]]]]]]]]].
    rewrite foldM_cons, E1, E2.
    destruct Hc as [[-> ->] | [[v [-> ->]] | [-> ->]]]; simpl in *.
    + exists ops', n', s', a, (S b), c. repeat split; lia.
    + exists ops', n', s', (S a), b, c. rewrite length_app in Hl. simpl in Hl.
      repeat split; lia.
    + exists ops', n', s', a, b, (S c). repeat split; lia.
Qed.

Lemma uploadBatch_counts n batch (s : St W) :
  exists n' s' a b c f,
    uploadBatch fetchVectors upsertVectors md n batch s = (Ok n', s') /\
    a + b + c = length batch /\
    processedRows n' = processedRows n + a /\
    skippedRows n' = skippedRows n + b /\
    errorRows n' = errorRows n + c + f /\
    f <= a.
Proof.
  destruct (stage_batch_counts batch [] n s)
    as [ops [n1 [s1 [a [b [c [E [Hs [Hp [Hk [He Hl]]]]]]]]]]].
  unfold uploadBatch, bind at 1. rewrite E. simpl in Hl.
  destruct ops as [|op ops].
  - exists n1, s1, a, b, c, 0. repeat split; try assumption; lia.
  - unfold try_catch, bind.
    destruct (withRetry_default (upsertVectors (op :: ops)) s1) as [[u|e] s2].
    + exists n1, s2, a, b, c, 0. repeat split; try assumption; lia.
    + eexists _, s2, a, b, c, (length (op :: ops)).
      split; [reflexivity|]. simpl in *. repeat split; lia.
Qed.

Lemma upload_batches_counts :
  forall batches n (s : St W),
    exists n' s' a b c f,
      foldM (uploadBatch fetchVectors upsertVectors md) batches n s = (Ok n', s') /\
      a + b + c = length (concat batches) /\
      processedRows n' = processedRows n + a /\
      skippedRows n' = skippedRows n + b /\
      errorRows n' = errorRows n + c + f /\
      f <= a.
Proof.
  induction batches as [|batch batches IH]; intros n s.
  - exists n, s, 0, 0, 0, 0. simpl. repeat split; lia.
  - destruct (uploadBatch_counts n batch s)
      as [n1 [s1 [a1 [b1 [c1 [f1 [E1 [Hs1 [Hp1 [Hk1 [He1 Hf1]]]]]]]]]]].
    destruct (IH n1 s1)
      as [n' [s' [a [b [c [f [E2 [Hs [Hp [Hk [He Hf]]]]]]]]]]].
    rewrite foldM_cons, E1, E2.
    exists n', s', (a1 + a), (b1 + b), (c1 + c), (f1 + f).
    simpl. rewrite length_app. repeat split; lia.
Qed.

(** The upload loop always ends and accounts for every record. *)
Lemma uploadAll_counts data (s : St W) :
  exists n s' failed uploads,
    uploadAll fetchVectors upsertVectors md data s = (Ok n, s') /\
    errorRows n = failed + uploads /\
    processedRows n + skippedRows n + failed = length data /\
    uploads <= processedRows n.
Proof.
  destruct (upload_batches_counts (chunk BATCH_SIZE data) noRows s)
    as [n [s' [a [b [c [f [E [Hs [Hp [Hk [He Hf]]]]]]]]]]].
  rewrite concat_chunk in Hs. simpl in Hp, Hk, He.
  exists n, s', c, f. unfold uploadAll. rewrite E.
  split; [reflexivity|]. repeat split; lia.
Qed.

End UploadAccounting.

Section UploadLedger.
Context {W : Type} {C : Collaborators W}.
Variable fetchVectors : list string -> M W FetchResponse.
Variable upsertVectors : list VectorRecord -> M W unit.
Variable md : Metadata.

(** A batch and its entry in the ledger. *)
Lemma uploadBatch_ledger n batch (s : St W) :
  exists n' s',
    uploadBatch fetchVectors upsertVectors md n batch s = (Ok n', s') /\
    let o := outcomeOf fetchVectors upsertVectors md n batch s in
    batch_size o = length batch /\
    batch_processed o + batch_skipped o + batch_failed o = batch_size o /\
    processedRows n' = processedRows n + batch_processed o /\
    skippedRows n' = skippedRows n + batch_skipped o /\
    errorRows n' = errorRows n + batch_failed o + lost o.
Proof.
  destruct (stage_batch_counts fetchVectors md batch [] n s)
    as [ops [n1 [s1 [a [b [c [E [Hs [Hp [Hk [He Hl]]]]]]]]]]].
  unfold uploadBatch, outcomeOf, lost. unfold bind at 1. rewrite E.
  cbn [batch_size batch_processed batch_skipped batch_failed upload_failed].
  simpl in Hl. destruct ops as [|op ops].
  - exists n1, s1. split; [reflexivity|]. simpl in *. repeat split; lia.
  - unfold uploadFails, try_catch, bind.
    destruct (withRetry_default (upsertVectors (op :: ops)) s1) as [[u|e] s2].
    + exists n1, s2. split; [reflexivity|]. repeat split; lia.
    + eexists _, s2. split; [reflexivity|].
      cbn [processedRows skippedRows errorRows]. repeat split; lia.
Qed.

Lemma upload_batches_ledger :
  forall batches n (s : St W),
    exists n' s',
      foldM (uploadBatch fetchVectors upsertVectors md) batches n s = (Ok n', s') /\
      let l := ledger fetchVectors upsertVectors md batches n s in
      map batch_size l = map (@length Item) batches /\
      Forall (fun o => batch_processed o + batch_skipped o + batch_failed o
                       = batch_size o) l /\
      processedRows n' = processedRows n + list_sum (map batch_processed l) /\
      skippedRows n' = skippedRows n + list_sum (map batch_skipped l) /\
      errorRows n'
      = errorRows n + list_sum (map batch_failed l) + list_sum (map lost l).
Proof.
  induction batches as [|batch batches IH]; intros n s.
  - exists n, s. simpl. repeat split; try lia. constructor.
  - destruct (uploadBatch_ledger n batch s)
      as [n1 [s1 [E1 [Hsize [Hsum [Hp1 [Hk1 He1]]]]]]].
    destruct (IH n1 s1) as [n' [s' [E2 [Hsizes [Hall [Hp [Hk He]]]]]]].
    exists n', s'. rewrite foldM_cons, E1. split; [exact E2|].
    cbn [ledger]. rewrite E1. unfold list_sum in *. cbn [map fold_right].
    split; [now rewrite Hsize, Hsizes|].
    split; [constructor; assumption|]. repeat split; lia.
Qed.

Lemma uploadAll_ledger data (s : St W) :
  exists n s',
    uploadAll fetchVectors upsertVectors md data s = (Ok n, s') /\
    accounted (ledger fetchVectors upsertVectors md (chunk BATCH_SIZE data) noRows s)
      data (statsOf data n).
Proof.
  destruct (upload_batches_ledger (chunk BATCH_SIZE data) noRows s)
    as [n [s' [E [Hsizes [Hall [Hp [Hk He]]]]]]].
  exists n, s'. split; [exact E|]. unfold accounted. simpl in *.
  repeat split; assumption.
Qed.

End UploadLedger.

(** Once the workbook is read, [processExcelRFP] returns, whatever the
    index and the embedding service do: a failing record, fetch or upload
    is counted and never aborts the run. Out of the degraded mode its
    stats are those of the ledger of the run: one entry per batch of at
    most ten records; every record of a batch counted once, as processed
    (a vector was staged), skipped or failed; and, for every batch whose
    upload threw after its retries, the vectors staged for it counted in
    [errors] on top of [processed]. Both revisions, through either
    gateway. *)
Theorem processExcelRFP_counts_every_record :
  forall (W : Type) (C : Collaborators W) (MOCK_MODE pineconeIndex : bool)
         (buffer : string) (md : Metadata) (workbook : Workbook)
         (data : list Item) (s : St W),
    xlsx_load buffer = Ok workbook ->
    Extractor.processedData workbook = Ok data ->
    (exists result s',
        Part000.processExcelRFP MOCK_MODE buffer md s = (Ok result, s') /\
        every_record_counted workbook data result /\
        (MOCK_MODE = false ->
         accounted
           (ledger api_fetch api_upsert md (chunk BATCH_SIZE data) noRows s)
           data (stats result))) /\
    (exists result s',
        ExcelProcessor.processExcelRFP pineconeIndex buffer md s = (Ok result, s') /\
        every_record_counted workbook data result /\
        accounted
          (ledger (ExcelProcessor.fetchVectors pineconeIndex)
             (ExcelProcessor.upsertVectors pineconeIndex) md
             (chunk BATCH_SIZE data) noRows s)
          data (stats result)).
Proof.
  intros W C MOCK_MODE pineconeIndex buffer md workbook data s Hload Hdata.
  split.
  - unfold Part000.processExcelRFP, try_catch. rewrite Hload, Hdata.
    destruct MOCK_MODE.
    + eexists _, _. split; [reflexivity|]. split; [|discriminate].
      unfold every_record_counted. simpl. repeat split.
      exists 0, 0. repeat split; lia.
    + destruct (uploadAll_counts api_fetch api_upsert md data s)
        as [n [s' [failed [uploads [E [He [Hs Hu]]]]]]].
      destruct (uploadAll_ledger api_fetch api_upsert md data s)
        as [n0 [s0 [E0 Hacc]]].
      rewrite E in E0. injection E0 as <- <-.
      unfold bind. rewrite E. eexists _, _. split; [reflexivity|]. split.
      * unfold every_record_counted. simpl. repeat split.
        exists failed, uploads. repeat split; assumption.
      * intros _. exact Hacc.
  - unfold ExcelProcessor.processExcelRFP, try_catch. rewrite Hload, Hdata.
    destruct (uploadAll_counts (ExcelProcessor.fetchVectors pineconeIndex)
                (ExcelProcessor.upsertVectors pineconeIndex) md data s)
      as [n [s' [failed [uploads [E [He [Hs Hu]]]]]]].
    destruct (uploadAll_ledger (ExcelProcessor.fetchVectors pineconeIndex)
                (ExcelProcessor.upsertVectors pineconeIndex) md data s)
      as [n0 [s0 [E0 Hacc]]].
    rewrite E in E0. injection E0 as <- <-.
    unfold bind. rewrite E. eexists _, _. split; [reflexivity|]. split.
    + unfold every_record_counted. simpl. repeat split.
      exists failed, uploads. repeat split; assumption.
    + exact Hacc.
Qed.

(** The ledger of a run with the uploads down: one batch of three records,
    three vectors staged, and the upload failed. *)
Example ledger_upload_outage :
  ledger (C := Faulty.collaborators Faulty.uploadOutage)
    (ExcelProcessor.fetchVectors (C := Faulty.collaborators Faulty.uploadOutage) true)
    (ExcelProcessor.upsertVectors (C := Faulty.collaborators Faulty.uploadOutage) true) md_2024_Q1
    (chunk BATCH_SIZE (recordsOf (C := Faulty.collaborators Faulty.uploadOutage) "rfp.xlsx"))
    noRows Faulty.start
  = [ {| batch_size := 3; batch_processed := 3; batch_skipped := 0;
         batch_failed := 0; upload_failed := true |} ] /\
  match ExcelProcessor.processExcelRFP (C := Faulty.collaborators Faulty.uploadOutage)
          true "rfp.xlsx" md_2024_Q1 Faulty.start with
  | (Ok result, _) =>
      stats result = {| totalItems := 3; processed := 3; skipped := 0; errors := 3 |}
  | (Throw _, _) => False
  end.
Proof. vm_compute. split; reflexivity. Qed.

Lemma processExcelRFP_counts_every_record_witness :
  let data :=
    match Extractor.processedData [sheet_without_category; sheet_with_category] with
    | Ok data => data
    | Throw _ => []
    end in
  (exists result s',
      Part000.processExcelRFP (C := Faulty.collaborators Faulty.uploadOutage)
        false "rfp.xlsx" md_2024_Q1 Faulty.start = (Ok result, s') /\
      every_record_counted [sheet_without_category; sheet_with_category] data result /\
      (false = false ->
       accounted
         (ledger (C := Faulty.collaborators Faulty.uploadOutage)
            (api_fetch (C := Faulty.collaborators Faulty.uploadOutage))
            (api_upsert (C := Faulty.collaborators Faulty.uploadOutage)) md_2024_Q1 (chunk BATCH_SIZE data) noRows Faulty.start)
         data (stats result))) /\
  (exists result s',
      ExcelProcessor.processExcelRFP (C := Faulty.collaborators Faulty.uploadOutage)
        true "rfp.xlsx" md_2024_Q1 Faulty.start = (Ok result, s') /\
      every_record_counted [sheet_without_category; sheet_with_category] data result /\
      accounted
        (ledger (C := Faulty.collaborators Faulty.uploadOutage)
           (ExcelProcessor.fetchVectors (C := Faulty.collaborators Faulty.uploadOutage) true)
    (ExcelProcessor.upsertVectors (C := Faulty.collaborators Faulty.uploadOutage) true)
           md_2024_Q1 (chunk BATCH_SIZE data) noRows Faulty.start)
        data (stats result)).
Proof.
  apply (@processExcelRFP_counts_every_record nat
           (Faulty.collaborators Faulty.uploadOutage) false true
           "rfp.xlsx" md_2024_Q1 [sheet_without_category; sheet_with_category]
           (match Extractor.processedData [sheet_without_category; sheet_with_category] with
            | Ok data => data
            | Throw _ => []
            end)
           Faulty.start).
  - reflexivity.
  - vm_compute. reflexivity.
Defined.

(* ===================================================================== *)
(** ** What a computation may add to the trace *)
(* ===================================================================== *)

Section Emits.
Context {W : Type}.
Variable P : Event -> Prop.

Lemma emits_ret {A} (a : A) : emits P (@ret W A a).
Proof. intros s r s' [= _ <-]. exists []. now rewrite app_nil_r. Qed.

Lemma emits_throw {A} (e : JsError) : emits P (@throw W A e).
Proof. intros s r s' [= _ <-]. exists []. now rewrite app_nil_r. Qed.

Lemma emits_remote {A} ev (op : W -> JsResult A * W) :
  P ev -> emits P (remote ev op).
Proof.
  intros Hev s r s'. unfold remote. destruct (op (world s)) as [r0 w'].
  intros [= _ <-]. exists [ev]. split; [reflexivity|]. now constructor.
Qed.

Lemma emits_sleep ms : P (ESleep ms) -> emits P (@sleep W ms).
Proof.
  intros Hev s r s' [= _ <-]. exists [ESleep ms]. split; [reflexivity|].
  now constructor.
Qed.

(** Sequencing, with what is known of the first result. *)
Lemma emits_bind_with {A B} (Q : A -> Prop) (c : M W A) (k : A -> M W B) :
  (forall s a s', c s = (Ok a, s') -> Q a) ->
  emits P c -> (forall a, Q a -> emits P (k a)) -> emits P (bind c k).
Proof.
  intros HQ Hc Hk s r s'. unfold bind.
  destruct (c s) as [[a|e] s1] eqn:E.
  - intros H. destruct (Hc _ _ _ E) as [e1 [H1 F1]].
    destruct (Hk a (HQ _ _ _ E) _ _ _ H) as [e2 [H2 F2]].
    exists (e1 ++ e2)%list. split; [now rewrite H2, H1, app_assoc|].
    apply Forall_app. now split.
  - intros [= _ <-]. eapply Hc; eauto.
Qed.

Lemma emits_bind {A B} (c : M W A) (k : A -> M W B) :
  emits P c -> (forall a, emits P (k a)) -> emits P (bind c k).
Proof.
  intros Hc Hk. apply emits_bind_with with (Q := fun _ => True); auto.
Qed.

Lemma emits_try_catch {A} (c : M W A) (h : JsError -> M W A) :
  emits P c -> (forall e, emits P (h e)) -> emits P (try_catch c h).
Proof.
  intros Hc Hh s r s'. unfold try_catch.
  destruct (c s) as [[a|e] s1] eqn:E.
  - intros [= _ <-]. eapply Hc; eauto.
  - intros H. destruct (Hc _ _ _ E) as [e1 [H1 F1]].
    destruct (Hh _ _ _ _ H) as [e2 [H2 F2]].
    exists (e1 ++ e2)%list. split; [now rewrite H2, H1, app_assoc|].
    apply Forall_app. now split.
Qed.

(** The default retry adds the events of its attempts and the two waits
    of its back-off. *)
Lemma emits_withRetry_default {A} (c : M W A) :
  emits P c -> P (ESleep 1000) -> P (ESleep 2000) ->
  emits P (withRetry_default c).
Proof.
  intros Hc H1 H2. unfold withRetry_default, withRetry.
  change (Z.to_nat 3) with 3%nat. cbn.
  apply emits_try_catch; [apply emits_bind; [assumption|intros; apply emits_ret]|].
  intros e1. apply emits_bind; [now apply emits_sleep|]. intros _.
  apply emits_try_catch; [apply emits_bind; [assumption|intros; apply emits_ret]|].
  intros e2. apply emits_bind; [now apply emits_sleep|]. intros _.
  apply emits_try_catch; [apply emits_bind; [assumption|intros; apply emits_ret]|].
  intros e3. apply emits_throw.
Qed.

Lemma emits_foldM {A B} (f : B -> A -> M W B) (l : list A) :
  (forall b a, In a l -> emits P (f b a)) -> forall b, emits P (foldM f l b).
Proof.
  induction l as [|a l IH]; intros Hf b; simpl; [apply emits_ret|].
  apply emits_bind; [apply Hf; now left|].
  intros b'. apply IH. intros b0 a0 Hin. apply Hf. now right.
Qed.

Lemma emits_mapM {A B} (f : A -> M W B) (l : list A) :
  (forall a, emits P (f a)) -> emits P (mapM f l).
Proof.
  intros Hf. induction l as [|a l IH]; simpl; [apply emits_ret|].
  apply emits_bind; [apply Hf|]. intros b.
  apply emits_bind; [apply IH|]. intros bs. apply emits_ret.
Qed.

End Emits.

(** No batch is empty and none is longer than the batch size. *)
Lemma chunk_from_lengths {A} (size : nat) :
  1 <= size ->
  forall (l cur : list A) room,
    length cur + room = size ->
    Forall (fun b => 1 <= length b <= size) (chunk_from size cur room l).
Proof.
  intros Hsize. induction l as [|x l IH]; intros cur room Hlen; simpl.
  - destruct cur as [|c cur]; constructor; [|constructor].
    simpl in *. lia.
  - destruct room as [|room].
    + constructor; [lia|]. apply IH. simpl. lia.
    + apply IH. rewrite length_app. simpl. lia.
Qed.

Lemma chunk_lengths {A} (l : list A) :
  Forall (fun b => 1 <= length b <= BATCH_SIZE) (chunk BATCH_SIZE l).
Proof.
  unfold chunk, BATCH_SIZE. apply chunk_from_lengths; [lia|reflexivity].
Qed.

(** The members of a batch are records of the run. *)
Lemma In_chunk {A} (l batch : list A) (x : A) :
  In batch (chunk BATCH_SIZE l) -> In x batch -> In x l.
Proof.
  intros Hb Hx. rewrite <- (concat_chunk l). apply in_concat. eauto.
Qed.

Section UploadEvents.
Context {W : Type} {C : Collaborators W}.
Variable fetchVectors : list string -> M W FetchResponse.
Variable upsertVectors : list VectorRecord -> M W unit.
Variable md : Metadata.
Variable data : list Item.
Variable P : Event -> Prop.

Hypothesis Hembed : forall item, In item data -> P (EEmbed (text item)).
Hypothesis Hfirst : P (ESleep 1000).
Hypothesis Hsecond : P (ESleep 2000).
Hypothesis Hfetch :
  forall item, In item data -> emits P (fetchVectors [generateStableId md item]).
Hypothesis Hupsert :
  forall records, upload_batch md data records -> emits P (upsertVectors records).

Lemma emits_getEmbedding input : P (EEmbed input) -> emits P (getEmbedding input).
Proof.
  intros H. unfold getEmbedding. apply emits_bind; [now apply emits_remote|].
  intros [|first rest]; [apply emits_throw|apply emits_ret].
Qed.

Lemma emits_prepareItem acc item :
  In item data -> emits P (prepareItem fetchVectors md acc item).
Proof.
  intros Hin. destruct acc as [ops n]. unfold prepareItem.
  apply emits_try_catch; [|intros e; apply emits_ret].
  apply emits_bind.
  - unfold existingVector. apply emits_try_catch; [|intros e; apply emits_ret].
    apply emits_bind; [apply emits_withRetry_default; auto|].
    intros [r|]; [apply emits_ret|apply emits_throw].
  - intros existing. destruct (JsObject.get existing _); [apply emits_ret|].
    apply emits_bind; [|intros; apply emits_ret].
    apply emits_withRetry_default; auto. apply emits_getEmbedding; auto.
Qed.

(** What a batch stages: at most one vector per record of the batch, each
    made from a record of the batch. *)
Lemma stage_batch_records :
  forall batch ops n (s : St W) ops' n' s',
    foldM (prepareItem fetchVectors md) batch (ops, n) s = (Ok (ops', n'), s') ->
    exists added,
      ops' = (ops ++ added)%list /\
      length added <= length batch /\
      Forall (record_vector md batch) added.
Proof.
  induction batch as [|item batch IH]; intros ops n s ops' n' s' H.
  - injection H as <- _ _. exists []. rewrite app_nil_r. repeat split; auto.
  - destruct (prepareItem_cases fetchVectors md ops n item s)
      as [ops1 [n1 [s1 [E1 Hc]]]].
    rewrite foldM_cons, E1 in H.
    destruct (IH _ _ _ _ _ _ H) as [added [-> [Hl Hf]]].
    assert (Hmono : Forall (record_vector md (item :: batch)) added).
    { eapply Forall_impl; [|exact Hf]. intros r [it [Hi Hr]].
      exists it. split; [now right|assumption]. }
    destruct Hc as [[-> _] | [[v [-> _]] | [-> _]]].
    + exists added. simpl. repeat split; auto.
    + eexists (_ :: added). rewrite <- app_assoc. simpl.
      split; [reflexivity|]. split; [lia|]. constructor; [|assumption].
      exists item. simpl. repeat split. now left.
    + exists added. simpl. repeat split; auto.
Qed.

Lemma emits_uploadBatch n batch :
  (forall item, In item batch -> In item data) ->
  1 <= length batch <= BATCH_SIZE ->
  emits P (uploadBatch fetchVectors upsertVectors md n batch).
Proof.
  intros Hsub Hlen. unfold uploadBatch.
  apply emits_bind_with with
    (Q := fun staged : list VectorRecord * Counters =>
            length (fst staged) <= length batch /\
            Forall (record_vector md data) (fst staged)).
  - intros s [ops n'] s' H.
    destruct (stage_batch_records _ _ _ _ H) as [added [-> [Hl Hf]]].
    simpl. split; [assumption|].
    eapply Forall_impl; [|exact Hf]. intros r [it [Hi Hr]].
    exists it. split; [auto|assumption].
  - apply emits_foldM. intros b a Hin. apply emits_prepareItem. auto.
  - intros [ops n'] [Hl Hf]. simpl in Hl, Hf.
    destruct ops as [|op ops]; [apply emits_ret|].
    apply emits_try_catch; [|intros e; apply emits_ret].
    apply emits_bind; [|intros; apply emits_ret].
    apply emits_withRetry_default; auto. apply Hupsert.
    split; [simpl in *; lia|assumption].
Qed.

Lemma emits_uploadAll :
  emits P (uploadAll fetchVectors upsertVectors md data).
Proof.
  unfold uploadAll. apply emits_foldM. intros n batch Hin.
  apply emits_uploadBatch.
  - intros item Hi. eapply In_chunk; eauto.
  - pose proof (chunk_lengths data) as Hall.
    rewrite Forall_forall in Hall. auto.
Qed.

End UploadEvents.

(** [processExcelRFP] only ever embeds the text of a record of the
    spreadsheet, fetches the stable id of one record at a time, and uploads
    batches of one to ten vectors made from its records, with the waits of
    the default back-off in between (1 s, then 2 s). It never queries the
    index, never asks for a completion and never probes. The revision with
    [MOCK_MODE] goes through the direct gateway only; the other one goes
    through the SDK client alone when it has one, and through the direct
    gateway alone when it has none. *)
Theorem processExcelRFP_events :
  forall (W : Type) (C : Collaborators W) (MOCK_MODE pineconeIndex : bool)
         (buffer : string) (md : Metadata),
    emits (ingestion_event false md (recordsOf buffer))
      (Part000.processExcelRFP MOCK_MODE buffer md) /\
    emits (ingestion_event pineconeIndex md (recordsOf buffer))
      (ExcelProcessor.processExcelRFP pineconeIndex buffer md).
Proof.
  intros W C MOCK_MODE pineconeIndex buffer md. unfold recordsOf. split.
  - unfold Part000.processExcelRFP.
    apply emits_try_catch; [|intros e; apply emits_throw].
    destruct (xlsx_load buffer) as [workbook|e]; [|apply emits_throw].
    destruct (Extractor.processedData workbook) as [data|e]; [|apply emits_throw].
    destruct MOCK_MODE; [apply emits_ret|].
    apply emits_bind; [|intros; apply emits_ret].
    apply emits_uploadAll.
    + intros item Hin. simpl. now apply in_map.
    + left; reflexivity.
    + right; reflexivity.
    + intros item Hin. apply emits_remote. simpl. split; [reflexivity|].
      exists item. now split.
    + intros records Hb. apply emits_remote. simpl. now split.
  - unfold ExcelProcessor.processExcelRFP.
    apply emits_try_catch; [|intros e; apply emits_throw].
    destruct (xlsx_load buffer) as [workbook|e]; [|apply emits_throw].
    destruct (Extractor.processedData workbook) as [data|e]; [|apply emits_throw].
    apply emits_bind; [|intros; apply emits_ret].
    apply emits_uploadAll.
    + intros item Hin. simpl. now apply in_map.
    + left; reflexivity.
    + right; reflexivity.
    + intros item Hin. unfold ExcelProcessor.fetchVectors.
      destruct pineconeIndex; apply emits_remote; simpl;
        (split; [reflexivity|]); exists item; now split.
    + intros records Hb. unfold ExcelProcessor.upsertVectors.
      destruct pineconeIndex; apply emits_remote; simpl; now split.
Qed.

(* ===================================================================== *)
(** ** [queryRFPData]: what it calls, and where its answer comes from *)
(* ===================================================================== *)

Section QueryEvents.
Context {W : Type} {C : Collaborators W}.
Variable P : Event -> Prop.
Hypothesis Hfirst : P (ESleep 1000).
Hypothesis Hsecond : P (ESleep 2000).

Lemma emits_questionEmbedding question :
  P (EEmbed question) -> emits P (questionEmbedding (W := W) question).
Proof.
  intros H. unfold questionEmbedding. apply emits_bind.
  - apply emits_withRetry_default; auto.
    unfold getEmbedding. apply emits_bind; [now apply emits_remote|].
    intros [|first rest]; [apply emits_throw|apply emits_ret].
  - intros emb. destruct (flatten emb); [apply emits_ret|apply emits_throw].
Qed.

Lemma emits_complete prompt contexts question :
  P (EChat (promptMessages prompt contexts question)) ->
  emits P (complete (W := W) prompt contexts question).
Proof.
  intros H. unfold complete. apply emits_bind.
  - apply emits_withRetry_default; auto. now apply emits_remote.
  - intros [[|first rest]|]; first [apply emits_ret|apply emits_throw].
Qed.

Lemma emits_Part000_contextOf m : emits P (Part000.contextOf (W := W) m).
Proof.
  unfold Part000.contextOf. destruct (match_metadata m);
    [apply emits_ret|apply emits_throw].
Qed.

Lemma emits_ExcelProcessor_contextOf m : emits P (ExcelProcessor.contextOf (W := W) m).
Proof.
  unfold ExcelProcessor.contextOf. destruct (match_metadata m) as [md|];
    [|apply emits_throw].
  destruct (JSON_parse _); [apply emits_ret|apply emits_throw].
Qed.

End QueryEvents.

(** [queryRFPData] sends the question, unchanged, to the embedding
    service; it asks the index for the five nearest vectors, under the
    filter built from [filters]; the completion gets two messages, the
    system prompt and a user prompt that ends with the question. It never
    fetches or upserts, and never probes. In degraded mode the revision
    with [MOCK_MODE] contacts the embedding service only; out of it, it
    never uses the SDK client. The other revision uses the SDK client only
    when it has one. *)
Theorem queryRFPData_events :
  forall (W : Type) (C : Collaborators W) (MOCK_MODE pineconeIndex : bool)
         (question : string) (filters : JsObject.t string),
    emits (query_event (if MOCK_MODE then Offline else DirectOnly)
             Part000.SYSTEM_PROMPT question filters)
      (Part000.queryRFPData MOCK_MODE question filters) /\
    emits (query_event (if pineconeIndex then SdkThenDirect else DirectOnly)
             ExcelProcessor.SYSTEM_PROMPT question filters)
      (ExcelProcessor.queryRFPData pineconeIndex question filters).
Proof.
  intros W C MOCK_MODE pineconeIndex question filters. split.
  - unfold Part000.queryRFPData.
    apply emits_try_catch; [|intros e; apply emits_ret].
    unfold Part000.queryBody.
    destruct (Part000.isGreeting question); [apply emits_ret|].
    apply emits_bind.
    { apply emits_questionEmbedding; simpl; auto; [now left|now right]. }
    intros v. destruct MOCK_MODE; [apply emits_ret|].
    apply emits_bind.
    { apply emits_withRetry_default; [|now left|now right].
      apply emits_remote. simpl. repeat split. discriminate. }
    intros [r|]; [|apply emits_throw].
    destruct (matches r) as [[|m ms]|]; try apply emits_ret.
    apply emits_bind.
    { apply emits_mapM. intros m'. apply emits_Part000_contextOf. }
    intros contexts. apply emits_complete; [now left|now right|].
    simpl. split; [discriminate|]. now exists contexts.
  - unfold ExcelProcessor.queryRFPData.
    apply emits_try_catch;
      [|intros e; destruct (ExcelProcessor.looksLikeGreeting question); apply emits_ret].
    unfold ExcelProcessor.queryBody.
    apply emits_bind.
    { apply emits_questionEmbedding; simpl; auto; [now left|now right]. }
    intros v. apply emits_bind.
    { unfold ExcelProcessor.queryStore. apply emits_try_catch.
      - destruct pineconeIndex; [|apply emits_throw].
        apply emits_withRetry_default; [|now left|now right].
        apply emits_remote. simpl. repeat split.
      - intros e. apply emits_withRetry_default; [|now left|now right].
        apply emits_remote. simpl. repeat split.
        destruct pineconeIndex; discriminate. }
    intros [r|]; [|apply emits_throw].
    destruct (matches r) as [[|m ms]|];
      try (destruct (ExcelProcessor.looksLikeGreeting question); apply emits_ret).
    apply emits_bind.
    { apply emits_mapM. intros m'. apply emits_ExcelProcessor_contextOf. }
    intros contexts. apply emits_complete; [now left|now right|].
    simpl. split; [destruct pineconeIndex; discriminate|]. now exists contexts.
Qed.

Section Provenance.
Context {W : Type} {C : Collaborators W}.

Lemma mapM_length {A B} (f : A -> M W B) :
  forall l (s : St W) bs s', mapM f l s = (Ok bs, s') -> length bs = length l.
Proof.
  induction l as [|a l IH]; intros s bs s' H; simpl in H.
  - injection H as <- _. reflexivity.
  - unfold bind in H. destruct (f a s) as [[b|e] s1]; [|discriminate].
    destruct (mapM f l s1) as [[bs0|e] s2] eqn:E; [|discriminate].
    injection H as <- _. simpl. f_equal. eapply IH; eauto.
Qed.

(** A completion that answers: its answer and its sources. *)
Lemma complete_outcome prompt contexts question (s : St W) r s' :
  contexts <> [] ->
  complete prompt contexts question s = (Ok r, s') ->
  answered_from_sources prompt question r s'.
Proof.
  intros Hne. unfold complete, bind.
  destruct (withRetry_default (chat _) s) as [[[[|first rest]|]|e] s1] eqn:E;
    try discriminate.
  intros [= <- <-]. unfold answered_from_sources. simpl.
  repeat split; try assumption.
  unfold withRetry_default, withRetry in E.
  apply withRetry_loop_success in E. destruct E as [sk Hk].
  exists sk, rest. exact Hk.
Qed.

Lemma Part000_result_cases MOCK_MODE question filters (s : St W) r s' :
  Part000.queryRFPData MOCK_MODE question filters s = (Ok r, s') ->
  (sources r = [] /\ canned MOCK_MODE question r) \/
  answered_from_sources Part000.SYSTEM_PROMPT question r s'.
Proof.
  unfold Part000.queryRFPData, try_catch.
  destruct (Part000.queryBody MOCK_MODE question filters s) as [[r0|e] s1] eqn:E.
  2:{ intros [= <- <-]. left. split; [reflexivity|].
      right; right; right. now exists e. }
  intros [= <- <-]. unfold Part000.queryBody in E.
  destruct (Part000.isGreeting question).
  { injection E as <- _. left. split; [reflexivity|]. now left. }
  unfold bind at 1 in E.
  destruct (questionEmbedding question s) as [[v|e] s2]; [|discriminate].
  destruct MOCK_MODE.
  { injection E as <- _. left. split; [reflexivity|]. right; right; left. now split. }
  unfold bind at 1 in E.
  destruct (withRetry_default _ s2) as [[[q|]|e] s3]; try discriminate.
  destruct (matches q) as [[|m ms]|].
  - injection E as <- _. left. split; [reflexivity|]. right; now left.
  - unfold bind at 1 in E.
    destruct (mapM Part000.contextOf (m :: ms) s3) as [[contexts|e] s4] eqn:Em;
      [|discriminate].
    right. eapply complete_outcome; [|exact E].
    apply mapM_length in Em. destruct contexts; [discriminate|discriminate].
  - injection E as <- _. left. split; [reflexivity|]. right; now left.
Qed.

Lemma ExcelProcessor_result_cases pineconeIndex question filters (s : St W) r s' :
  ExcelProcessor.queryRFPData pineconeIndex question filters s = (Ok r, s') ->
  (sources r = [] /\ canned false question r) \/
  answered_from_sources ExcelProcessor.SYSTEM_PROMPT question r s'.
Proof.
  unfold ExcelProcessor.queryRFPData, try_catch.
  destruct (ExcelProcessor.queryBody pineconeIndex question filters s)
    as [[r0|e] s1] eqn:E.
  2:{ destruct (ExcelProcessor.looksLikeGreeting question);
        intros [= <- <-]; left; (split; [reflexivity|]);
        [now left|right; right; right; now exists e]. }
  intros [= <- <-]. unfold ExcelProcessor.queryBody in E.
  unfold bind at 1 in E.
  destruct (questionEmbedding question s) as [[v|e] s2]; [|discriminate].
  unfold bind at 1 in E.
  destruct (ExcelProcessor.queryStore _ _ _ s2) as [[[q|]|e] s3]; try discriminate.
  destruct (matches q) as [[|m ms]|].
  - destruct (ExcelProcessor.looksLikeGreeting question);
      injection E as <- _; left; (split; [reflexivity|]); [now left|right; now left].
  - unfold bind at 1 in E.
    destruct (mapM ExcelProcessor.contextOf (m :: ms) s3) as [[contexts|e] s4] eqn:Em;
      [|discriminate].
    right. eapply complete_outcome; [|exact E].
    apply mapM_length in Em. destruct contexts; [discriminate|discriminate].
  - destruct (ExcelProcessor.looksLikeGreeting question);
      injection E as <- _; left; (split; [reflexivity|]); [now left|right; now left].
Qed.

End Provenance.

(** Where an answer comes from, in both revisions. A result either has no
    sources, and is then one of the canned answers (greeting, no match,
    fallback, and in degraded mode only the answer of that mode); or it
    has sources, no error and no degraded
    flag, and its answer is the first choice of a completion that was given
    the system prompt and the user prompt built from exactly these sources
    and the question, that completion being the last call made. *)
Theorem queryRFPData_answer_provenance :
  forall (W : Type) (C : Collaborators W) (MOCK_MODE pineconeIndex : bool)
         (question : string) (filters : JsObject.t string)
         (s : St W) (r : QueryResult) (s' : St W),
    (Part000.queryRFPData MOCK_MODE question filters s = (Ok r, s') ->
     (sources r = [] /\ canned MOCK_MODE question r) \/
     answered_from_sources Part000.SYSTEM_PROMPT question r s') /\
    (ExcelProcessor.queryRFPData pineconeIndex question filters s = (Ok r, s') ->
     (sources r = [] /\ canned false question r) \/
     answered_from_sources ExcelProcessor.SYSTEM_PROMPT question r s').
Proof.
  intros. split.
  - apply Part000_result_cases.
  - apply ExcelProcessor_result_cases.
Qed.

Lemma queryRFPData_answer_provenance_witness :
  exists r s',
    Part000.queryRFPData false "Is data encrypted?" []
      (Harness.start soundMatchWorld) = (Ok r, s') /\
    ((sources r = [] /\ canned false "Is data encrypted?" r) \/
     answered_from_sources Part000.SYSTEM_PROMPT "Is data encrypted?" r s').
Proof.
  eexists _, _. split; [lazy; reflexivity|].
  apply (proj1 (@queryRFPData_answer_provenance Harness.World harness false true
                  "Is data encrypted?" [] (Harness.start soundMatchWorld) _ _)).
  lazy. reflexivity.
Defined.

(* ===================================================================== *)
(** ** More on the retry executor *)
(* ===================================================================== *)

Section RetryLaws.
Context {W A : Type}.

Lemma withRetry_loop_last_attempt (operation : M W A) (maxRetries : Z) :
  forall fuel i delay (s : St W) r s',
    (i < maxRetries)%Z ->
    (Z.to_nat (maxRetries - i) <= fuel)%nat ->
    withRetry_loop fuel operation maxRetries i delay s = (r, s') ->
    exists sk,
      (exists a, r = Ok (Some a) /\ operation sk = (Ok a, s')) \/
      (exists e, r = Throw e /\ operation sk = (Throw e, s')).
Proof.
  induction fuel as [|fuel IH]; intros i delay s r s' Hi Hfuel Hrun; [lia|].
  rewrite withRetry_loop_S in Hrun.
  destruct (Z.ltb_spec i maxRetries); [|lia].
  unfold try_catch, bind in Hrun.
  destruct (operation s) as [[a|e] s1] eqn:E.
  - injection Hrun as <- <-. exists s. left. eauto.
  - destruct (Z.eqb_spec i (maxRetries - 1)).
    + injection Hrun as <- <-. exists s. right. eauto.
    + simpl in Hrun. eapply IH; [| |exact Hrun]; lia.
Qed.

Lemma total_sleep_attempts label :
  forall k delay,
    total_sleep (attempts_trace label (S k) delay)
    = (delay * (2 ^ Z.of_nat k - 1))%Z.
Proof.
  induction k as [|k IH]; intros delay.
  - simpl. lia.
  - change (attempts_trace label (S (S k)) delay)
      with (ECall label :: ESleep delay :: attempts_trace label (S k) (delay * 2)).
    cbn [total_sleep]. rewrite IH, Nat2Z.inj_succ, Z.pow_succ_r by lia. lia.
Qed.

Lemma withRetry_loop_first_success (op : W -> JsResult A * W) label (maxRetries : Z) :
  forall k fuel i delay w tr v w',
    (i + Z.of_nat k < maxRetries)%Z ->
    (k < fuel)%nat ->
    first_success op k w = Some (v, w') ->
    withRetry_loop fuel (remote (ECall label) op) maxRetries i delay
      {| world := w; trace := tr |}
    = (Ok (Some v),
       {| world := w'; trace := (tr ++ attempts_trace label (S k) delay)%list |}).
Proof.
  induction k as [|k IH]; intros fuel i delay w tr v w' Hi Hfuel Hf;
    (destruct fuel as [|fuel]; [lia|]); rewrite withRetry_loop_S;
    (destruct (Z.ltb_spec i maxRetries); [|lia]);
    simpl in Hf; destruct (op w) as [[a|e] w1] eqn:E; try discriminate.
  - injection Hf as <- <-. unfold try_catch, bind, remote. simpl. rewrite E. reflexivity.
  - unfold try_catch, bind, remote. simpl. rewrite E. simpl.
    destruct (Z.eqb_spec i (maxRetries - 1)); [lia|].
    unfold sleep, emit. simpl.
    rewrite (IH fuel (i + 1)%Z (delay * 2)%Z w1 _ v w'); [|lia|lia|assumption].
    change (attempts_trace label (S (S k)) delay)
      with (ECall label :: ESleep delay :: attempts_trace label (S k) (delay * 2)).
    rewrite <- !app_assoc. reflexivity.
Qed.

End RetryLaws.

Section RetryOnNumbersFacts.
Context {W A : Type}.

Lemma lt_test_integer (n i : Z) :
  negb (Qle_bool (inject_Z n) (inject_Z i)) = (i <? n)%Z.
Proof.
  unfold Qle_bool. simpl. rewrite !Z.mul_1_r. now rewrite Z.ltb_antisym.
Qed.

Lemma eq_test_integer (n i : Z) :
  Qeq_bool (inject_Z i) (inject_Z n - 1)%Q = (i =? n - 1)%Z.
Proof.
  unfold Qeq_bool. simpl.
  destruct (Z.eqb_spec (i * 1) ((n * 1 + -1) * 1)), (Z.eqb_spec i (n - 1));
    try reflexivity; lia.
Qed.

(** On an integer the loop is the one of [withRetry_loop]. *)
Lemma withRetryQ_loop_integer (operation : M W A) (n : Z) :
  forall fuel i delay (s : St W),
    withRetryQ_loop fuel operation (inject_Z n) i delay s
    = withRetry_loop fuel operation n i delay s.
Proof.
  induction fuel as [|fuel IH]; intros i delay s; [reflexivity|].
  rewrite withRetry_loop_S. cbn [withRetryQ_loop].
  rewrite lt_test_integer, eq_test_integer.
  destruct (i <? n)%Z; [|reflexivity].
  unfold try_catch. destruct (bind operation _ s) as [[a|e] s1]; [reflexivity|].
  destruct (i =? n - 1)%Z; [reflexivity|].
  unfold bind, sleep, emit. apply IH.
Qed.

Lemma withRetryQ_integer (operation : M W A) (n delay : Z) (s : St W) :
  withRetryQ operation (inject_Z n) delay s = withRetry operation n delay s.
Proof.
  unfold withRetryQ, withRetry. rewrite Qceiling_Z. apply withRetryQ_loop_integer.
Qed.

(** The test [i === maxRetries - 1] never holds of a fraction. *)
Lemma eq_test_fractional (maxRetries : Q) (i : Z) :
  fractional maxRetries -> Qeq_bool (inject_Z i) (maxRetries - 1)%Q = false.
Proof.
  intros H. destruct (Qeq_bool (inject_Z i) (maxRetries - 1)%Q) eqn:E; [|reflexivity].
  apply Qeq_bool_iff in E. exfalso. apply (H (i + 1)%Z).
  rewrite inject_Z_plus, E. unfold inject_Z. ring.
Qed.

Lemma withRetryQ_loop_never_throws (operation : M W A) (maxRetries : Q) :
  fractional maxRetries ->
  forall fuel i delay (s : St W) r s',
    withRetryQ_loop fuel operation maxRetries i delay s = (r, s') ->
    forall e, r <> Throw e.
Proof.
  intros H. induction fuel as [|fuel IH]; intros i delay s r s' Hrun e.
  - injection Hrun as <- _. discriminate.
  - cbn [withRetryQ_loop] in Hrun. rewrite eq_test_fractional in Hrun by assumption.
    destruct (negb (Qle_bool maxRetries (inject_Z i)));
      [|injection Hrun as <- _; discriminate].
    unfold try_catch, bind in Hrun.
    destruct (operation s) as [[a|e0] s1].
    + injection Hrun as <- _. discriminate.
    + simpl in Hrun. eapply IH; eauto.
Qed.

Lemma lt_test_below_ceiling (maxRetries : Q) (i : Z) :
  (i < Qceiling maxRetries)%Z ->
  negb (Qle_bool maxRetries (inject_Z i)) = true.
Proof.
  intros Hi. apply negb_true_iff.
  destruct (Qle_bool maxRetries (inject_Z i)) eqn:E; [|reflexivity].
  apply Qle_bool_iff in E. exfalso.
  pose proof (Qceiling_lt maxRetries) as Hc.
  assert (Hle : (inject_Z i <= inject_Z (Qceiling maxRetries - 1))%Q)
    by (rewrite <- Zle_Qle; lia).
  apply (Qlt_not_le _ _ Hc). eapply Qle_trans; eassumption.
Qed.

Lemma lt_test_at_ceiling (maxRetries : Q) (i : Z) :
  (Qceiling maxRetries <= i)%Z ->
  negb (Qle_bool maxRetries (inject_Z i)) = false.
Proof.
  intros Hi. apply negb_false_iff, Qle_bool_iff.
  eapply Qle_trans; [apply Qle_ceiling|]. now rewrite <- Zle_Qle.
Qed.

(** Attempts that all fail, with a fraction for [maxRetries]: every error
    is dropped, every attempt is followed by its wait, and the loop ends
    on its own test. *)
Lemma withRetryQ_loop_swallows (op : W -> JsResult A * W) label (maxRetries : Q) :
  fractional maxRetries ->
  forall k fuel i delay w tr e w',
    (i + Z.of_nat k = Qceiling maxRetries)%Z ->
    (k <= fuel)%nat ->
    failures op k w = Some (e, w') ->
    withRetryQ_loop fuel (remote (ECall label) op) maxRetries i delay
      {| world := w; trace := tr |}
    = (Ok None,
       {| world := w';
          trace := (tr ++ attempts_then_waits label k delay)%list |}).
Proof.
  intros H. induction k as [|k IH]; intros fuel i delay w tr e w' Hi Hfuel Hf;
    [discriminate|].
  destruct fuel as [|fuel]; [lia|].
  cbn [withRetryQ_loop]. rewrite eq_test_fractional by assumption.
  rewrite lt_test_below_ceiling by lia.
  change (failures op (S k) w) with
    (match op w with
     | (Throw e, w') =>
         match k with
         | O => Some (e, w')
         | S _ => failures op k w'
         end
     | (Ok _, _) => None
     end) in Hf.
  unfold try_catch, bind, remote, sleep, emit. cbn [world trace].
  destruct (op w) as [[a|e0] w0]; [discriminate|]. cbn [world trace].
  destruct k as [|k].
  - injection Hf as <- <-.
    destruct fuel as [|fuel]; cbn [withRetryQ_loop attempts_then_waits].
    + unfold ret. now rewrite <- app_assoc.
    + rewrite lt_test_at_ceiling by lia. unfold ret. now rewrite <- app_assoc.
  - rewrite (IH fuel (i + 1)%Z (delay * 2)%Z w0 _ e w'); [|lia|lia|assumption].
    cbn [attempts_then_waits]. rewrite <- !app_assoc. reflexivity.
Qed.

End RetryOnNumbersFacts.

(** What [withRetry] hands back is what the last attempt gave when
    [maxRetries] is an integer; otherwise the error of the last attempt is
    dropped. The first part takes [maxRetries] as a
    number that is an integer [n >= 1]: the run is that of the integer
    loop, it never returns [undefined], what it returns or throws is what
    the last invocation of the operation returned or threw, and nothing
    follows that invocation. The other two parts take a number that is not
    an integer: the test [i === maxRetries - 1] then never holds, so
    [withRetry] never throws, and when every attempt fails each error is
    dropped, each attempt is followed by its wait, and the call returns
    [undefined] after as many attempts as the integers below
    [maxRetries]. *)
Theorem withRetry_result_is_last_attempt :
  (forall (W A : Type) (operation : M W A) (n delay : Z)
          (s : St W) (r : JsResult (option A)) (s' : St W),
      (1 <= n)%Z ->
      withRetryQ operation (inject_Z n) delay s = (r, s') ->
      withRetry operation n delay s = (r, s') /\
      exists sk,
        (exists a, r = Ok (Some a) /\ operation sk = (Ok a, s')) \/
        (exists e, r = Throw e /\ operation sk = (Throw e, s')))
  /\
  (forall (W A : Type) (operation : M W A) (maxRetries : Q) (delay : Z)
          (s : St W) (r : JsResult (option A)) (s' : St W),
      fractional maxRetries ->
      withRetryQ operation maxRetries delay s = (r, s') ->
      forall e, r <> Throw e)
  /\
  (forall (W A : Type) (op : W -> JsResult A * W) (label : string)
          (maxRetries : Q) (delay : Z) (fuel : nat)
          (w : W) (tr : list Event) (e : JsError) (w' : W),
      fractional maxRetries ->
      (Z.to_nat (Qceiling maxRetries) <= fuel)%nat ->
      failures op (Z.to_nat (Qceiling maxRetries)) w = Some (e, w') ->
      withRetryQ_loop fuel (remote (ECall label) op) maxRetries 0 delay
        {| world := w; trace := tr |}
      = (Ok None,
         {| world := w';
            trace := (tr ++ attempts_then_waits label
                              (Z.to_nat (Qceiling maxRetries)) delay)%list |})).
Proof.
  split; [|split].
  - intros W A operation n delay s r s' Hn Hrun.
    rewrite withRetryQ_integer in Hrun. split; [assumption|].
    unfold withRetry in Hrun.
    eapply withRetry_loop_last_attempt; [| |exact Hrun]; lia.
  - intros W A operation maxRetries delay s r s' Hfrac Hrun.
    unfold withRetryQ in Hrun. eapply withRetryQ_loop_never_throws; eauto.
  - intros W A op label maxRetries delay fuel w tr e w' Hfrac Hfuel Hf.
    apply withRetryQ_loop_swallows with (e := e); try assumption.
    destruct (Z.to_nat (Qceiling maxRetries)) eqn:E; [discriminate|]. lia.
Qed.

Lemma withRetry_result_is_last_attempt_witness :
  (let run := withRetryQ (remote (ECall "flaky") flaky) (inject_Z 3) 1000
                {| world := O; trace := [] |} in
   withRetry (remote (ECall "flaky") flaky) 3 1000 {| world := O; trace := [] |}
   = (fst run, snd run) /\
   exists sk,
     (exists a, fst run = Ok (Some a) /\
                remote (ECall "flaky") flaky sk = (Ok a, snd run)) \/
     (exists e, fst run = Throw e /\
                remote (ECall "flaky") flaky sk = (Throw e, snd run)))
  /\
  withRetryQ (remote (ECall "flaky") hopeless) (5 # 2) 1000
    {| world := O; trace := [] |}
  = (Ok None,
     {| world := 3%nat;
        trace := [ECall "flaky"; ESleep 1000; ECall "flaky"; ESleep 2000;
                  ECall "flaky"; ESleep 4000] |}).
Proof.
  destruct withRetry_result_is_last_attempt as [H1 [_ H3]]. split.
  - apply (H1 nat nat (remote (ECall "flaky") flaky) 3%Z 1000%Z
             {| world := O; trace := [] |}); [lia|reflexivity].
  - apply (H3 nat nat hopeless "flaky" (5 # 2)%Q 1000%Z 3%nat O []
             {| message := "2" |} 3%nat).
    + intros n E. unfold Qeq, inject_Z in E. simpl in E. lia.
    + reflexivity.
    + reflexivity.
Defined.

(** [withRetry] stops at the first success. An operation that throws [k]
    times and then answers, with more than [k] attempts allowed: the answer
    is returned after exactly [k + 1] calls, the waits between them being
    [delay], [2 * delay], ..., [delay * (2 ^ k - 1)] in all; the operation
    is not invoked again. *)
Theorem withRetry_stops_at_first_success :
  forall (W A : Type) (op : W -> JsResult A * W) (label : string)
         (maxRetries delay : Z) (k : nat) (w : W) (tr : list Event)
         (v : A) (w' : W),
    (Z.of_nat k < maxRetries)%Z ->
    first_success op k w = Some (v, w') ->
    withRetry (remote (ECall label) op) maxRetries delay
      {| world := w; trace := tr |}
    = (Ok (Some v),
       {| world := w'; trace := (tr ++ attempts_trace label (S k) delay)%list |}) /\
    length (calls (attempts_trace label (S k) delay)) = S k /\
    total_sleep (attempts_trace label (S k) delay)
    = (delay * (2 ^ Z.of_nat k - 1))%Z.
Proof.
  intros W A op label maxRetries delay k w tr v w' Hk Hf. split; [|split].
  - unfold withRetry. apply withRetry_loop_first_success; [lia|lia|assumption].
  - clear. revert delay. induction k as [|k IH]; intros delay; [reflexivity|].
    change (attempts_trace label (S (S k)) delay)
      with (ECall label :: ESleep delay :: attempts_trace label (S k) (delay * 2)).
    unfold calls in *. simpl. f_equal. apply IH.
  - apply total_sleep_attempts.
Qed.

Lemma withRetry_stops_at_first_success_witness :
  withRetry (remote (ECall "flaky") flaky) 5 1000 {| world := O; trace := [] |}
  = (Ok (Some 2%nat),
     {| world := 3%nat; trace := ([] ++ attempts_trace "flaky" 3 1000)%list |}) /\
  length (calls (attempts_trace "flaky" 3 1000)) = 3 /\
  total_sleep (attempts_trace "flaky" 3 1000) = (1000 * (2 ^ Z.of_nat 2 - 1))%Z.
Proof.
  apply (@withRetry_stops_at_first_success nat nat flaky "flaky" 5 1000 2
           0%nat [] 2%nat 3%nat).
  - lia.
  - reflexivity.
Defined.

(* ===================================================================== *)
(** ** The start-up probe *)
(* ===================================================================== *)

(** The start-up block of the revision with [MOCK_MODE] never throws and
    makes one call, the probe. It leaves [MOCK_MODE] clear exactly when the
    probe answered with an ok status and a body that could be read as
    JSON; a network error, another status or an unreadable body all switch
    the degraded mode on. *)
Theorem startup_degrades_unless_probe_succeeds :
  forall (W : Type) (C : Collaborators W) (s : St W),
    exists MOCK_MODE,
      startup s =
      (Ok MOCK_MODE,
       {| world := snd (describe_index_stats (world s));
          trace := (trace s ++ [EProbe])%list |}) /\
      (MOCK_MODE = false <->
       exists response data,
         fst (describe_index_stats (world s)) = Ok response /\
         probe_ok response = true /\
         probe_json response = Ok data).
Proof.
  intros W C s.
  unfold startup, testConnectivity, try_catch, bind, remote, ret, throw.
  destruct (describe_index_stats (world s)) as [[response|e] w']; simpl.
  - destruct (probe_ok response) eqn:Eok; simpl.
    + destruct (probe_json response) as [data|e] eqn:Ej; simpl.
      * exists false. split; [reflexivity|]. split; [|reflexivity].
        intros _. exists response, data. auto.
      * exists true. split; [reflexivity|]. split; [discriminate|].
        intros [r [d [[= <-] [_ H]]]]. congruence.
    + exists true. split; [reflexivity|]. split; [discriminate|].
      intros [r [d [[= <-] [H _]]]]. congruence.
  - exists true. split; [reflexivity|]. split; [discriminate|].
    intros [r [d [H _]]]. discriminate.
Qed.

(* ===================================================================== *)
(** ** Extraction loses no row *)
(* ===================================================================== *)


Section ObjectOrder.
Variable V : Type.

Lemma insert_sorted_Permutation (e : N * (string * V)) l :
  Permutation (JsObject.insert_sorted e l) (e :: l).
Proof.
  induction l as [|e' l IH]; simpl; [reflexivity|].
  destruct (fst e <=? fst e')%N; [reflexivity|].
  rewrite IH. constructor.
Qed.

(** [Object.entries] enumerates every property once. *)
Lemma entries_Permutation (o : JsObject.t V) : Permutation (JsObject.entries o) o.
Proof.
  unfold JsObject.entries. induction o as [|[k v] o IH]; simpl; [reflexivity|].
  destruct (JsObject.array_index k).
  - rewrite insert_sorted_Permutation. simpl. now constructor.
  - rewrite <- Permutation_middle. now constructor.
Qed.

End ObjectOrder.

Lemma set_group_present (g : JsObject.t (list RowData)) k items row :
  JsObject.get g k = Some items ->
  Permutation (concat (map snd (JsObject.set g k (items ++ [row])%list)))
    (concat (map snd g) ++ [row]).
Proof.
  induction g as [|[k' v'] g IH]; simpl; [discriminate|].
  destruct (String.eqb k' k).
  - intros [= ->]. simpl. rewrite <- !app_assoc.
    apply Permutation_app_head. apply Permutation_app_comm.
  - intros H. simpl. rewrite <- app_assoc. apply Permutation_app_head. now apply IH.
Qed.

Lemma set_group_absent (g : JsObject.t (list RowData)) k row :
  JsObject.get g k = None ->
  concat (map snd (JsObject.set g k [row])) = (concat (map snd g) ++ [row])%list.
Proof.
  induction g as [|[k' v'] g IH]; simpl; [reflexivity|].
  destruct (String.eqb k' k); [discriminate|].
  intros H. simpl. now rewrite IH, app_assoc.
Qed.

Lemma addToGroup_Permutation g row :
  Permutation (concat (map snd (Extractor.addToGroup g row)))
    (concat (map snd g) ++ [row]).
Proof.
  unfold Extractor.addToGroup.
  destruct (JsObject.get g (Extractor.groupKey row)) as [items|] eqn:E.
  - now apply set_group_present.
  - now rewrite set_group_absent.
Qed.

(** Grouping files every row under one key. *)
Lemma groupBy_Permutation rows :
  Permutation (concat (map snd (Extractor.groupBy rows))) rows.
Proof.
  unfold Extractor.groupBy.
  assert (H : forall g,
             Permutation (concat (map snd (fold_left Extractor.addToGroup rows g)))
               (concat (map snd g) ++ rows)).
  { induction rows as [|row rows IH]; intros g; simpl.
    - now rewrite app_nil_r.
    - rewrite IH, addToGroup_Permutation, <- app_assoc. reflexivity. }
  apply (H []).
Qed.




(** A column headed [__proto__] gives no field, and a row with a cell in
    that column only gives no record. *)
Example extraction_proto_header :
  Extractor.processedData [sheet_with_proto_header] =
  Ok [ {| category := "undefined"; sheetName := "Vendors";
          text := "Question: Is data encrypted?";
          originalData := [("Question", "Is data encrypted?")] |} ] /\
  workbookRows [sheet_with_proto_header]
  = [("Vendors", [("Question", "Is data encrypted?")])].
Proof. vm_compute. split; reflexivity. Qed.



(** Every record is made from its own row: its text is the combined text
    of the row it keeps as [originalData] and is not blank, its sheet is a
    sheet of the workbook, and its category, read off the row's [Category]
    field, is never empty. *)
Theorem record_is_made_from_its_row :
  forall (workbook : Workbook) (data : list Item) (item : Item),
    Extractor.processedData workbook = Ok data ->
    In item data ->
    text item = Extractor.combinedText (originalData item) /\
    JsString.truthy (JsString.trim (text item)) = true /\
    In (sheetName item) (Extractor.sheetNames workbook) /\
    category item
    = Extractor.categoryOrDefault (Extractor.groupKey (originalData item)) /\
    JsString.truthy (category item) = true.
Proof.
  intros workbook data item Hdata Hin.
  destruct (@processedData_In workbook data item Hdata Hin) as [ws [items [Hws [Hs Hi]]]].
  destruct (@sheetItems_category ws items item Hs Hi) as [Hname Hcat].
  unfold Extractor.sheetItems in Hs.
  destruct (Extractor.trimHeaders _) as [headers|e]; [|discriminate].
  injection Hs as <-.
  apply in_flat_map in Hi. destruct Hi as [[k rows] [_ Hi]]. simpl in Hi.
  unfold Extractor.itemsOfGroup in Hi. apply in_flat_map in Hi.
  destruct Hi as [row [_ Hi]].
  destruct (JsString.truthy (JsString.trim (Extractor.combinedText row))) eqn:Et;
    [|destruct Hi].
  destruct Hi as [<-|[]]. simpl in *.
  split; [reflexivity|]. split; [assumption|]. split; [|split].
  - unfold Extractor.sheetNames. now apply in_map.
  - assumption.
  - rewrite Hcat. unfold Extractor.categoryOrDefault.
    destruct (JsString.truthy (Extractor.groupKey row)) eqn:Ek; [assumption|reflexivity].
Qed.

Lemma record_is_made_from_its_row_witness :
  let item :=
    {| category := "uncategorized"; sheetName := "Pricing";
       text := "Question: Discounts?";
       originalData := [("Category", ""); ("Question", "Discounts?")] |} in
  text item = Extractor.combinedText (originalData item) /\
  JsString.truthy (JsString.trim (text item)) = true /\
  In (sheetName item)
    (Extractor.sheetNames [sheet_without_category; sheet_with_category]) /\
  category item
  = Extractor.categoryOrDefault (Extractor.groupKey (originalData item)) /\
  JsString.truthy (category item) = true.
Proof.
  apply (@record_is_made_from_its_row [sheet_without_category; sheet_with_category]
           (match Extractor.processedData [sheet_without_category; sheet_with_category] with
            | Ok data => data
            | Throw _ => []
            end)).
  - vm_compute. reflexivity.
  - vm_compute. right; right; left. reflexivity.
Defined.

(* ===================================================================== *)
(** ** The filter of the similarity query *)
(* ===================================================================== *)

(** Only [category] and [sheetName] ever reach the index, each with the
    value the caller gave and only when that value is not empty; any other
    key of [filters] is ignored. Without any key in [filters] the filter is
    [{category: {$exists: true}}]. The filter is the empty object, that is,
    the search is not filtered at all, exactly when [filters] has some key
    but neither a non-empty [category] nor a non-empty [sheetName]. *)
Theorem filterConditions_whitelist :
  forall (filters : JsObject.t string),
    (JsObject.keys filters = [] ->
     filterConditionsOf filters = [("category", FExists true)]) /\
    (forall k v,
        In (k, v) (filterConditionsOf filters) ->
        (k = "category" \/ k = "sheetName") /\
        ((v = FExists true /\ JsObject.keys filters = []) \/
         (exists s, v = FEq s /\ JsObject.get filters k = Some s /\
                    JsString.truthy s = true))) /\
    (sdkFilter (filterConditionsOf filters) = None <->
     JsObject.keys filters <> [] /\
     given filters "category" = false /\ given filters "sheetName" = false).
Proof.
  intros filters. unfold filterConditionsOf, sdkFilter, given.
  destruct (JsObject.keys filters) as [|k0 ks] eqn:Ek.
  - split; [reflexivity|]. split.
    + intros k v [[= <- <-]|[]]. split; [now left|]. left. now split.
    + split; [discriminate|]. intros [H _]. congruence.
  - split; [discriminate|].
    destruct (JsObject.get filters "category") as [c|] eqn:Ec;
      destruct (JsObject.get filters "sheetName") as [n|] eqn:En;
      try destruct (JsString.truthy c) eqn:Tc;
      try destruct (JsString.truthy n) eqn:Tn;
      simpl; (split;
        [ intros k v Hin;
          repeat (destruct Hin as [[= <- <-]|Hin]);
          try destruct Hin;
          (split; [auto|right; eauto])
        | split; [try discriminate; intros _; repeat split; discriminate
                 | intros [_ [H1 H2]]; try discriminate; reflexivity] ]).
Qed.

(* ===================================================================== *)
(** ** Ingestion while a service is down *)
(* ===================================================================== *)

Section Outages.
Context {W : Type} {C : Collaborators W}.

(** Three failing attempts cost the two waits of the back-off. *)
Lemma withRetry_default_down {A} ev (op : W -> JsResult A * W) (s : St W) :
  is_sleep ev = false ->
  always_throws op ->
  exists e s',
    withRetry_default (remote ev op) s = (Throw e, s') /\
    total_sleep (trace s') = (total_sleep (trace s) + 3000)%Z.
Proof.
  intros Hev H. unfold withRetry_default, withRetry.
  change (Z.to_nat 3) with 3%nat. cbn.
  unfold try_catch, bind, remote, sleep, emit, ret, throw.
  destruct (H (world s)) as [e1 [w1 E1]]. rewrite E1. cbn.
  destruct (H w1) as [e2 [w2 E2]]. rewrite E2. cbn.
  destruct (H w2) as [e3 [w3 E3]]. rewrite E3. cbn.
  eexists _, _. split; [reflexivity|]. cbn.
  rewrite !total_sleep_app. cbn [total_sleep].
  destruct ev; try discriminate; lia.
Qed.

Lemma withRetry_default_up {A} ev (op : W -> JsResult A * W) (s : St W) :
  is_sleep ev = false ->
  always_answers op ->
  exists a s',
    withRetry_default (remote ev op) s = (Ok (Some a), s') /\
    total_sleep (trace s') = total_sleep (trace s).
Proof.
  intros Hev H. destruct (H (world s)) as [a [w1 E1]].
  exists a, {| world := w1; trace := (trace s ++ [ev])%list |}. split.
  - apply withRetry_default_first. unfold remote. now rewrite E1.
  - cbn. rewrite total_sleep_app. cbn [total_sleep].
    destruct ev; try discriminate; lia.
Qed.

Lemma embedding_up input (s : St W) :
  embedding_available ->
  exists v s',
    withRetry_default (getEmbedding input) s = (Ok (Some v), s') /\
    total_sleep (trace s') = total_sleep (trace s).
Proof.
  intros H. destruct (H input (world s)) as [first [rest [w1 E1]]].
  exists first, {| world := w1; trace := (trace s ++ [EEmbed input])%list |}. split.
  - apply withRetry_default_first. unfold getEmbedding, bind, remote. now rewrite E1.
  - cbn. rewrite total_sleep_app. cbn. lia.
Qed.

Variable fetch : list string -> W -> JsResult FetchResponse * W.
Variable upsert : list VectorRecord -> W -> JsResult unit * W.
Variable fetchEvent : list string -> Event.
Variable upsertEvent : list VectorRecord -> Event.
Variable md : Metadata.

Hypothesis Hfe : forall ids, is_sleep (fetchEvent ids) = false.
Hypothesis Hue : forall records, is_sleep (upsertEvent records) = false.

Let fetchVectors (ids : list string) : M W FetchResponse :=
  remote (fetchEvent ids) (fetch ids).
Let upsertVectors (records : list VectorRecord) : M W unit :=
  remote (upsertEvent records) (upsert records).

Section FetchOutage.
Hypothesis Hfetch : forall ids, always_throws (fetch ids).
Hypothesis Hembed : embedding_available.
Hypothesis Hupsert : forall records, always_answers (upsert records).

Lemma prepareItem_fetch_down ops n item (s : St W) :
  exists v s',
    prepareItem fetchVectors md (ops, n) item s
    = (Ok ((ops ++ [ {| id := generateStableId md item; values := v;
                        metadata := vectorMetadata md item |} ])%list,
           {| processedRows := S (processedRows n);
              skippedRows := skippedRows n;
              errorRows := errorRows n |}), s') /\
    total_sleep (trace s') = (total_sleep (trace s) + 3000)%Z.
Proof.
  unfold prepareItem, try_catch. unfold bind at 1.
  unfold existingVector, try_catch. unfold bind at 1.
  destruct (withRetry_default_down (fetchEvent [generateStableId md item]) s
              (Hfe _) (Hfetch [generateStableId md item])) as [e [s1 [E1 Hs1]]].
  unfold fetchVectors. rewrite E1. unfold ret at 1. cbn [JsObject.get].
  unfold bind.
  destruct (embedding_up (text item) s1 Hembed) as [v [s2 [E2 Hs2]]].
  rewrite E2. eexists _, s2. split; [reflexivity|]. lia.
Qed.

Lemma stage_batch_fetch_down :
  forall batch ops n (s : St W),
    exists ops' s',
      foldM (prepareItem fetchVectors md) batch (ops, n) s
      = (Ok (ops',
             {| processedRows := processedRows n + length batch;
                skippedRows := skippedRows n;
                errorRows := errorRows n |}), s') /\
      total_sleep (trace s')
      = (total_sleep (trace s) + 3000 * Z.of_nat (length batch))%Z.
Proof.
  induction batch as [|item batch IH]; intros ops n s.
  - exists ops, s. simpl. split; [|lia].
    unfold ret. destruct n; simpl. repeat (f_equal; try lia).
  - destruct (prepareItem_fetch_down ops n item s) as [v [s1 [E1 Hs1]]].
    rewrite foldM_cons, E1.
    destruct (IH (ops ++ [ {| id := generateStableId md item; values := v;
                              metadata := vectorMetadata md item |} ])%list
                {| processedRows := S (processedRows n);
                   skippedRows := skippedRows n;
                   errorRows := errorRows n |} s1) as [ops' [s' [E2 Hs2]]].
    exists ops', s'. rewrite E2. cbn [processedRows skippedRows errorRows length].
    split; [repeat (f_equal; try lia)|lia].
Qed.

Lemma uploadBatch_fetch_down n batch (s : St W) :
  exists s',
    uploadBatch fetchVectors upsertVectors md n batch s
    = (Ok {| processedRows := processedRows n + length batch;
             skippedRows := skippedRows n;
             errorRows := errorRows n |}, s') /\
    total_sleep (trace s')
    = (total_sleep (trace s) + 3000 * Z.of_nat (length batch))%Z.
Proof.
  destruct (stage_batch_fetch_down batch [] n s) as [ops [s1 [E1 Hs1]]].
  unfold uploadBatch. unfold bind at 1. rewrite E1.
  destruct ops as [|op ops]; [exists s1; split; [reflexivity|assumption]|].
  unfold try_catch, bind.
  destruct (withRetry_default_up (upsertEvent (op :: ops)) s1 (Hue _)
              (Hupsert (op :: ops))) as [u [s2 [E2 Hs2]]].
  unfold upsertVectors. rewrite E2. exists s2. split; [reflexivity|lia].
Qed.

Lemma upload_batches_fetch_down :
  forall batches n (s : St W),
    exists s',
      foldM (uploadBatch fetchVectors upsertVectors md) batches n s
      = (Ok {| processedRows := processedRows n + length (concat batches);
               skippedRows := skippedRows n;
               errorRows := errorRows n |}, s') /\
      total_sleep (trace s')
      = (total_sleep (trace s) + 3000 * Z.of_nat (length (concat batches)))%Z.
Proof.
  induction batches as [|batch batches IH]; intros n s.
  - exists s. simpl. split; [|lia].
    unfold ret. destruct n; simpl. repeat (f_equal; try lia).
  - destruct (uploadBatch_fetch_down n batch s) as [s1 [E1 Hs1]].
    rewrite foldM_cons, E1.
    destruct (IH {| processedRows := processedRows n + length batch;
                    skippedRows := skippedRows n;
                    errorRows := errorRows n |} s1) as [s' [E2 Hs2]].
    exists s'. rewrite E2. cbn [processedRows skippedRows errorRows concat].
    rewrite length_app. split; [repeat (f_equal; try lia)|lia].
Qed.

Lemma uploadAll_fetch_down data (s : St W) :
  exists s',
    uploadAll fetchVectors upsertVectors md data s
    = (Ok {| processedRows := length data; skippedRows := 0; errorRows := 0 |}, s') /\
    total_sleep (trace s')
    = (total_sleep (trace s) + 3000 * Z.of_nat (length data))%Z.
Proof.
  destruct (upload_batches_fetch_down (chunk BATCH_SIZE data) noRows s) as [s' [E Hs]].
  rewrite concat_chunk in E, Hs. exists s'. unfold uploadAll. rewrite E.
  split; [reflexivity|assumption].
Qed.

End FetchOutage.

End Outages.

(** A read outage makes ingestion fail open, at a price. When every fetch
    of the gateway in use throws while the embedding service and the
    upserts answer, every record of the spreadsheet is embedded and
    uploaded again, already stored or not: the stats are
    [totalItems = processed], [skipped = 0], [errors = 0], and the run has
    waited three seconds per record in the retries of the fetch check. *)
Theorem fetch_outage_reingests_everything :
  forall (W : Type) (C : Collaborators W) (pineconeIndex : bool)
         (buffer : string) (md : Metadata) (workbook : Workbook)
         (data : list Item) (s : St W),
    xlsx_load buffer = Ok workbook ->
    Extractor.processedData workbook = Ok data ->
    (forall ids, always_throws (storeFetch pineconeIndex ids)) ->
    embedding_available ->
    (forall records, always_answers (storeUpsert pineconeIndex records)) ->
    exists result s',
      ExcelProcessor.processExcelRFP pineconeIndex buffer md s = (Ok result, s') /\
      (pineconeIndex = false ->
       Part000.processExcelRFP false buffer md s = (Ok result, s')) /\
      success result = true /\
      stats result = {| totalItems := length data; processed := length data;
                        skipped := 0; errors := 0 |} /\
      total_sleep (trace s')
      = (total_sleep (trace s) + 3000 * Z.of_nat (length data))%Z.
Proof.
  intros W C pineconeIndex buffer md workbook data s Hload Hdata Hf He Hu.
  unfold ExcelProcessor.processExcelRFP, Part000.processExcelRFP, try_catch.
  rewrite Hload, Hdata. unfold bind.
  destruct pineconeIndex.
  - destruct (@uploadAll_fetch_down W C pineconeIndex_fetch pineconeIndex_upsert
                ESdkFetch ESdkUpsert md (fun _ => eq_refl) (fun _ => eq_refl)
                Hf He Hu data s) as [s' [E Hs]].
    unfold ExcelProcessor.fetchVectors, ExcelProcessor.upsertVectors, sdk_fetch, sdk_upsert.
    rewrite E. eexists _, s'. split; [reflexivity|].
    split; [discriminate|]. split; [reflexivity|]. split; [reflexivity|assumption].
  - destruct (@uploadAll_fetch_down W C pineconeApi_fetch pineconeApi_upsert
                EApiFetch EApiUpsert md (fun _ => eq_refl) (fun _ => eq_refl)
                Hf He Hu data s) as [s' [E Hs]].
    unfold ExcelProcessor.fetchVectors, ExcelProcessor.upsertVectors, api_fetch, api_upsert.
    rewrite E. eexists _, s'. split; [reflexivity|].
    split; [reflexivity|]. split; [reflexivity|]. split; [reflexivity|assumption].
Qed.

Lemma fetch_outage_reingests_everything_witness :
  exists result s',
    ExcelProcessor.processExcelRFP (C := Faulty.collaborators Faulty.fetchOutage)
      true "rfp.xlsx" md_2024_Q1 Faulty.start = (Ok result, s') /\
    (true = false ->
     Part000.processExcelRFP (C := Faulty.collaborators Faulty.fetchOutage)
       false "rfp.xlsx" md_2024_Q1 Faulty.start = (Ok result, s')) /\
    success result = true /\
    stats result = {| totalItems := 3; processed := 3; skipped := 0; errors := 0 |} /\
    total_sleep (trace s') = (total_sleep [] + 3000 * Z.of_nat 3)%Z.
Proof.
  apply (@fetch_outage_reingests_everything nat
           (Faulty.collaborators Faulty.fetchOutage) true "rfp.xlsx" md_2024_Q1
           [sheet_without_category; sheet_with_category]
           [ {| category := "undefined"; sheetName := "Security";
                text := "Question: Is data encrypted?" ++ JsString.newline
                        ++ "Answer: Yes, AES-256";
                originalData := [("Question", "Is data encrypted?");
                                 ("Answer", "Yes, AES-256")] |};
             {| category := "Licensing"; sheetName := "Pricing";
                text := "Category: Licensing" ++ JsString.newline
                        ++ "Question: Per seat?";
                originalData := [("Category", "Licensing"); ("Question", "Per seat?")] |};
             {| category := "uncategorized"; sheetName := "Pricing";
                text := "Question: Discounts?";
                originalData := [("Category", ""); ("Question", "Discounts?")] |} ]
           Faulty.start).
  - reflexivity.
  - vm_compute. reflexivity.
  - intros ids w. eexists _, _. reflexivity.
  - intros input w. eexists _, _, _. reflexivity.
  - intros records w. eexists _, _. reflexivity.
Defined.

Section UploadOutcome.
Context {W : Type} {C : Collaborators W}.
Variable fetchVectors : list string -> M W FetchResponse.
Variable upsertVectors : list VectorRecord -> M W unit.
Variable md : Metadata.

(** Whether the uploads of the run all fail or all succeed. *)
Variable down : bool.
Hypothesis Hupload :
  forall records (s : St W),
    exists s',
      if down
      then exists e, withRetry_default (upsertVectors records) s = (Throw e, s')
      else exists r, withRetry_default (upsertVectors records) s = (Ok r, s').

Lemma uploadBatch_uniform n batch (s : St W) :
  exists n' s' a b c,
    uploadBatch fetchVectors upsertVectors md n batch s = (Ok n', s') /\
    a + b + c = length batch /\
    processedRows n' = processedRows n + a /\
    skippedRows n' = skippedRows n + b /\
    errorRows n' = errorRows n + c + (if down then a else 0).
Proof.
  destruct (stage_batch_counts fetchVectors md batch [] n s)
    as [ops [n1 [s1 [a [b [c [E [Hs [Hp [Hk [He Hl]]]]]]]]]]].
  unfold uploadBatch. unfold bind at 1. rewrite E. simpl in Hl.
  destruct ops as [|op ops].
  - exists n1, s1, a, b, c. split; [reflexivity|].
    simpl in Hl. subst a. destruct down; repeat split; lia.
  - unfold try_catch, bind.
    destruct (Hupload (op :: ops) s1) as [s2 H]. destruct down.
    + destruct H as [e H]. rewrite H. eexists _, s2, a, b, c.
      split; [reflexivity|]. cbn [processedRows skippedRows errorRows].
      repeat split; lia.
    + destruct H as [r H]. rewrite H. exists n1, s2, a, b, c.
      split; [reflexivity|]. repeat split; lia.
Qed.

Lemma upload_batches_uniform :
  forall batches n (s : St W),
    exists n' s' a b c,
      foldM (uploadBatch fetchVectors upsertVectors md) batches n s = (Ok n', s') /\
      a + b + c = length (concat batches) /\
      processedRows n' = processedRows n + a /\
      skippedRows n' = skippedRows n + b /\
      errorRows n' = errorRows n + c + (if down then a else 0).
Proof.
  induction batches as [|batch batches IH]; intros n s.
  - exists n, s, 0, 0, 0. simpl. destruct down; repeat split; lia.
  - destruct (uploadBatch_uniform n batch s)
      as [n1 [s1 [a1 [b1 [c1 [E1 [Hs1 [Hp1 [Hk1 He1]]]]]]]]].
    destruct (IH n1 s1) as [n' [s' [a [b [c [E2 [Hs [Hp [Hk He]]]]]]]]].
    rewrite foldM_cons, E1, E2.
    exists n', s', (a1 + a), (b1 + b), (c1 + c).
    simpl. rewrite length_app. destruct down; repeat split; lia.
Qed.

Lemma uploadAll_uniform data (s : St W) :
  exists n s' failed,
    uploadAll fetchVectors upsertVectors md data s = (Ok n, s') /\
    processedRows n + skippedRows n + failed = length data /\
    errorRows n = failed + (if down then processedRows n else 0).
Proof.
  destruct (upload_batches_uniform (chunk BATCH_SIZE data) noRows s)
    as [n [s' [a [b [c [E [Hs [Hp [Hk He]]]]]]]]].
  rewrite concat_chunk in Hs. simpl in Hp, Hk, He.
  exists n, s', c. unfold uploadAll. rewrite E.
  split; [reflexivity|]. destruct down; split; lia.
Qed.

End UploadOutcome.

Section GatewayOutcome.
Context {W : Type} {C : Collaborators W}.

Lemma withRetry_default_throws {A} ev (op : W -> JsResult A * W) (s : St W) :
  always_throws op ->
  exists s' e, withRetry_default (remote ev op) s = (Throw e, s').
Proof.
  intros H. unfold withRetry_default, withRetry.
  change (Z.to_nat 3) with 3%nat. cbn.
  unfold try_catch, bind, remote, sleep, emit, ret, throw.
  destruct (H (world s)) as [e1 [w1 E1]]. rewrite E1. cbn.
  destruct (H w1) as [e2 [w2 E2]]. rewrite E2. cbn.
  destruct (H w2) as [e3 [w3 E3]]. rewrite E3. cbn.
  eexists _, _. reflexivity.
Qed.

Lemma withRetry_default_answers {A} ev (op : W -> JsResult A * W) (s : St W) :
  always_answers op ->
  exists s' r, withRetry_default (remote ev op) s = (Ok r, s').
Proof.
  intros H. destruct (H (world s)) as [a [w1 E1]].
  eexists _, _. apply withRetry_default_first. unfold remote. now rewrite E1.
Qed.

Lemma upsertVectors_outcome (down pineconeIndex : bool) :
  (forall records,
      if down then always_throws (storeUpsert pineconeIndex records)
      else always_answers (storeUpsert pineconeIndex records)) ->
  forall records (s : St W),
    exists s',
      if down
      then exists e,
          withRetry_default (ExcelProcessor.upsertVectors pineconeIndex records) s
          = (Throw e, s')
      else exists r,
          withRetry_default (ExcelProcessor.upsertVectors pineconeIndex records) s
          = (Ok r, s').
Proof.
  intros H records s. specialize (H records).
  unfold ExcelProcessor.upsertVectors, storeUpsert, sdk_upsert, api_upsert in *.
  destruct down, pineconeIndex;
    first [now apply withRetry_default_throws|now apply withRetry_default_answers].
Qed.

End GatewayOutcome.

(** With the uploads down, a run still reports success, and what it
    reports as processed was not stored. When every upsert of the gateway
    in use throws, whatever the fetches and the embedding service do:
    [processExcelRFP] returns with [success = true]; every record that was
    embedded is counted in [processed] and again in [errors], so that
    [errors + skipped = totalItems] and [processed <= errors]. *)
Theorem upload_outage_counts_records_twice :
  forall (W : Type) (C : Collaborators W) (pineconeIndex : bool)
         (buffer : string) (md : Metadata) (workbook : Workbook)
         (data : list Item) (s : St W),
    xlsx_load buffer = Ok workbook ->
    Extractor.processedData workbook = Ok data ->
    (forall records, always_throws (storeUpsert pineconeIndex records)) ->
    exists result s',
      ExcelProcessor.processExcelRFP pineconeIndex buffer md s = (Ok result, s') /\
      (pineconeIndex = false ->
       Part000.processExcelRFP false buffer md s = (Ok result, s')) /\
      success result = true /\
      totalItems (stats result) = length data /\
      errors (stats result) + skipped (stats result) = totalItems (stats result) /\
      processed (stats result) <= errors (stats result).
Proof.
  intros W C pineconeIndex buffer md workbook data s Hload Hdata Hup.
  destruct (@uploadAll_uniform W C (ExcelProcessor.fetchVectors pineconeIndex)
              (ExcelProcessor.upsertVectors pineconeIndex) md true
              (upsertVectors_outcome true pineconeIndex Hup) data s)
    as [n [s' [failed [E [Hsum He]]]]].
  unfold ExcelProcessor.processExcelRFP, Part000.processExcelRFP, try_catch.
  rewrite Hload, Hdata. unfold bind. rewrite E.
  eexists _, s'. split; [reflexivity|]. split.
  - intros ->.
    change (uploadAll api_fetch api_upsert md data s)
      with (uploadAll (ExcelProcessor.fetchVectors false)
              (ExcelProcessor.upsertVectors false) md data s).
    rewrite E. reflexivity.
  - simpl. repeat split; lia.
Qed.

Lemma upload_outage_counts_records_twice_witness :
  exists result s',
    ExcelProcessor.processExcelRFP (C := Faulty.collaborators Faulty.uploadOutage)
      true "rfp.xlsx" md_2024_Q1 Faulty.start = (Ok result, s') /\
    (true = false ->
     Part000.processExcelRFP (C := Faulty.collaborators Faulty.uploadOutage)
       false "rfp.xlsx" md_2024_Q1 Faulty.start = (Ok result, s')) /\
    success result = true /\
    totalItems (stats result) = 3 /\
    errors (stats result) + skipped (stats result) = totalItems (stats result) /\
    processed (stats result) <= errors (stats result).
Proof.
  apply (@upload_outage_counts_records_twice nat
           (Faulty.collaborators Faulty.uploadOutage) true "rfp.xlsx" md_2024_Q1
           [sheet_without_category; sheet_with_category]
           [ {| category := "undefined"; sheetName := "Security";
                text := "Question: Is data encrypted?" ++ JsString.newline
                        ++ "Answer: Yes, AES-256";
                originalData := [("Question", "Is data encrypted?");
                                 ("Answer", "Yes, AES-256")] |};
             {| category := "Licensing"; sheetName := "Pricing";
                text := "Category: Licensing" ++ JsString.newline
                        ++ "Question: Per seat?";
                originalData := [("Category", "Licensing"); ("Question", "Per seat?")] |};
             {| category := "uncategorized"; sheetName := "Pricing";
                text := "Question: Discounts?";
                originalData := [("Category", ""); ("Question", "Discounts?")] |} ]
           Faulty.start).
  - reflexivity.
  - vm_compute. reflexivity.
  - intros records w. eexists _, _. reflexivity.
Defined.

(** When no upload fails, the three counters add up: if every upsert of
    the gateway in use answers, then
    [processed + skipped + errors = totalItems], whatever the fetches and
    the embedding service do; a record is then in [errors] only because its
    embedding failed. *)
Theorem counters_add_up_when_uploads_succeed :
  forall (W : Type) (C : Collaborators W) (pineconeIndex : bool)
         (buffer : string) (md : Metadata) (workbook : Workbook)
         (data : list Item) (s : St W),
    xlsx_load buffer = Ok workbook ->
    Extractor.processedData workbook = Ok data ->
    (forall records, always_answers (storeUpsert pineconeIndex records)) ->
    exists result s',
      ExcelProcessor.processExcelRFP pineconeIndex buffer md s = (Ok result, s') /\
      (pineconeIndex = false ->
       Part000.processExcelRFP false buffer md s = (Ok result, s')) /\
      totalItems (stats result) = length data /\
      processed (stats result) + skipped (stats result) + errors (stats result)
      = totalItems (stats result).
Proof.
  intros W C pineconeIndex buffer md workbook data s Hload Hdata Hup.
  destruct (@uploadAll_uniform W C (ExcelProcessor.fetchVectors pineconeIndex)
              (ExcelProcessor.upsertVectors pineconeIndex) md false
              (upsertVectors_outcome false pineconeIndex Hup) data s)
    as [n [s' [failed [E [Hsum He]]]]].
  unfold ExcelProcessor.processExcelRFP, Part000.processExcelRFP, try_catch.
  rewrite Hload, Hdata. unfold bind. rewrite E.
  eexists _, s'. split; [reflexivity|]. split.
  - intros ->.
    change (uploadAll api_fetch api_upsert md data s)
      with (uploadAll (ExcelProcessor.fetchVectors false)
              (ExcelProcessor.upsertVectors false) md data s).
    rewrite E. reflexivity.
  - simpl. repeat split; lia.
Qed.

Lemma counters_add_up_when_uploads_succeed_witness :
  exists result s',
    ExcelProcessor.processExcelRFP false "rfp.xlsx" md_2024_Q1
      (Harness.start embeddingDownWorld) = (Ok result, s') /\
    (false = false ->
     Part000.processExcelRFP false "rfp.xlsx" md_2024_Q1
       (Harness.start embeddingDownWorld) = (Ok result, s')) /\
    totalItems (stats result) = 3 /\
    processed (stats result) + skipped (stats result) + errors (stats result)
    = totalItems (stats result).
Proof.
  apply (@counters_add_up_when_uploads_succeed Harness.World harness false
           "rfp.xlsx" md_2024_Q1
           [sheet_without_category; sheet_with_category]
           [ {| category := "undefined"; sheetName := "Security";
                text := "Question: Is data encrypted?" ++ JsString.newline
                        ++ "Answer: Yes, AES-256";
                originalData := [("Question", "Is data encrypted?");
                                 ("Answer", "Yes, AES-256")] |};
             {| category := "Licensing"; sheetName := "Pricing";
                text := "Category: Licensing" ++ JsString.newline
                        ++ "Question: Per seat?";
                originalData := [("Category", "Licensing"); ("Question", "Per seat?")] |};
             {| category := "uncategorized"; sheetName := "Pricing";
                text := "Question: Discounts?";
                originalData := [("Category", ""); ("Question", "Discounts?")] |} ]
           (Harness.start embeddingDownWorld)).
  - reflexivity.
  - vm_compute. reflexivity.
  - intros records w. eexists _, _. reflexivity.
Defined.

(* ===================================================================== *)
(** ** The metadata stored with a vector *)
(* ===================================================================== *)

Section ObjectLookup.
Variable V : Type.

Lemma get_set_same (o : JsObject.t V) k v : JsObject.get (JsObject.set o k v) k = Some v.
Proof.
  induction o as [|[k' v'] o IH]; simpl.
  - now rewrite String.eqb_refl.
  - destruct (String.eqb k' k) eqn:E; simpl.
    + now rewrite String.eqb_refl.
    + now rewrite E.
Qed.

Lemma get_set_other (o : JsObject.t V) k v k' :
  k <> k' -> JsObject.get (JsObject.set o k v) k' = JsObject.get o k'.
Proof.
  intros Hne. induction o as [|[k0 v0] o IH]; simpl.
  - destruct (String.eqb_spec k k'); [contradiction|reflexivity].
  - destruct (String.eqb_spec k0 k) as [->|Hk]; simpl.
    + destruct (String.eqb_spec k k'); [contradiction|reflexivity].
    + destruct (String.eqb k0 k'); [reflexivity|assumption].
Qed.

Lemma get_app (l1 l2 : JsObject.t V) k :
  JsObject.get (l1 ++ l2)%list k =
  match JsObject.get l1 k with
  | Some v => Some v
  | None => JsObject.get l2 k
  end.
Proof.
  induction l1 as [|[k' v'] l1 IH]; simpl; [reflexivity|].
  destruct (String.eqb k' k); [reflexivity|assumption].
Qed.

Lemma get_named_entries (o : JsObject.t V) k :
  JsObject.get (JsObject.named_entries o) k =
  match JsObject.array_index k with
  | Some _ => None
  | None => JsObject.get o k
  end.
Proof.
  induction o as [|[k' v'] o IH]; simpl.
  - now destruct (JsObject.array_index k).
  - destruct (JsObject.array_index k') eqn:E'; simpl.
    + rewrite IH. destruct (String.eqb_spec k' k) as [->|_]; [|reflexivity].
      now rewrite E'.
    + destruct (String.eqb_spec k' k) as [->|_]; [now rewrite E'|assumption].
Qed.

Lemma indexed_index_entries (o : JsObject.t V) : indexed (JsObject.index_entries o).
Proof.
  induction o as [|[k v] o IH]; simpl; [intros x []|].
  destruct (JsObject.array_index k) as [n|] eqn:E; [|assumption].
  intros x Hx. apply insert_sorted_In in Hx. destruct Hx as [->|Hx]; [assumption|].
  now apply IH.
Qed.

Lemma get_insert_sorted n k (v : V) (l : list (N * (string * V))) k0 :
  indexed l -> JsObject.array_index k = Some n ->
  JsObject.get (map snd (JsObject.insert_sorted (n, (k, v)) l)) k0 =
  if String.eqb k k0 then Some v else JsObject.get (map snd l) k0.
Proof.
  intros Hl Hk. induction l as [|[m [k' v']] l IH]; simpl; [reflexivity|].
  destruct (N.leb_spec n m) as [Hle|Hlt]; simpl; [reflexivity|].
  rewrite IH by (intros x Hx; apply Hl; now right).
  destruct (String.eqb_spec k' k0) as [->|_]; [|reflexivity].
  destruct (String.eqb_spec k k0) as [->|_]; [|reflexivity].
  specialize (Hl (m, (k0, v')) (or_introl eq_refl)). simpl in Hl.
  rewrite Hk in Hl. injection Hl as ->. lia.
Qed.

Lemma get_index_entries (o : JsObject.t V) k :
  JsObject.get (map snd (JsObject.index_entries o)) k =
  match JsObject.array_index k with
  | Some _ => JsObject.get o k
  | None => None
  end.
Proof.
  induction o as [|[k' v'] o IH]; simpl.
  - now destruct (JsObject.array_index k).
  - destruct (JsObject.array_index k') as [n|] eqn:E'.
    + rewrite get_insert_sorted by (auto using indexed_index_entries).
      rewrite IH. destruct (String.eqb_spec k' k) as [->|_]; [now rewrite E'|reflexivity].
    + rewrite IH. destruct (String.eqb_spec k' k) as [->|_]; [now rewrite E'|reflexivity].
Qed.

(** Reading a property does not depend on the enumeration order. *)
Lemma get_entries (o : JsObject.t V) k :
  JsObject.get (JsObject.entries o) k = JsObject.get o k.
Proof.
  unfold JsObject.entries. rewrite get_app, get_index_entries, get_named_entries.
  destruct (JsObject.array_index k); [|reflexivity].
  now destruct (JsObject.get o k).
Qed.

End ObjectLookup.

(** The metadata stored with a vector holds the four fields of the record
    ([category], [sheetName], [text], and [originalData] as a JSON
    string), which override properties of the same names in the caller's
    metadata; every other property of the caller's metadata (the [rfpId]
    among them) is stored unchanged, and nothing else is stored. *)
Theorem vectorMetadata_fields :
  forall (md : Metadata) (item : Item),
    JsObject.get (vectorMetadata md item) "category" = Some (category item) /\
    JsObject.get (vectorMetadata md item) "sheetName" = Some (sheetName item) /\
    JsObject.get (vectorMetadata md item) "text" = Some (text item) /\
    JsObject.get (vectorMetadata md item) "originalData"
    = Some (Json_stringify.row (originalData item)) /\
    JsObject.get (vectorMetadata md item) "rfpId" = JsObject.get md "rfpId" /\
    (forall k,
        k <> "category" -> k <> "sheetName" -> k <> "text" -> k <> "originalData" ->
        JsObject.get (vectorMetadata md item) k = JsObject.get md k).
Proof.
  intros md item. unfold vectorMetadata.
  assert (Hother : forall k,
             k <> "category" -> k <> "sheetName" -> k <> "text" ->
             k <> "originalData" ->
             JsObject.get
               (JsObject.set
                  (JsObject.set
                     (JsObject.set
                        (JsObject.set (JsObject.entries md) "category" (category item))
                        "sheetName" (sheetName item))
                     "text" (text item))
                  "originalData" (Json_stringify.row (originalData item))) k
             = JsObject.get md k).
  { intros k H1 H2 H3 H4.
    rewrite !get_set_other by congruence. apply get_entries. }
  repeat split.
  - rewrite !get_set_other by discriminate. apply get_set_same.
  - rewrite !get_set_other by discriminate. apply get_set_same.
  - rewrite !get_set_other by discriminate. apply get_set_same.
  - apply get_set_same.
  - apply Hother; discriminate.
  - exact Hother.
Qed.

(* ===================================================================== *)
(** ** Worst-case cost of a call *)
(* ===================================================================== *)

Lemma calls_app (a b : list Event) : calls (a ++ b) = (calls a ++ calls b)%list.
Proof. unfold calls. apply filter_app. Qed.

Section Bounded.
Context {W : Type}.

Lemma bounded_weaken {A} n w n' w' (c : M W A) :
  n <= n' -> (w <= w')%Z -> bounded n w c -> bounded n' w' c.
Proof.
  intros Hn Hw Hc s r s' H. destruct (Hc _ _ _ H) as [evs [Ht [Hl Hs]]].
  exists evs. repeat split; try assumption; lia.
Qed.

Lemma bounded_ret {A} (a : A) : bounded 0 0 (@ret W A a).
Proof.
  intros s r s' [= _ <-]. exists []. rewrite app_nil_r. simpl. repeat split; lia.
Qed.

Lemma bounded_throw {A} (e : JsError) : bounded 0 0 (@throw W A e).
Proof.
  intros s r s' [= _ <-]. exists []. rewrite app_nil_r. simpl. repeat split; lia.
Qed.

Lemma bounded_remote {A} ev (op : W -> JsResult A * W) :
  is_sleep ev = false -> bounded 1 0 (remote ev op).
Proof.
  intros Hev s r s'. unfold remote. destruct (op (world s)) as [r0 w'].
  intros [= _ <-]. exists [ev]. split; [reflexivity|].
  unfold calls. simpl. rewrite Hev. simpl.
  destruct ev; try discriminate; repeat split; lia.
Qed.

Lemma bounded_sleep ms : (0 <= ms)%Z -> bounded 0 ms (@sleep W ms).
Proof.
  intros Hms s r s' [= _ <-]. exists [ESleep ms]. split; [reflexivity|].
  simpl. repeat split; lia.
Qed.

Lemma bounded_bind {A B} n1 w1 n2 w2 (c : M W A) (k : A -> M W B) :
  (0 <= w2)%Z ->
  bounded n1 w1 c -> (forall a, bounded n2 w2 (k a)) ->
  bounded (n1 + n2) (w1 + w2) (bind c k).
Proof.
  intros Hw Hc Hk s r s'. unfold bind.
  destruct (c s) as [[a|e] s1] eqn:E.
  - intros H. destruct (Hc _ _ _ E) as [e1 [H1 [L1 S1]]].
    destruct (Hk _ _ _ _ H) as [e2 [H2 [L2 S2]]].
    exists (e1 ++ e2)%list. split; [now rewrite H2, H1, app_assoc|].
    rewrite calls_app, length_app, total_sleep_app. repeat split; lia.
  - intros [= _ <-]. destruct (Hc _ _ _ E) as [e1 [H1 [L1 S1]]].
    exists e1. repeat split; try assumption; lia.
Qed.

Lemma bounded_try_catch {A} n1 w1 n2 w2 (c : M W A) (h : JsError -> M W A) :
  (0 <= w2)%Z ->
  bounded n1 w1 c -> (forall e, bounded n2 w2 (h e)) ->
  bounded (n1 + n2) (w1 + w2) (try_catch c h).
Proof.
  intros Hw Hc Hh s r s'. unfold try_catch.
  destruct (c s) as [[a|e] s1] eqn:E.
  - intros [= _ <-]. destruct (Hc _ _ _ E) as [e1 [H1 [L1 S1]]].
    exists e1. repeat split; try assumption; lia.
  - intros H. destruct (Hc _ _ _ E) as [e1 [H1 [L1 S1]]].
    destruct (Hh _ _ _ _ H) as [e2 [H2 [L2 S2]]].
    exists (e1 ++ e2)%list. split; [now rewrite H2, H1, app_assoc|].
    rewrite calls_app, length_app, total_sleep_app. repeat split; lia.
Qed.

(** One attempt: the operation, its result wrapped. *)
Lemma bounded_attempt {A} n w (c : M W A) :
  bounded n w c -> bounded n w (a <- c ;; ret (Some a)).
Proof.
  intros Hc. apply (@bounded_weaken _ (n + 0) (w + 0)); [lia|lia|].
  apply bounded_bind; [lia|assumption|intros; apply bounded_ret].
Qed.

(** The default retry: three attempts at most, and three seconds of
    waiting on top of theirs. *)
Lemma bounded_withRetry_default {A} n w (c : M W A) :
  (0 <= w)%Z -> bounded n w c ->
  bounded (3 * n) (3 * w + 3000) (withRetry_default c).
Proof.
  intros Hw Hc. unfold withRetry_default, withRetry.
  remember (3 * n) as calls3 eqn:Hcalls.
  remember (3 * w + 3000)%Z as wait3 eqn:Hwait.
  change (Z.to_nat 3) with 3%nat. cbn.
  apply (@bounded_weaken _ (n + (0 + (n + (0 + (n + 0)))))
           (w + (1000 + (w + (2000 + (w + 0)))))); [lia|lia|].
  apply bounded_try_catch; [lia|now apply bounded_attempt|]. intros e1.
  apply bounded_bind; [lia|apply bounded_sleep; lia|]. intros _.
  apply bounded_try_catch; [lia|now apply bounded_attempt|]. intros e2.
  apply bounded_bind; [lia|apply bounded_sleep; lia|]. intros _.
  apply bounded_try_catch; [lia|now apply bounded_attempt|]. intros e3.
  apply bounded_throw.
Qed.

Lemma bounded_mapM_free {A B} (f : A -> M W B) (l : list A) :
  (forall a, bounded 0 0 (f a)) -> bounded 0 0 (mapM f l).
Proof.
  intros Hf. induction l as [|a l IH]; simpl; [apply bounded_ret|].
  apply (@bounded_bind _ _ 0 0 0 0); [lia|apply Hf|]. intros b.
  apply (@bounded_bind _ _ 0 0 0 0); [lia|apply IH|]. intros bs. apply bounded_ret.
Qed.

Lemma bounded_foldM {A B} (cn : A -> nat) (cw : A -> Z) (f : B -> A -> M W B) :
  (forall a, 0 <= cw a)%Z ->
  forall l,
    (forall b a, In a l -> bounded (cn a) (cw a) (f b a)) ->
    forall b,
      bounded (list_sum (map cn l)) (fold_right Z.add 0%Z (map cw l)) (foldM f l b).
Proof.
  intros Hcw. induction l as [|a l IH]; intros Hf b; simpl; [apply bounded_ret|].
  assert (Hpos : (0 <= fold_right Z.add 0 (map cw l))%Z).
  { clear -Hcw. induction l as [|x l IH]; simpl; [lia|]. specialize (Hcw x). lia. }
  apply bounded_bind; [assumption|apply Hf; now left|].
  intros b'. apply IH. intros b0 a0 Hin. apply Hf. now right.
Qed.

End Bounded.

Section QueryCost.
Context {W : Type} {C : Collaborators W}.

Lemma bounded_getEmbedding input : bounded 1 0 (getEmbedding (W := W) input).
Proof.
  unfold getEmbedding. apply (@bounded_weaken _ _ (1 + 0) (0 + 0)); [lia|lia|].
  apply bounded_bind; [lia|now apply bounded_remote|].
  intros [|first rest]; [apply bounded_throw|apply bounded_ret].
Qed.

Lemma bounded_questionEmbedding question :
  bounded 3 3000 (questionEmbedding (W := W) question).
Proof.
  unfold questionEmbedding.
  apply (@bounded_weaken _ _ (3 * 1 + 0) (3 * 0 + 3000 + 0)); [lia|lia|].
  apply bounded_bind; [lia| |].
  - apply bounded_withRetry_default; [lia|apply bounded_getEmbedding].
  - intros emb. destruct (flatten emb); [apply bounded_ret|apply bounded_throw].
Qed.

Lemma bounded_complete prompt contexts question :
  bounded 3 3000 (complete (W := W) prompt contexts question).
Proof.
  unfold complete.
  apply (@bounded_weaken _ _ (3 * 1 + 0) (3 * 0 + 3000 + 0)); [lia|lia|].
  apply bounded_bind; [lia| |].
  - apply bounded_withRetry_default; [lia|now apply bounded_remote].
  - intros [[|first rest]|]; first [apply bounded_ret|apply bounded_throw].
Qed.

Lemma bounded_store_call {A} ev (op : W -> JsResult A * W) :
  is_sleep ev = false -> bounded 3 3000 (withRetry_default (remote ev op)).
Proof.
  intros Hev. apply (@bounded_weaken _ _ (3 * 1) (3 * 0 + 3000)); [lia|lia|].
  apply bounded_withRetry_default; [lia|now apply bounded_remote].
Qed.

Lemma bounded_Part000_contextOf m : bounded 0 0 (Part000.contextOf (W := W) m).
Proof.
  unfold Part000.contextOf. destruct (match_metadata m);
    [apply bounded_ret|apply bounded_throw].
Qed.

Lemma bounded_ExcelProcessor_contextOf m :
  bounded 0 0 (ExcelProcessor.contextOf (W := W) m).
Proof.
  unfold ExcelProcessor.contextOf. destruct (match_metadata m) as [md|];
    [|apply bounded_throw].
  destruct (JSON_parse _); [apply bounded_ret|apply bounded_throw].
Qed.

(** What follows the similarity query: the contexts and the completion. *)
Lemma bounded_answer {A} (f : A -> M W SourceContext) prompt question ms :
  (forall a, bounded 0 0 (f a)) ->
  bounded 3 3000 (contexts <- mapM f ms ;; complete prompt contexts question).
Proof.
  intros Hf. apply (@bounded_weaken _ _ (0 + 3) (0 + 3000)); [lia|lia|].
  apply bounded_bind; [lia|now apply bounded_mapM_free|].
  intros contexts. apply bounded_complete.
Qed.

End QueryCost.

(** A call of [queryRFPData] costs at most nine remote calls and nine
    seconds of back-off in the revision with [MOCK_MODE] (three attempts
    each for the embedding, the similarity query and the completion), and
    at most twelve calls and twelve seconds in the revision with the SDK
    client, whose similarity query is tried up to three times through the
    SDK and up to three times more through the direct gateway. *)
Theorem queryRFPData_cost :
  forall (W : Type) (C : Collaborators W) (MOCK_MODE pineconeIndex : bool)
         (question : string) (filters : JsObject.t string),
    bounded 9 9000 (Part000.queryRFPData MOCK_MODE question filters) /\
    bounded 12 12000 (ExcelProcessor.queryRFPData pineconeIndex question filters).
Proof.
  intros W C MOCK_MODE pineconeIndex question filters. split.
  - unfold Part000.queryRFPData.
    apply (@bounded_weaken _ _ (9 + 0) (9000 + 0)); [lia|lia|].
    apply bounded_try_catch; [lia| |intros e; apply bounded_ret].
    unfold Part000.queryBody.
    destruct (Part000.isGreeting question);
      [apply (@bounded_weaken _ _ 0 0); [lia|lia|apply bounded_ret]|].
    apply (@bounded_weaken _ _ (3 + 6) (3000 + 6000)); [lia|lia|].
    apply bounded_bind; [lia|apply bounded_questionEmbedding|].
    intros v. destruct MOCK_MODE;
      [apply (@bounded_weaken _ _ 0 0); [lia|lia|apply bounded_ret]|].
    apply (@bounded_weaken _ _ (3 + 3) (3000 + 3000)); [lia|lia|].
    apply bounded_bind; [lia|now apply bounded_store_call|].
    intros [r|]; [|apply (@bounded_weaken _ _ 0 0); [lia|lia|apply bounded_throw]].
    destruct (matches r) as [[|m ms]|];
      try (apply (@bounded_weaken _ _ 0 0); [lia|lia|apply bounded_ret]).
    apply bounded_answer. apply bounded_Part000_contextOf.
  - unfold ExcelProcessor.queryRFPData.
    apply (@bounded_weaken _ _ (12 + 0) (12000 + 0)); [lia|lia|].
    apply bounded_try_catch; [lia| |].
    2:{ intros e. destruct (ExcelProcessor.looksLikeGreeting question);
          apply bounded_ret. }
    unfold ExcelProcessor.queryBody.
    apply (@bounded_weaken _ _ (3 + (6 + 3)) (3000 + (6000 + 3000))); [lia|lia|].
    apply bounded_bind; [lia|apply bounded_questionEmbedding|].
    intros v. apply bounded_bind; [lia| |].
    + unfold ExcelProcessor.queryStore.
      apply (@bounded_weaken _ _ (3 + 3) (3000 + 3000)); [lia|lia|].
      apply bounded_try_catch; [lia| |intros e; now apply bounded_store_call].
      destruct pineconeIndex; [now apply bounded_store_call|].
      apply (@bounded_weaken _ _ 0 0); [lia|lia|apply bounded_throw].
    + intros [r|]; [|apply (@bounded_weaken _ _ 0 0); [lia|lia|apply bounded_throw]].
      destruct (matches r) as [[|m ms]|];
        try (destruct (ExcelProcessor.looksLikeGreeting question);
             (apply (@bounded_weaken _ _ 0 0); [lia|lia|apply bounded_ret])).
      apply bounded_answer. apply bounded_ExcelProcessor_contextOf.
Qed.

(** The number of batches is the number of records divided by the batch
    size, rounded up. *)
Lemma chunk_from_count {A} (size : nat) :
  1 <= size ->
  forall (l cur : list A) room,
    length cur + room = size ->
    length cur + length l <= size * length (chunk_from size cur room l)
    < length cur + length l + size.
Proof.
  intros Hsize. induction l as [|x l IH]; intros cur room Hlen; simpl.
  - destruct cur as [|c cur]; simpl in *; lia.
  - destruct room as [|room].
    + specialize (IH [x] (size - 1)). simpl in IH. simpl. nia.
    + specialize (IH (cur ++ [x])%list room). rewrite length_app in IH.
      simpl in IH. lia.
Qed.

Lemma batchCount_bounds {A} (l : list A) :
  length l <= BATCH_SIZE * batchCount l < length l + BATCH_SIZE.
Proof.
  unfold batchCount, chunk, BATCH_SIZE.
  apply (@chunk_from_count A 10 ltac:(lia) l [] 10 eq_refl).
Qed.

Lemma list_sum_batches {A} (batches : list (list A)) :
  list_sum (map (fun b => 6 * length b + 3) batches)
  = 6 * length (concat batches) + 3 * length batches.
Proof.
  induction batches as [|b batches IH]; simpl; [reflexivity|].
  rewrite length_app. simpl in IH. lia.
Qed.

Lemma sum_wait_batches {A} (batches : list (list A)) :
  fold_right Z.add 0%Z (map (fun b => 6000 * Z.of_nat (length b) + 3000)%Z batches)
  = (6000 * Z.of_nat (length (concat batches))
     + 3000 * Z.of_nat (length batches))%Z.
Proof.
  induction batches as [|b batches IH]; [reflexivity|].
  cbn [map fold_right concat length]. rewrite length_app, IH. lia.
Qed.

Section IngestionCost.
Context {W : Type} {C : Collaborators W}.
Variable fetchVectors : list string -> M W FetchResponse.
Variable upsertVectors : list VectorRecord -> M W unit.
Variable md : Metadata.
Hypothesis Hfetch : forall ids, bounded 1 0 (fetchVectors ids).
Hypothesis Hupsert : forall records, bounded 1 0 (upsertVectors records).

Lemma bounded_prepareItem acc item :
  bounded 6 6000 (prepareItem fetchVectors md acc item).
Proof.
  destruct acc as [ops n]. unfold prepareItem.
  apply (@bounded_weaken _ _ (6 + 0) (6000 + 0)); [lia|lia|].
  apply bounded_try_catch; [lia| |intros e; apply bounded_ret].
  apply (@bounded_weaken _ _ (3 + 3) (3000 + 3000)); [lia|lia|].
  apply bounded_bind; [lia| |].
  - unfold existingVector.
    apply (@bounded_weaken _ _ (3 + 0 + 0) (3000 + 0 + 0)); [lia|lia|].
    apply bounded_try_catch; [lia| |intros e; apply bounded_ret].
    apply bounded_bind; [lia| |].
    + apply (@bounded_weaken _ _ (3 * 1) (3 * 0 + 3000)); [lia|lia|].
      apply bounded_withRetry_default; [lia|apply Hfetch].
    + intros [r|]; [apply bounded_ret|apply bounded_throw].
  - intros existing. destruct (JsObject.get existing _);
      [apply (@bounded_weaken _ _ 0 0); [lia|lia|apply bounded_ret]|].
    apply (@bounded_weaken _ _ (3 * 1 + 0) (3 * 0 + 3000 + 0)); [lia|lia|].
    apply bounded_bind; [lia| |intros; apply bounded_ret].
    apply bounded_withRetry_default; [lia|apply bounded_getEmbedding].
Qed.

Lemma bounded_uploadBatch n batch :
  bounded (6 * length batch + 3) (6000 * Z.of_nat (length batch) + 3000)
    (uploadBatch fetchVectors upsertVectors md n batch).
Proof.
  unfold uploadBatch. apply bounded_bind; [lia| |].
  - pose proof (@bounded_foldM W Item (list VectorRecord * Counters)
                  (fun _ => 6) (fun _ => 6000%Z) (prepareItem fetchVectors md)
                  ltac:(intros; cbv beta; lia) batch
                  (fun b a _ => bounded_prepareItem b a) ([], n)) as H.
    eapply bounded_weaken; [| |exact H].
    + clear. induction batch as [|x l IH]; simpl in *; lia.
    + clear. induction batch as [|x l IH]; [simpl; lia|].
      cbn [map fold_right length]. lia.
  - intros [ops n']. destruct ops as [|op ops];
      [apply (@bounded_weaken _ _ 0 0); [lia|lia|apply bounded_ret]|].
    apply (@bounded_weaken _ _ (3 * 1 + 0 + 0) (3 * 0 + 3000 + 0 + 0)); [lia|lia|].
    apply bounded_try_catch; [lia| |intros e; apply bounded_ret].
    apply bounded_bind; [lia| |intros; apply bounded_ret].
    apply bounded_withRetry_default; [lia|apply Hupsert].
Qed.

Lemma bounded_uploadAll data :
  bounded (6 * length data + 3 * batchCount data)
    (6000 * Z.of_nat (length data) + 3000 * Z.of_nat (batchCount data))
    (uploadAll fetchVectors upsertVectors md data).
Proof.
  unfold uploadAll, batchCount.
  pose proof (@bounded_foldM W (list Item) Counters
                (fun b => 6 * length b + 3)
                (fun b => 6000 * Z.of_nat (length b) + 3000)%Z
                (uploadBatch fetchVectors upsertVectors md)
                ltac:(intros; cbv beta; lia) (chunk BATCH_SIZE data)
                (fun n b _ => bounded_uploadBatch n b) noRows) as H.
  rewrite list_sum_batches, sum_wait_batches, concat_chunk in H. exact H.
Qed.

End IngestionCost.

(** An ingestion of [n] records, uploaded in [b] batches ([n] divided by
    ten, rounded up), costs at most [6 n + 3 b] remote calls and
    [6 n + 3 b] seconds of back-off: three attempts each for the fetch
    check and the embedding of a record and for the upsert of a batch. *)
Theorem processExcelRFP_cost :
  forall (W : Type) (C : Collaborators W) (MOCK_MODE pineconeIndex : bool)
         (buffer : string) (md : Metadata),
    let n := length (recordsOf buffer) in
    let b := batchCount (recordsOf buffer) in
    bounded (6 * n + 3 * b) (6000 * Z.of_nat n + 3000 * Z.of_nat b)
      (Part000.processExcelRFP MOCK_MODE buffer md) /\
    bounded (6 * n + 3 * b) (6000 * Z.of_nat n + 3000 * Z.of_nat b)
      (ExcelProcessor.processExcelRFP pineconeIndex buffer md) /\
    n <= BATCH_SIZE * b < n + BATCH_SIZE.
Proof.
  intros W C MOCK_MODE pineconeIndex buffer md n b. subst n b.
  assert (Hfail : forall (A : Type) (e : JsError) (data : list Item),
             bounded (6 * length data + 3 * batchCount data)
               (6000 * Z.of_nat (length data) + 3000 * Z.of_nat (batchCount data))
               (try_catch (@throw W A e) (fun error => throw error))).
  { intros A e data. apply (@bounded_weaken _ _ (0 + 0) (0 + 0)); [lia|lia|].
    apply bounded_try_catch; [lia|apply bounded_throw|intros; apply bounded_throw]. }
  split; [|split; [|apply batchCount_bounds]].
  - unfold Part000.processExcelRFP, recordsOf.
    destruct (xlsx_load buffer) as [workbook|e]; [|apply Hfail].
    destruct (Extractor.processedData workbook) as [data|e]; [|apply Hfail].
    apply (@bounded_weaken _ _ (6 * length data + 3 * batchCount data + 0)
             (6000 * Z.of_nat (length data) + 3000 * Z.of_nat (batchCount data) + 0));
      [lia|lia|].
    apply bounded_try_catch; [lia| |intros e; apply bounded_throw].
    destruct MOCK_MODE;
      [apply (@bounded_weaken _ _ 0 0); [lia|lia|apply bounded_ret]|].
    apply (@bounded_weaken _ _ (6 * length data + 3 * batchCount data + 0)
             (6000 * Z.of_nat (length data) + 3000 * Z.of_nat (batchCount data) + 0));
      [lia|lia|].
    apply bounded_bind; [lia| |intros; apply bounded_ret].
    apply bounded_uploadAll; intros; now apply bounded_remote.
  - unfold ExcelProcessor.processExcelRFP, recordsOf.
    destruct (xlsx_load buffer) as [workbook|e]; [|apply Hfail].
    destruct (Extractor.processedData workbook) as [data|e]; [|apply Hfail].
    apply (@bounded_weaken _ _ (6 * length data + 3 * batchCount data + 0)
             (6000 * Z.of_nat (length data) + 3000 * Z.of_nat (batchCount data) + 0));
      [lia|lia|].
    apply bounded_try_catch; [lia| |intros e; apply bounded_throw].
    apply (@bounded_weaken _ _ (6 * length data + 3 * batchCount data + 0)
             (6000 * Z.of_nat (length data) + 3000 * Z.of_nat (batchCount data) + 0));
      [lia|lia|].
    apply bounded_bind; [lia| |intros; apply bounded_ret].
    apply bounded_uploadAll; intros;
      unfold ExcelProcessor.fetchVectors, ExcelProcessor.upsertVectors;
      destruct pineconeIndex; now apply bounded_remote.
Qed.

(* ===================================================================== *)
(** ** The environment *)
(* ===================================================================== *)

(** Loading the module succeeds exactly when the four required variables
    are set to non-empty strings; [PINECONE_HOST] is not required.
    Otherwise it throws, and the message lists, after its fixed heading
    and separated by commas, exactly the required variables that are unset
    or empty, in the order of [requiredEnvVars]. *)
Theorem checkEnvironment_reports_what_is_missing :
  forall (env : Environment.t),
    (Environment.checkEnvironment env = Ok tt <->
     forall v, In v Environment.requiredEnvVars -> given env v = true) /\
    (forall e,
        Environment.checkEnvironment env = Throw e ->
        Environment.missingVars env <> [] /\
        message e = "Missing required environment variables: "
                    ++ JsString.join ", " (Environment.missingVars env)) /\
    (forall v,
        In v (Environment.missingVars env) <->
        In v Environment.requiredEnvVars /\ given env v = false).
Proof.
  intros env.
  assert (Hin : forall v,
             In v (Environment.missingVars env) <->
             In v Environment.requiredEnvVars /\ given env v = false).
  { intros v. unfold Environment.missingVars. rewrite filter_In.
    now rewrite negb_true_iff. }
  split; [|split; [|exact Hin]].
  - unfold Environment.checkEnvironment.
    destruct (Environment.missingVars env) as [|m ms] eqn:E.
    + split; [|reflexivity]. intros _ v Hv.
      destruct (given env v) eqn:G; [reflexivity|].
      destruct (proj2 (Hin v) (conj Hv G)).
    + split; [discriminate|]. intros Hall.
      destruct (proj1 (Hin m) (or_introl eq_refl)) as [Hm Gm].
      rewrite (Hall m Hm) in Gm. discriminate.
  - intros e. unfold Environment.checkEnvironment.
    destruct (Environment.missingVars env) as [|m ms] eqn:E; [discriminate|].
    intros [= <-]. split; [discriminate|reflexivity].
Qed.

(** The address of the index in the revision with [MOCK_MODE] always
    starts with [http]. A non-empty [PINECONE_HOST] decides it alone, the
    index name and the environment being ignored: it is used as it is when
    it starts with [http], and behind [https://] otherwise. Without it the
    address is the one [src/excelProcessor.js] always uses, built from the
    index name and the environment. *)
Theorem getPineconeBaseUrl_cases :
  forall (env : Environment.t),
    String.prefix "http" (Environment.getPineconeBaseUrl env) = true /\
    (given env "PINECONE_HOST" = false ->
     Environment.getPineconeBaseUrl env = Environment.indexUrl env) /\
    (forall host,
        JsObject.get env "PINECONE_HOST" = Some host ->
        JsString.truthy host = true ->
        Environment.getPineconeBaseUrl env
        = if String.prefix "http" host then host else "https://" ++ host).
Proof.
  intros env. unfold Environment.getPineconeBaseUrl, given.
  destruct (JsObject.get env "PINECONE_HOST") as [host|].
  - destruct (JsString.truthy host) eqn:T.
    + split; [|split; [discriminate|]].
      * destruct (String.prefix "http" host) eqn:P; [assumption|reflexivity].
      * intros h [= <-] _. reflexivity.
    + split; [reflexivity|]. split; [reflexivity|].
      intros h [= <-] T'. congruence.
  - split; [reflexivity|]. split; [reflexivity|]. discriminate.
Qed.

Example getPineconeBaseUrl_sample :
  Environment.checkEnvironment Environment.sample = Ok tt /\
  Environment.getPineconeBaseUrl Environment.sample
  = "https://rfp-abc123.svc.pinecone.io" /\
  Environment.indexUrl Environment.sample = "https://rfp.svc.us-east-1.pinecone.io" /\
  Environment.checkEnvironment [("PINECONE_API_KEY", "pc-key"); ("OPENAI_API_KEY", "")]
  = Throw {| message := "Missing required environment variables: PINECONE_ENVIRONMENT, PINECONE_INDEX_NAME, OPENAI_API_KEY" |}.
Proof. vm_compute. repeat split. Qed.

Lemma checkEnvironment_reports_what_is_missing_witness :
  Environment.checkEnvironment Environment.sample = Ok tt.
Proof.
  apply (proj1 (checkEnvironment_reports_what_is_missing Environment.sample)).
  intros v Hv. simpl in Hv.
  destruct Hv as [<-|[<-|[<-|[<-|[]]]]]; reflexivity.
Defined.

Lemma getPineconeBaseUrl_cases_witness :
  Environment.getPineconeBaseUrl Environment.sample
  = if String.prefix "http" "rfp-abc123.svc.pinecone.io"
    then "rfp-abc123.svc.pinecone.io"
    else "https://" ++ "rfp-abc123.svc.pinecone.io".
Proof.
  apply (proj2 (proj2 (getPineconeBaseUrl_cases Environment.sample))).
  - reflexivity.
  - reflexivity.
Defined.

Lemma filterConditions_whitelist_witness :
  ("category" = "category" \/ "category" = "sheetName") /\
  ((FEq "Security" = FExists true /\
    JsObject.keys [("category", "Security"); ("rfpId", "2024")] = []) \/
   (exists s, FEq "Security" = FEq s /\
              JsObject.get [("category", "Security"); ("rfpId", "2024")] "category"
              = Some s /\
              JsString.truthy s = true)).
Proof.
  apply (proj1 (proj2 (filterConditions_whitelist
                         [("category", "Security"); ("rfpId", "2024")]))).
  vm_compute. left. reflexivity.
Defined.

(* ===================================================================== *)
(** ** The fields of a record *)
(* ===================================================================== *)

Section Fields.

Lemma set_keys_NoDup {V} (o : JsObject.t V) k v :
  NoDup (map fst o) -> NoDup (map fst (JsObject.set o k v)).
Proof.
  induction o as [|[k' v'] o IH]; simpl; intros H.
  - constructor; [intros []|constructor].
  - inversion H as [|? ? Hnot Hrest]; subst.
    destruct (String.eqb_spec k' k) as [->|Hne]; simpl.
    + now constructor.
    + constructor; [|now apply IH].
      intros Hin. apply in_map_iff in Hin. destruct Hin as [[k0 v0] [Hk Hin]].
      simpl in Hk. subst k0. apply set_In in Hin.
      destruct Hin as [[= -> _]|Hin]; [congruence|].
      apply Hnot. apply in_map_iff. now exists (k', v0).
Qed.

(** A header of the sheet: the trimmed text of a cell of its first row. *)
Lemma header_from_row1 row1 headers col :
  Extractor.trimHeaders row1 = Ok headers ->
  JsString.truthy (Extractor.header headers col) = true ->
  exists hc,
    In hc row1 /\ colNumber hc = col /\
    Extractor.trimHeader (cell_value hc) = Ok (Extractor.header headers col).
Proof.
  unfold Extractor.header. revert headers.
  induction row1 as [|c row1 IH]; simpl; intros headers.
  - intros [= <-]. simpl. discriminate.
  - destruct (Extractor.trimHeader (cell_value c)) as [h|e] eqn:Eh; [|discriminate].
    destruct (Extractor.trimHeaders row1) as [hs|e]; [|discriminate].
    intros [= <-]. simpl.
    destruct (Nat.eqb_spec (colNumber c) col) as [Hc|Hc]; simpl.
    + intros _. exists c. auto.
    + intros H. destruct (IH hs eq_refl H) as [hc [Hin [Hcol Ht]]].
      exists hc. auto.
Qed.

Lemma addCells_from_cells headers all :
  forall cells0 acc,
    (forall c, In c cells0 -> In c all) ->
    from_cells headers all acc ->
    from_cells headers all (fold_left (Extractor.addCell headers) cells0 acc).
Proof.
  induction cells0 as [|c cells0 IH]; simpl; intros acc Hsub Hacc; [assumption|].
  apply IH; [auto|].
  unfold Extractor.addCell.
  destruct (JsString.truthy (Extractor.header headers (colNumber c))) eqn:T;
    [|assumption].
  unfold Extractor.assignField.
  destruct (String.eqb (Extractor.header headers (colNumber c)) "__proto__");
    [assumption|].
  destruct Hacc as [Hnd Hall]. split; [now apply set_keys_NoDup|].
  intros k v Hin. apply set_In in Hin. destruct Hin as [[= -> ->]|Hin]; [|auto].
  split; [assumption|]. exists c. auto.
Qed.

Lemma rowDataOf_from_cells headers r :
  from_cells headers (cells r) (Extractor.rowDataOf headers r).
Proof.
  unfold Extractor.rowDataOf. apply addCells_from_cells; [auto|].
  split; [constructor|intros k v []].
Qed.

Lemma jsonData_In headers rows rowData :
  In rowData (Extractor.jsonData headers rows) ->
  exists r,
    In r rows /\ 1 < rowNumber r /\ rowData = Extractor.rowDataOf headers r /\
    rowData <> [].
Proof.
  induction rows as [|r rows IH]; simpl; [intros []|].
  destruct (Nat.ltb_spec 1 (rowNumber r)) as [Hlt|_].
  - destruct (JsObject.keys (Extractor.rowDataOf headers r)) as [|k ks] eqn:Ek.
    + intros H. destruct (IH H) as [r' [H1 H2]]. exists r'. auto.
    + intros [<-|H].
      * exists r. repeat split; auto. intros E. rewrite E in Ek. discriminate.
      * destruct (IH H) as [r' [H1 H2]]. exists r'. auto.
  - intros H. destruct (IH H) as [r' [H1 H2]]. exists r'. auto.
Qed.

End Fields.

(** The field mapping a record keeps as [originalData] is that of one
    data row (a row after the first) of its sheet. It is not empty and has
    no two fields of the same name; each field name is the non-empty
    trimmed text of a cell of the header row, and its value is the trimmed
    text of the cell of the data row in that column. *)
Theorem originalData_fields :
  forall (workbook : Workbook) (data : list Item) (item : Item),
    Extractor.processedData workbook = Ok data ->
    In item data ->
    originalData item <> [] /\
    NoDup (map fst (originalData item)) /\
    exists ws row,
      In ws workbook /\ ws_name ws = sheetName item /\
      In row (ws_rows ws) /\ 1 < rowNumber row /\
      forall k v,
        In (k, v) (originalData item) ->
        k <> "" /\
        exists hc c,
          In hc (Extractor.getRow1 ws) /\ In c (cells row) /\
          colNumber hc = colNumber c /\
          Extractor.trimHeader (cell_value hc) = Ok k /\
          v = JsString.trim (cell_text c).
Proof.
  intros workbook data item Hdata Hin.
  destruct (@processedData_In workbook data item Hdata Hin) as [ws [items [Hws [Hs Hi]]]].
  unfold Extractor.sheetItems in Hs.
  destruct (Extractor.trimHeaders (Extractor.getRow1 ws)) as [headers|e] eqn:Eh;
    [|discriminate].
  injection Hs as <-.
  apply in_flat_map in Hi. destruct Hi as [[key rows] [Hg Hi]]. simpl in Hi.
  unfold Extractor.itemsOfGroup in Hi. apply in_flat_map in Hi.
  destruct Hi as [rowData [Hrow Hi]].
  destruct (JsString.truthy (JsString.trim (Extractor.combinedText rowData)));
    [|destruct Hi].
  destruct Hi as [<-|[]]. simpl.
  assert (Hjson : In rowData (Extractor.jsonData headers (ws_rows ws))).
  { eapply Permutation_in; [apply groupBy_Permutation|].
    apply in_concat. exists rows. split; [|assumption].
    apply in_map_iff. exists (key, rows). split; [reflexivity|].
    eapply Permutation_in; [apply entries_Permutation|exact Hg]. }
  destruct (jsonData_In _ _ _ Hjson) as [r [Hr [Hnum [-> Hne]]]].
  destruct (rowDataOf_from_cells headers r) as [Hnd Hall].
  split; [assumption|]. split; [assumption|].
  exists ws, r. repeat split; try assumption.
  - destruct (Hall k v H) as [T _]. intros ->. discriminate.
  - destruct (Hall k v H) as [T [c [Hc [Hk Hv]]]].
    rewrite Hk in T.
    destruct (header_from_row1 _ _ Eh T) as [hc [Hhc [Hcol Ht]]].
    exists hc, c. rewrite Hk. auto.
Qed.

Lemma originalData_fields_witness :
  let item :=
    {| category := "uncategorized"; sheetName := "Pricing";
       text := "Question: Discounts?";
       originalData := [("Category", ""); ("Question", "Discounts?")] |} in
  originalData item <> [] /\
  NoDup (map fst (originalData item)) /\
  exists ws row,
    In ws [sheet_without_category; sheet_with_category] /\
    ws_name ws = sheetName item /\
    In row (ws_rows ws) /\ 1 < rowNumber row /\
    forall k v,
      In (k, v) (originalData item) ->
      k <> "" /\
      exists hc c,
        In hc (Extractor.getRow1 ws) /\ In c (cells row) /\
        colNumber hc = colNumber c /\
        Extractor.trimHeader (cell_value hc) = Ok k /\
        v = JsString.trim (cell_text c).
Proof.
  apply (@originalData_fields [sheet_without_category; sheet_with_category]
           (match Extractor.processedData [sheet_without_category; sheet_with_category] with
            | Ok data => data
            | Throw _ => []
            end)).
  - vm_compute. reflexivity.
  - vm_compute. right; right; left. reflexivity.
Defined.

(* ===================================================================== *)
(** ** The sources of an answer *)
(* ===================================================================== *)

Section Sources.
Context {W : Type} {C : Collaborators W}.

Lemma Part000_contextOf_source m (s : St W) c s1 :
  Part000.contextOf m s = (Ok c, s1) ->
  s1 = s /\ similarity c = score m /\
  forall s0 : St W, Part000.contextOf m s0 = (Ok c, s0).
Proof.
  unfold Part000.contextOf. destruct (match_metadata m) as [md|]; [|discriminate].
  intros [= <- <-]. repeat split.
Qed.

Lemma ExcelProcessor_contextOf_source m (s : St W) c s1 :
  ExcelProcessor.contextOf m s = (Ok c, s1) ->
  s1 = s /\ similarity c = score m /\
  forall s0 : St W, ExcelProcessor.contextOf m s0 = (Ok c, s0).
Proof.
  unfold ExcelProcessor.contextOf. destruct (match_metadata m) as [md|]; [|discriminate].
  destruct (JSON_parse _) as [j|e]; [|discriminate].
  intros [= <- <-]. repeat split.
Qed.

Lemma mapM_sources (contextOf : Match -> M W SourceContext) :
  (forall m s c s1,
      contextOf m s = (Ok c, s1) ->
      s1 = s /\ similarity c = score m /\
      forall s0 : St W, contextOf m s0 = (Ok c, s0)) ->
  forall ms (s : St W) cs s',
    mapM contextOf ms s = (Ok cs, s') ->
    sources_of_matches contextOf ms cs.
Proof.
  intros Hc. induction ms as [|m ms IH]; intros s cs s' H; simpl in H.
  - injection H as <- _. constructor.
  - unfold bind in H. destruct (contextOf m s) as [[c|e] s1] eqn:E; [|discriminate].
    destruct (mapM contextOf ms s1) as [[cs0|e] s2] eqn:Em; [|discriminate].
    injection H as <- _. destruct (Hc _ _ _ _ E) as [_ [Hs Hall]].
    constructor; [now split|]. eapply IH; eauto.
Qed.

Lemma complete_sources prompt contexts question (s : St W) r s' :
  complete prompt contexts question s = (Ok r, s') -> sources r = contexts.
Proof.
  unfold complete, bind.
  destruct (withRetry_default (chat _) s) as [[[[|first rest]|]|e] s1];
    try discriminate.
  intros [= <- _]. reflexivity.
Qed.

Lemma api_query_answer v fc (s : St W) resp s' :
  withRetry_default (api_query v 5 fc) s = (Ok (Some resp), s') ->
  exists w w', pineconeApi_query v 5 fc w = (Ok resp, w').
Proof.
  intros H. unfold withRetry_default, withRetry in H.
  apply withRetry_loop_success in H. destruct H as [sk Hk].
  unfold api_query, remote in Hk.
  destruct (pineconeApi_query v 5 fc (world sk)) as [r0 w'] eqn:E.
  injection Hk as -> _. eauto.
Qed.

Lemma sdk_query_answer v fc (s : St W) resp s' :
  withRetry_default (sdk_query v 5 fc) s = (Ok (Some resp), s') ->
  exists w w', pineconeIndex_query v 5 fc w = (Ok resp, w').
Proof.
  intros H. unfold withRetry_default, withRetry in H.
  apply withRetry_loop_success in H. destruct H as [sk Hk].
  unfold sdk_query, remote in Hk.
  destruct (pineconeIndex_query v 5 fc (world sk)) as [r0 w'] eqn:E.
  injection Hk as -> _. eauto.
Qed.

End Sources.

(** The sources of an answer are the matches the index returned for the
    question's embedding, five nearest asked for, under the filter built
    from [filters]: one source per match, in the ranked order of the
    matches, each with the score of its match and the fields the
    revision's callback reads from the match. In the revision with the SDK
    client the matches are those of the SDK query, or of the query through
    the direct gateway. *)
Theorem sources_follow_the_matches :
  forall (W : Type) (C : Collaborators W) (MOCK_MODE pineconeIndex : bool)
         (question : string) (filters : JsObject.t string)
         (s : St W) (r : QueryResult) (s' : St W),
    (Part000.queryRFPData MOCK_MODE question filters s = (Ok r, s') ->
     sources r <> [] ->
     exists v w resp w' ms,
       pineconeApi_query v 5 (filterConditionsOf filters) w = (Ok resp, w') /\
       matches resp = Some ms /\
       sources_of_matches (Part000.contextOf (W := W)) ms (sources r)) /\
    (ExcelProcessor.queryRFPData pineconeIndex question filters s = (Ok r, s') ->
     sources r <> [] ->
     exists v w resp w' ms,
       ((pineconeIndex = true /\
         pineconeIndex_query v 5 (sdkFilter (filterConditionsOf filters)) w
         = (Ok resp, w')) \/
        pineconeApi_query v 5 (filterConditionsOf filters) w = (Ok resp, w')) /\
       matches resp = Some ms /\
       sources_of_matches (ExcelProcessor.contextOf (W := W)) ms (sources r)).
Proof.
  intros W C MOCK_MODE pineconeIndex question filters s r s'. split.
  - unfold Part000.queryRFPData, try_catch.
    destruct (Part000.queryBody MOCK_MODE question filters s) as [[r0|e] s1] eqn:E.
    2:{ intros [= <- <-] H. now destruct H. }
    intros [= <- <-] Hne. unfold Part000.queryBody in E.
    destruct (Part000.isGreeting question).
    { injection E as <- _. now destruct Hne. }
    unfold bind at 1 in E.
    destruct (questionEmbedding question s) as [[v|e] s2]; [|discriminate].
    destruct MOCK_MODE.
    { injection E as <- _. now destruct Hne. }
    unfold bind at 1 in E.
    destruct (withRetry_default _ s2) as [[[q|]|e] s3] eqn:Eq; try discriminate.
    destruct (api_query_answer _ _ _ Eq) as [w [w' Hw]].
    destruct (matches q) as [[|m ms]|] eqn:Em.
    + injection E as <- _. now destruct Hne.
    + unfold bind at 1 in E.
      destruct (mapM Part000.contextOf (m :: ms) s3) as [[contexts|e] s4] eqn:Ec;
        [|discriminate].
      apply complete_sources in E. rewrite E.
      exists v, w, q, w', (m :: ms). split; [assumption|]. split; [assumption|].
      eapply mapM_sources; [|exact Ec]. apply Part000_contextOf_source.
    + injection E as <- _. now destruct Hne.
  - unfold ExcelProcessor.queryRFPData, try_catch.
    destruct (ExcelProcessor.queryBody pineconeIndex question filters s)
      as [[r0|e] s1] eqn:E.
    2:{ destruct (ExcelProcessor.looksLikeGreeting question);
          intros [= <- <-] H; now destruct H. }
    intros [= <- <-] Hne. unfold ExcelProcessor.queryBody in E.
    unfold bind at 1 in E.
    destruct (questionEmbedding question s) as [[v|e] s2]; [|discriminate].
    unfold bind at 1 in E.
    destruct (ExcelProcessor.queryStore _ _ _ s2) as [[[q|]|e] s3] eqn:Eq;
      try discriminate.
    assert (Hw : exists w w',
               (pineconeIndex = true /\
                pineconeIndex_query v 5 (sdkFilter (filterConditionsOf filters)) w
                = (Ok q, w')) \/
               pineconeApi_query v 5 (filterConditionsOf filters) w = (Ok q, w')).
    { unfold ExcelProcessor.queryStore, try_catch in Eq. destruct pineconeIndex.
      - destruct (withRetry_default (sdk_query _ _ _) s2) as [[[q0|]|e] s5] eqn:Es.
        + injection Eq as -> _.
          destruct (sdk_query_answer _ _ _ Es) as [w [w' Hw]].
          exists w, w'. left. split; [reflexivity|exact Hw].
        + discriminate.
        + destruct (api_query_answer _ _ _ Eq) as [w [w' Hw]]. eauto.
      - unfold throw in Eq. destruct (api_query_answer _ _ _ Eq) as [w [w' Hw]]. eauto. }
    destruct Hw as [w [w' Hw]].
    destruct (matches q) as [[|m ms]|] eqn:Em.
    + destruct (ExcelProcessor.looksLikeGreeting question);
        injection E as <- _; now destruct Hne.
    + unfold bind at 1 in E.
      destruct (mapM ExcelProcessor.contextOf (m :: ms) s3) as [[contexts|e] s4] eqn:Ec;
        [|discriminate].
      apply complete_sources in E. rewrite E.
      exists v, w, q, w', (m :: ms). split; [assumption|]. split; [assumption|].
      eapply mapM_sources; [|exact Ec]. apply ExcelProcessor_contextOf_source.
    + destruct (ExcelProcessor.looksLikeGreeting question);
        injection E as <- _; now destruct Hne.
Qed.

Lemma sources_follow_the_matches_witness :
  exists r s',
    Part000.queryRFPData false "What is the uptime?" []
      (Harness.start brokenMatchWorld) = (Ok r, s') /\
    sources r <> [] /\
    exists v w resp w' ms,
      pineconeApi_query v 5 (filterConditionsOf []) w = (Ok resp, w') /\
      matches resp = Some ms /\
      sources_of_matches (Part000.contextOf (W := Harness.World)) ms (sources r).
Proof.
  eexists _, _. split; [lazy; reflexivity|]. split; [discriminate|].
  eapply (proj1 (@sources_follow_the_matches Harness.World harness false true
                   "What is the uptime?" [] (Harness.start brokenMatchWorld) _ _)).
  - lazy. reflexivity.
  - discriminate.
Defined.

(* ===================================================================== *)
(** ** The fallback to the direct gateway, and the degraded mode *)
(* ===================================================================== *)




(** The degraded mode does not spare the embedding service. In
    [MOCK_MODE] a question that is not a greeting is first sent to the
    embedding service, with the usual three attempts; the demo answer is
    given only when an embedding came back, and when the embedding call
    fails the result is the fallback answer carrying the error, as out of
    the degraded mode. *)
Theorem degraded_mode_still_embeds :
  forall (W : Type) (C : Collaborators W) (question : string)
         (filters : JsObject.t string) (s : St W),
    Part000.isGreeting question = false ->
    exists result s' later,
      Part000.queryRFPData true question filters s = (Ok result, s') /\
      trace s' = (trace s ++ EEmbed question :: later)%list /\
      ((exists v, questionEmbedding question s = (Ok v, s') /\
                  result = Part000.mockResult question) \/
       (exists e, questionEmbedding question s = (Throw e, s') /\
                  result = fallbackResult e)).
Proof.
  intros W C question filters s Hg.
  unfold Part000.queryRFPData, Part000.queryBody, try_catch. rewrite Hg.
  unfold bind.
  destruct (questionEmbedding question s) as [[v|e] s1] eqn:E;
    destruct (starts_with_questionEmbedding question _ E) as [later Hl].
  - exists (Part000.mockResult question), s1, later.
    split; [reflexivity|]. split; [assumption|]. left. eauto.
  - exists (fallbackResult e), s1, later.
    split; [reflexivity|]. split; [assumption|]. right. eauto.
Qed.

Lemma degraded_mode_still_embeds_witness :
  exists result s' later,
    Part000.queryRFPData true "What is the uptime?" []
      (Harness.start embeddingDownWorld) = (Ok result, s') /\
    trace s' = (trace (Harness.start embeddingDownWorld)
                ++ EEmbed "What is the uptime?" :: later)%list /\
    ((exists v, questionEmbedding "What is the uptime?"
                  (Harness.start embeddingDownWorld) = (Ok v, s') /\
                result = Part000.mockResult "What is the uptime?") \/
     (exists e, questionEmbedding "What is the uptime?"
                  (Harness.start embeddingDownWorld) = (Throw e, s') /\
                result = fallbackResult e)).
Proof.
  apply (@degraded_mode_still_embeds Harness.World harness "What is the uptime?" []
           (Harness.start embeddingDownWorld)).
  reflexivity.
Defined.
